(** * Codex bridge: transport, session orchestrator and prompt accumulator

    A shallow embedding of [services/acp-agents/codex/app/codex_bridge.py].
    Python objects that the bridge mutates in place (the pending-request
    table, futures, subscriber queues, the accumulator) are modelled by
    explicit state passing; exceptions are values of [exn]. *)

From Stdlib Require Import ZArith Ascii.
From stdpp Require Import gmap strings list pretty.

Set Warnings "-register-all".

(** ** JSON values as Python sees them after [json.loads] *)

(** A [dict] is kept as an association list in insertion order; the
    first binding of a key is the one the dict holds.  A [float] is
    carried by its Python repr: the bridge never computes with floats,
    it only tests them for truth and prints them. *)
Inductive json : Type :=
  | JNull
  | JBool (b : bool)
  | JInt (z : Z)
  | JFloat (repr : string)
  | JStr (s : string)
  | JArr (items : list json)
  | JObj (fields : list (string * json)).

Module Py.

(** [d[k]] when present. *)
Fixpoint lookup (k : string) (d : list (string * json)) : option json :=
  match d with
  | [] => None
  | (k', v) :: d' => if String.eqb k k' then Some v else lookup k d'
  end.

(** [d.get(k, default)] *)
Definition get_default (d : list (string * json)) (k : string) (default : json) : json :=
  match lookup k d with
  | Some v => v
  | None => default
  end.

(** [d.get(k)] *)
Definition get (d : list (string * json)) (k : string) : json :=
  get_default d k JNull.

(** [k in d] *)
Definition has_key (d : list (string * json)) (k : string) : bool :=
  match lookup k d with
  | Some _ => true
  | None => false
  end.

(** [v is None] *)
Definition is_none (v : json) : bool :=
  match v with
  | JNull => true
  | _ => false
  end.

(** [bool(v)] *)
Definition truthy (v : json) : bool :=
  match v with
  | JNull => false
  | JBool b => b
  | JInt z => negb (Z.eqb z 0)
  | JFloat r => negb (String.eqb r "0.0" || String.eqb r "-0.0")
  | JStr s => negb (String.eqb s "")
  | JArr items => match items with [] => false | _ => true end
  | JObj fields => match fields with [] => false | _ => true end
  end.

(** [a or b] *)
Definition or (a b : json) : json := if truthy a then a else b.

(** [v == s] for a string literal [s] *)
Definition eq_str (v : json) (s : string) : bool :=
  match v with
  | JStr t => String.eqb t s
  | _ => false
  end.

(** [isinstance(v, dict)] *)
Definition is_dict (v : json) : bool :=
  match v with
  | JObj _ => true
  | _ => false
  end.

(** [hash(v)] succeeds: lists and dicts are unhashable. *)
Definition hashable (v : json) : bool :=
  match v with
  | JArr _ | JObj _ => false
  | _ => true
  end.

(** [needle in haystack] for two strings *)
Fixpoint is_prefix (p s : string) : bool :=
  match p, s with
  | EmptyString, _ => true
  | String a p', String b s' => if Ascii.eqb a b then is_prefix p' s' else false
  | String _ _, EmptyString => false
  end.

Fixpoint is_substring (needle hay : string) : bool :=
  is_prefix needle hay ||
  match hay with
  | EmptyString => false
  | String _ hay' => is_substring needle hay'
  end.

(** [k in v] for a string literal [k]; [None] is the [TypeError] of
    a value that is not a container. *)
Definition contains (v : json) (k : string) : option bool :=
  match v with
  | JObj fields => Some (has_key fields k)
  | JArr items => Some (existsb (fun x => eq_str x k) items)
  | JStr s => Some (is_substring k s)
  | _ => None
  end.

(** [iter(v)]: a list yields its items, a dict its keys, a string
    its characters; anything else is a [TypeError]. *)
Fixpoint chars (s : string) : list json :=
  match s with
  | EmptyString => []
  | String a s' => JStr (String a EmptyString) :: chars s'
  end.

Definition iter (v : json) : option (list json) :=
  match v with
  | JArr items => Some items
  | JObj fields => Some (map (fun kv => JStr (fst kv)) fields)
  | JStr s => Some (chars s)
  | _ => None
  end.

(** [repr(s)] of a string: Python prefers single quotes and switches
    to double quotes when the text has a single quote and no double
    quote.  Bytes above 127 (UTF-8 sequences) are kept as they are. *)
Definition hex_digit (n : N) : Ascii.ascii :=
  Ascii.ascii_of_N (if (n <? 10)%N then 48 + n else 87 + n).

Definition repr_char (quote : Ascii.ascii) (a : Ascii.ascii) : string :=
  let n := Ascii.N_of_ascii a in
  if Ascii.eqb a "\"%char then "\\"
  else if Ascii.eqb a quote then String "\"%char (String a EmptyString)
  else if (n =? 9)%N then "\t"
  else if (n =? 10)%N then "\n"
  else if (n =? 13)%N then "\r"
  else if ((n <? 32) || (n =? 127))%N then
    String "\"%char (String "x"%char
      (String (hex_digit (n / 16)) (String (hex_digit (n mod 16)) EmptyString)))
  else String a EmptyString.

Fixpoint mem_char (a : Ascii.ascii) (s : string) : bool :=
  match s with
  | EmptyString => false
  | String b s' => Ascii.eqb a b || mem_char a s'
  end.

Fixpoint escape (quote : Ascii.ascii) (s : string) : string :=
  match s with
  | EmptyString => EmptyString
  | String a s' => repr_char quote a +:+ escape quote s'
  end.

Definition double_quote : Ascii.ascii := Ascii.ascii_of_N 34.

Definition repr_str (s : string) : string :=
  let quote :=
    if mem_char "'"%char s && negb (mem_char double_quote s)
    then double_quote else "'"%char in
  String quote (escape quote s +:+ String quote EmptyString).

(** [sep.join(parts)] *)
Fixpoint join_sep (sep : string) (parts : list string) : string :=
  match parts with
  | [] => ""
  | [p] => p
  | p :: rest => p +:+ sep +:+ join_sep sep rest
  end.

(** [repr(v)] *)
Fixpoint repr (v : json) : string :=
  match v with
  | JNull => "None"
  | JBool true => "True"
  | JBool false => "False"
  | JInt z => pretty z
  | JFloat r => r
  | JStr s => repr_str s
  | JArr items => "[" +:+ join_sep ", " (map repr items) +:+ "]"
  | JObj fields =>
      "{" +:+ join_sep ", "
                (map (fun kv => let '(k, x) := kv in repr_str k +:+ ": " +:+ repr x) fields)
          +:+ "}"
  end.

(** [str(v)] *)
Definition str (v : json) : string :=
  match v with
  | JStr s => s
  | _ => repr v
  end.

(** [len(s)] of a string.  Text is held as its UTF-8 bytes and Python
    counts code points: every code point has one leading byte, and the
    continuation bytes [10xxxxxx] that follow it do not count. *)
Definition is_continuation (a : Ascii.ascii) : bool :=
  let n := Ascii.N_of_ascii a in
  ((128 <=? n) && (n <? 192))%N.

Fixpoint len (s : string) : nat :=
  match s with
  | EmptyString => 0
  | String a s' => (if is_continuation a then 0 else 1) + len s'
  end.

End Py.

(** ** The prompt accumulator ([_PromptAccumulator]) *)

Record accumulator : Type := Accumulator {
  assistant_text_parts : list string;
  events : list json
}.

Definition new_accumulator : accumulator :=
  {| assistant_text_parts := []; events := [] |}.

(** [_PromptAccumulator.ingest]: the two [isinstance] guards return
    before anything is recorded. *)
Definition ingest (acc : accumulator) (notification : json) : accumulator :=
  match notification with
  | JObj n =>
      let update := Py.or (Py.get n "update") (JObj []) in
      match update with
      | JObj u =>
          let kind := Py.get u "sessionUpdate" in
          let parts :=
            if Py.eq_str kind "agent_message_chunk" then
              let content := Py.or (Py.get u "content") (JObj []) in
              match content with
              | JObj c =>
                  if Py.eq_str (Py.get c "type") "text" then
                    match Py.get c "text" with
                    | JStr text =>
                        if Py.truthy (JStr text)
                        then assistant_text_parts acc ++ [text]
                        else assistant_text_parts acc
                    | _ => assistant_text_parts acc
                    end
                  else assistant_text_parts acc
              | _ => assistant_text_parts acc
              end
            else assistant_text_parts acc in
          {| assistant_text_parts := parts;
             events := events acc ++ [notification] |}
      | _ => acc
      end
  | _ => acc
  end.

(** Feeding a sequence of notifications, oldest first. *)
Definition ingest_all (acc : accumulator) (ns : list json) : accumulator :=
  fold_left ingest ns acc.

(** ["".join(parts)] *)
Definition join (parts : list string) : string :=
  fold_right String.append "" parts.

Definition assistant_message (content : string) : json :=
  JObj [("role", JStr "assistant");
        ("parts", JArr [JObj [("content_type", JStr "text/plain");
                              ("content_encoding", JStr "plain");
                              ("content", JStr content)]])].

(** [_PromptAccumulator.build_output] *)
Definition build_output (acc : accumulator) : list json :=
  match assistant_text_parts acc with
  | [] => []
  | parts => [assistant_message (join parts)]
  end.

(** [_PromptAccumulator.assistant_token_count] *)
Definition assistant_token_count (acc : accumulator) : nat :=
  foldr (fun part n => Py.len part + n) 0 (assistant_text_parts acc).

(** ** Exceptions raised inside the bridge *)

(** The exceptions that carry a text keep it: it is what [str(exc)]
    returns.  [UnicodeDecodeError] is raised by [bytes.decode],
    [ConnectionResetError] by [drain()] on a pipe whose reader is gone. *)
Inductive exn : Type :=
  | CodexError (code message data : json)
  | CodexProcessClosed (message : string)
  | ValueError (message : string)
  | TypeError
  | AttributeError
  | UnicodeDecodeError (message : string)
  | ConnectionResetError (message : string).

(** [except ValueError as exc]: the exceptions the clause catches, with
    [str(exc)].  In Python [UnicodeDecodeError] is a subclass of
    [ValueError]; none of the others is. *)
Definition as_value_error (e : exn) : option string :=
  match e with
  | ValueError message => Some message
  | UnicodeDecodeError message => Some message
  | _ => None
  end.

(** ** The transport ([CodexProcess]) *)

(** An [asyncio.Future]: it is set at most once, every setter in the
    bridge being guarded by [if not future.done()]. *)
Inductive future : Type :=
  | FPending
  | FResult (value : json)
  | FException (e : exn)
  | FCancelled.

Definition done (f : future) : bool :=
  match f with
  | FPending => false
  | _ => true
  end.

(** The two reader tasks.  A task that died from an exception keeps it:
    awaiting the task raises it again. *)
Inductive task : Type :=
  | TaskRunning
  | TaskFinished
  | TaskCancelled
  | TaskFailed (e : exn).

(** The child process handle returned by [create_subprocess_exec]. *)
Record subprocess : Type := Subprocess {
  generation : nat;
  returncode : option Z;
  stdin_piped : bool;
  openai_api_key : option string
}.

Inductive level : Type := ERROR | WARNING.

(** Futures are shared between the pending table and the caller that
    awaits them, so they live in a store and are named by their index.
    [handler_calls] are the notification handler invocations handed to
    [asyncio.create_task] that have not run yet; [stdin_lines] the
    messages written to the child.  Only warnings and errors are kept in [log]. *)
Record codex_process : Type := CodexProcess {
  proc : option subprocess;
  stdout_task : option task;
  stderr_task : option task;
  pending : gmap string nat;
  futures : list future;
  notification_handler : bool;
  handler_calls : list (json * json);
  id_counter : nat;
  current_token : option string;
  spawned : nat;
  stdin_lines : list json;
  log : list (level * json)
}.

Definition set_proc (v : option subprocess) (st : codex_process) : codex_process :=
  CodexProcess v (stdout_task st) (stderr_task st) (pending st) (futures st)
    (notification_handler st) (handler_calls st) (id_counter st)
    (current_token st) (spawned st) (stdin_lines st) (log st).

Definition set_stdout_task (v : option task) (st : codex_process) : codex_process :=
  CodexProcess (proc st) v (stderr_task st) (pending st) (futures st)
    (notification_handler st) (handler_calls st) (id_counter st)
    (current_token st) (spawned st) (stdin_lines st) (log st).

Definition set_stderr_task (v : option task) (st : codex_process) : codex_process :=
  CodexProcess (proc st) (stdout_task st) v (pending st) (futures st)
    (notification_handler st) (handler_calls st) (id_counter st)
    (current_token st) (spawned st) (stdin_lines st) (log st).

Definition set_pending (v : gmap string nat) (st : codex_process) : codex_process :=
  CodexProcess (proc st) (stdout_task st) (stderr_task st) v (futures st)
    (notification_handler st) (handler_calls st) (id_counter st)
    (current_token st) (spawned st) (stdin_lines st) (log st).

Definition set_futures (v : list future) (st : codex_process) : codex_process :=
  CodexProcess (proc st) (stdout_task st) (stderr_task st) (pending st) v
    (notification_handler st) (handler_calls st) (id_counter st)
    (current_token st) (spawned st) (stdin_lines st) (log st).

Definition set_handler_calls (v : list (json * json)) (st : codex_process) : codex_process :=
  CodexProcess (proc st) (stdout_task st) (stderr_task st) (pending st) (futures st)
    (notification_handler st) v (id_counter st)
    (current_token st) (spawned st) (stdin_lines st) (log st).

Definition set_id_counter (v : nat) (st : codex_process) : codex_process :=
  CodexProcess (proc st) (stdout_task st) (stderr_task st) (pending st) (futures st)
    (notification_handler st) (handler_calls st) v
    (current_token st) (spawned st) (stdin_lines st) (log st).

Definition set_current_token (v : option string) (st : codex_process) : codex_process :=
  CodexProcess (proc st) (stdout_task st) (stderr_task st) (pending st) (futures st)
    (notification_handler st) (handler_calls st) (id_counter st)
    v (spawned st) (stdin_lines st) (log st).

Definition set_spawned (v : nat) (st : codex_process) : codex_process :=
  CodexProcess (proc st) (stdout_task st) (stderr_task st) (pending st) (futures st)
    (notification_handler st) (handler_calls st) (id_counter st)
    (current_token st) v (stdin_lines st) (log st).

Definition set_stdin_lines (v : list json) (st : codex_process) : codex_process :=
  CodexProcess (proc st) (stdout_task st) (stderr_task st) (pending st) (futures st)
    (notification_handler st) (handler_calls st) (id_counter st)
    (current_token st) (spawned st) v (log st).

Definition add_log (lvl : level) (entry : json) (st : codex_process) : codex_process :=
  CodexProcess (proc st) (stdout_task st) (stderr_task st) (pending st) (futures st)
    (notification_handler st) (handler_calls st) (id_counter st)
    (current_token st) (spawned st) (stdin_lines st) (log st ++ [(lvl, entry)]).

(** [CodexProcess.__init__] followed by [set_notification_handler],
    as [CodexManager.__init__] does. *)
Definition new_process : codex_process :=
  CodexProcess None None None ∅ [] true [] 0 None 0 [] [].

(** [if not future.done(): future.set_result(..)] or [set_exception(..)]
    on the future named [f]. *)
Definition resolve (f : nat) (outcome : future) (futs : list future) : list future :=
  match futs !! f with
  | Some FPending => <[f := outcome]> futs
  | _ => futs
  end.

(** The loop that ends [_shutdown_locked] and [_read_stdout]:
    every future of the table that is not done gets the exception,
    then the table is cleared. *)
Definition fail_pending (reason : string) (st : codex_process) : codex_process :=
  let handles := snd <$> map_to_list (pending st) in
  let futs := foldr (fun f futs => resolve f (FException (CodexProcessClosed reason)) futs)
                    (futures st) handles in
  set_pending ∅ (set_futures futs st).

(** [task.cancel()]: a task that is not running any more is left alone. *)
Definition cancel (t : task) : task :=
  match t with
  | TaskRunning => TaskCancelled
  | _ => t
  end.

(** [terminate()], then [wait()] for at most five seconds, then
    [kill()]: the child ends by SIGTERM when it [obeys], by SIGKILL
    otherwise. *)
Definition terminate (obeys : bool) (p : subprocess) : subprocess :=
  match returncode p with
  | None => Subprocess (generation p) (Some (if obeys then -15 else -9)%Z)
                    (stdin_piped p) (openai_api_key p)
  | Some _ => p
  end.

(** What awaiting a cancelled or finished task inside
    [contextlib.suppress(asyncio.CancelledError)] raises. *)
Definition await_task (t : option task) : option exn :=
  match t with
  | Some (TaskFailed e) => Some e
  | _ => None
  end.

(** [CodexProcess._shutdown_locked].  The result is the exception that
    escapes, if any, and the state left behind. *)
Definition _shutdown_locked (obeys : bool) (st : codex_process)
  : option exn * codex_process :=
  let st := set_stdout_task (cancel <$> stdout_task st) st in
  let st := set_stderr_task (cancel <$> stderr_task st) st in
  let st := set_proc (terminate obeys <$> proc st) st in
  match await_task (stdout_task st) with
  | Some e => (Some e, st)
  | None =>
      match await_task (stderr_task st) with
      | Some e => (Some e, st)
      | None =>
          let st := set_stdout_task None st in
          let st := set_stderr_task None st in
          let st := set_proc None st in
          let st := set_current_token None st in
          (None, fail_pending "codex-acp process stopped" st)
      end
  end.

(** [CodexProcess.stop] *)
Definition stop (obeys : bool) (st : codex_process) : option exn * codex_process :=
  _shutdown_locked obeys st.

(** [if token:] for an [Optional[str]] *)
Definition token_given (token : option string) : bool :=
  match token with
  | Some t => negb (String.eqb t "")
  | None => false
  end.

(** The guard of [ensure_started]: a child is running and was started
    with this very token. *)
Definition running_with (st : codex_process) (token : option string) : bool :=
  match proc st with
  | Some p =>
      bool_decide (returncode p = None) && bool_decide (token = current_token st)
  | None => false
  end.

(** The tail of [ensure_started]: the new child gets the token as
    OPENAI_API_KEY, or no such variable at all, and both readers start. *)
Definition spawn (token : option string) (st : codex_process) : codex_process :=
  let child := Subprocess (spawned st) None true
                       (if token_given token then token else None) in
  let st := set_spawned (S (spawned st)) st in
  let st := set_proc (Some child) st in
  let st := set_current_token token st in
  let st := set_stdout_task (Some TaskRunning) st in
  set_stderr_task (Some TaskRunning) st.

(** [CodexProcess.ensure_started] *)
Definition ensure_started (obeys : bool) (st : codex_process) (token : option string)
  : (exn + bool) * codex_process :=
  if running_with st token then (inr false, st)
  else
    match _shutdown_locked obeys st with
    | (Some e, st) => (inl e, st)
    | (None, st) => (inr true, spawn token st)
    end.

(** What happens to the bytes of a request on the child's stdin:
    [write] and [drain] return, or one of them raises
    [BrokenPipeError], or [drain] raises [ConnectionResetError] because
    the pipe has lost its other end. *)
Inductive write_outcome : Type :=
  | Written
  | BrokenPipe (text : string)
  | ConnectionReset (text : string).

(** [CodexProcess.request] up to its last line: the request is numbered,
    its future is created and registered, and the line is written.
    On success the caller is left awaiting the future it is given.
    Only [BrokenPipeError] is caught: any other exception of the write
    leaves the method with the entry registered and the future unset. *)
Definition request (st : codex_process) (method : string) (params : json)
    (w : write_outcome) : (exn + string * nat) * codex_process :=
  match proc st with
  | None => (inl (CodexProcessClosed "codex-acp process is not running"), st)
  | Some p =>
      if negb (stdin_piped p)
      then (inl (CodexProcessClosed "codex-acp process is not running"), st)
      else
        let st := set_id_counter (S (id_counter st)) st in
        let request_id := pretty (id_counter st) in
        let message := JObj [("jsonrpc", JStr "2.0");
                             ("id", JStr request_id);
                             ("method", JStr method);
                             ("params", Py.or params (JObj []))] in
        let fut := length (futures st) in
        let st := set_futures (futures st ++ [FPending]) st in
        let st := set_pending (<[request_id := fut]> (pending st)) st in
        match w with
        | Written => (inr (request_id, fut), set_stdin_lines (stdin_lines st ++ [message]) st)
        | BrokenPipe text =>
            let st := set_futures
                        (resolve fut (FException (CodexProcessClosed text)) (futures st)) st in
            (inl (CodexProcessClosed text), st)
        | ConnectionReset text => (inl (ConnectionResetError text), st)
        end
  end.

(** [await future]: what the caller gets once the future is done. *)
Definition await (st : codex_process) (fut : nat) : option (exn + json) :=
  match futures st !! fut with
  | Some (FResult v) => Some (inr v)
  | Some (FException e) => Some (inl e)
  | _ => None
  end.

(** One line as [_read_stdout] meets it: [readline()] returned nothing,
    the bytes are not UTF-8 ([message] is the text of the
    [UnicodeDecodeError] that [decode] raises), the text is blank once stripped,
    [json.loads] raised [JSONDecodeError], or it returned a value. *)
Inductive stdout_line : Type :=
  | Eof
  | Undecodable (message : string)
  | Blank
  | Malformed (raw : string)
  | Parsed (raw : string) (message : json).

(** An exception escaping the loop ends the reader task. *)
Definition reader_dies (e : exn) (st : codex_process) : codex_process :=
  set_stdout_task (Some (TaskFailed e)) st.

(** [future.done()] on the future named [fut]. *)
Definition is_done (st : codex_process) (fut : nat) : bool :=
  match futures st !! fut with
  | Some f => done f
  | None => false
  end.

(** The branch of [_read_stdout] for a message that has an [id].
    [error_obj.get] is called only when the future is not done, so an
    [error] member that is not an object raises [AttributeError] there
    and nowhere else. *)
Definition on_response (st : codex_process) (message : list (string * json))
  : codex_process :=
  let request_id := Py.str (Py.get message "id") in
  match pending st !! request_id with
  | None =>
      add_log WARNING (JObj [("message", JStr "No pending request for response");
                             ("id", JStr request_id)]) st
  | Some fut =>
      let st := set_pending (delete request_id (pending st)) st in
      if Py.has_key message "error" && negb (Py.is_none (Py.get message "error"))
      then
        match Py.get message "error" with
        | JObj error_obj =>
            let e := CodexError (Py.get_default error_obj "code" (JInt (-32001)))
                                (Py.get_default error_obj "message" (JStr "Unknown error"))
                                (Py.get error_obj "data") in
            set_futures (resolve fut (FException e) (futures st)) st
        | _ => if is_done st fut then st else reader_dies AttributeError st
        end
      else set_futures (resolve fut (FResult (Py.get message "result")) (futures st)) st
  end.

(** The branch for a message that has a [method] and no [id]. *)
Definition on_notification (st : codex_process) (message : list (string * json))
  : codex_process :=
  if notification_handler st
  then set_handler_calls
         (handler_calls st ++
            [(Py.get message "method", Py.or (Py.get message "params") (JObj []))]) st
  else st.

(** The body of the loop once [json.loads] has returned [message]. *)
Definition on_message (st : codex_process) (message : json) : codex_process :=
  match Py.contains message "id" with
  | None => reader_dies TypeError st
  | Some true =>
      match message with
      | JObj fields => on_response st fields
      | _ => reader_dies TypeError st
      end
  | Some false =>
      match Py.contains message "method" with
      | Some true =>
          match message with
          | JObj fields => on_notification st fields
          | _ => if notification_handler st then reader_dies TypeError st else st
          end
      | _ => st
      end
  end.

(** One turn of the loop of [CodexProcess._read_stdout], and what
    follows the loop when the stream ends.  Lines are consumed only
    while the reader task is alive. *)
Definition _read_stdout (st : codex_process) (line : stdout_line) : codex_process :=
  match stdout_task st with
  | Some TaskRunning =>
      match line with
      | Eof => set_stdout_task (Some TaskFinished) (fail_pending "codex-acp stdout closed" st)
      | Undecodable message => reader_dies (UnicodeDecodeError message) st
      | Blank => st
      | Malformed raw =>
          add_log ERROR (JObj [("message", JStr "Failed to decode Codex output");
                               ("raw", JStr raw)]) st
      | Parsed _ message => on_message st message
      end
  | _ => st
  end.

(** The reader working through the lines the child has written. *)
Definition read_lines (st : codex_process) (lines : list stdout_line) : codex_process :=
  fold_left _read_stdout lines st.

(** ** The session orchestrator ([CodexManager]) *)

(** Subscriber queues are objects too: a queue is named by its index in
    the store [queues], which holds what each one currently contains. *)
Record manager : Type := CodexManager {
  process : codex_process;
  workspace : string;
  initialized : bool;
  client_to_codex : gmap string string;
  session_watchers : gmap string (list nat);
  auth_methods : list json;
  queues : list (list json)
}.

Definition set_process (v : codex_process) (m : manager) : manager :=
  CodexManager v (workspace m) (initialized m) (client_to_codex m)
    (session_watchers m) (auth_methods m) (queues m).

Definition set_initialized (v : bool) (m : manager) : manager :=
  CodexManager (process m) (workspace m) v (client_to_codex m)
    (session_watchers m) (auth_methods m) (queues m).

Definition set_client_to_codex (v : gmap string string) (m : manager) : manager :=
  CodexManager (process m) (workspace m) (initialized m) v
    (session_watchers m) (auth_methods m) (queues m).

Definition set_session_watchers (v : gmap string (list nat)) (m : manager) : manager :=
  CodexManager (process m) (workspace m) (initialized m) (client_to_codex m)
    v (auth_methods m) (queues m).

Definition set_auth_methods (v : list json) (m : manager) : manager :=
  CodexManager (process m) (workspace m) (initialized m) (client_to_codex m)
    (session_watchers m) v (queues m).

Definition set_queues (v : list (list json)) (m : manager) : manager :=
  CodexManager (process m) (workspace m) (initialized m) (client_to_codex m)
    (session_watchers m) (auth_methods m) v.

(** [CodexManager.__init__] *)
Definition new_manager (workspace : string) : manager :=
  CodexManager new_process workspace false ∅ ∅ [] [].

(** [queue.put_nowait(item)] *)
Definition put_nowait (q : nat) (item : json) (qs : list (list json)) : list (list json) :=
  match qs !! q with
  | Some items => <[q := items ++ [item]]> qs
  | None => qs
  end.

(** [CodexManager._handle_notification].  It runs as a task of its own:
    the [AttributeError] of a payload that is not a dict ends that task
    and nothing else. *)
Definition _handle_notification (m : manager) (method params : json) : manager :=
  if negb (Py.eq_str method "session/update") then m
  else
    match params with
    | JObj fields =>
        let session_id := Py.str (Py.get_default fields "sessionId" (JStr "")) in
        if String.eqb session_id "" then m
        else
          let watchers := default [] (session_watchers m !! session_id) in
          let m := set_queues (fold_left (fun qs q => put_nowait q params qs)
                                         watchers (queues m)) m in
          set_process
            (add_log WARNING (JObj [("message", JStr "codex_notification");
                                    ("method", method);
                                    ("params", params)]) (process m)) m
    | _ => m
    end.

(** [CodexManager._detach_watcher] *)
Fixpoint remove_first (q : nat) (watchers : list nat) : list nat :=
  match watchers with
  | [] => []
  | q' :: rest => if Nat.eqb q q' then rest else q' :: remove_first q rest
  end.

Definition _detach_watcher (m : manager) (session_id : string) (q : nat) : manager :=
  match session_watchers m !! session_id with
  | None | Some [] => m
  | Some watchers =>
      match remove_first q watchers with
      | [] => set_session_watchers (delete session_id (session_watchers m)) m
      | rest => set_session_watchers (<[session_id := rest]> (session_watchers m)) m
      end
  end.

(** [queue = asyncio.Queue()], then
    [self._session_watchers.setdefault(codex_session, []).append(queue)] *)
Definition attach_watcher (m : manager) (codex_session : string) : nat * manager :=
  let q := length (queues m) in
  let m := set_queues (queues m ++ [[]]) m in
  let watchers := default [] (session_watchers m !! codex_session) in
  (q, set_session_watchers (<[codex_session := watchers ++ [q]]> (session_watchers m)) m).

(** The event loop between two steps of a caller: the reader handles
    the [lines] the child has written, then the handler tasks it created
    run, in the order of their creation. *)
Definition run_handlers (m : manager) : manager :=
  let calls := handler_calls (process m) in
  let m := set_process (set_handler_calls [] (process m)) m in
  fold_left (fun m call => _handle_notification m (fst call) (snd call)) calls m.

Definition pump (m : manager) (lines : list stdout_line) : manager :=
  run_handlers (set_process (read_lines (process m) lines) m).

(** How a call of the orchestrator ends.  [Hangs] is a caller left
    awaiting: requests have no timeout of their own. *)
Inductive outcome (A : Type) : Type :=
  | Returns (a : A)
  | Raises (e : exn)
  | Hangs.
Arguments Returns {A} a.
Arguments Raises {A} e.
Arguments Hangs {A}.

Definition bind {A B : Type} (c : manager -> outcome A * manager)
    (k : A -> manager -> outcome B * manager) (m : manager) : outcome B * manager :=
  match c m with
  | (Returns a, m) => k a m
  | (Raises e, m) => (Raises e, m)
  | (Hangs, m) => (Hangs, m)
  end.

Notation "'do' x <- c ; k" := (bind c (fun x => k))
  (at level 10, x name, c at level 100, k at level 200).

(** What the child does about one request: whether the line reaches it,
    and the output the reader handles before the caller wakes up. *)
Record exchange : Type := Exchange {
  write : write_outcome;
  lines : list stdout_line
}.

(** [await self._process.request(method, params)] seen from the caller. *)
Definition call (method : string) (params : json) (ex : exchange) (m : manager)
  : outcome json * manager :=
  match request (process m) method params (write ex) with
  | (inl e, p) => (Raises e, set_process p m)
  | (inr (_, fut), p) =>
      let m := pump (set_process p m) (lines ex) in
      match await (process m) fut with
      | Some (inr v) => (Returns v, m)
      | Some (inl e) => (Raises e, m)
      | None => (Hangs, m)
      end
  end.

(** The set comprehension of [_ensure_initialized]. *)
Fixpoint collect_auth_ids (methods : list json) : exn + list json :=
  match methods with
  | [] => inr []
  | JObj method :: rest =>
      if Py.has_key method "id" then
        if Py.hashable (Py.get method "id") then
          match collect_auth_ids rest with
          | inr ids => inr (Py.get method "id" :: ids)
          | inl e => inl e
          end
        else inl TypeError
      else collect_auth_ids rest
  | _ :: rest => collect_auth_ids rest
  end.

Definition auth_method_ids (init_result : json) : exn + list json :=
  match Py.or init_result (JObj []) with
  | JObj fields =>
      match Py.iter (Py.get_default fields "authMethods" (JArr [])) with
      | Some methods => collect_auth_ids methods
      | None => inl TypeError
      end
  | _ => inl AttributeError
  end.

Definition initialize_params : json :=
  JObj [("protocolVersion", JInt 1);
        ("clientCapabilities",
         JObj [("fs", JObj [("readTextFile", JBool false); ("writeTextFile", JBool false)]);
               ("terminal", JBool false)])].

(** [CodexManager._ensure_initialized] *)
Definition _ensure_initialized (token : option string) (on_initialize on_authenticate : exchange)
    (m : manager) : outcome unit * manager :=
  if initialized m then (Returns tt, m)
  else
    (do init_result <- call "initialize" initialize_params on_initialize;
     fun m =>
       match auth_method_ids init_result with
       | inl e => (Raises e, m)
       | inr ids =>
           let m := set_auth_methods ids m in
           if token_given token then
             if negb (existsb (fun x => Py.eq_str x "openai-api-key") (auth_methods m))
             then (Raises (CodexError (JInt (-32000))
                             (JStr "Codex agent does not support OPENAI_API_KEY authentication")
                             JNull), m)
             else
               (do _ <- call "authenticate" (JObj [("methodId", JStr "openai-api-key")])
                             on_authenticate;
                fun m => (Returns tt, set_initialized true m)) m
           else (Returns tt, set_initialized true m)
       end) m.

(** [CodexManager._ensure_session] *)
Definition _ensure_session (client_session_id : string) (on_session_new : exchange)
    (m : manager) : outcome string * manager :=
  match client_to_codex m !! client_session_id with
  | Some codex_session => (Returns codex_session, m)
  | None =>
      (do response <- call "session/new"
                           (JObj [("cwd", JStr (workspace m)); ("mcpServers", JArr [])])
                           on_session_new;
       fun m =>
         match response with
         | JObj fields =>
             let codex_session_raw := Py.get fields "sessionId" in
             if negb (Py.truthy codex_session_raw)
             then (Raises (CodexError (JInt (-32603))
                             (JStr "Codex session/new did not return a sessionId")
                             JNull), m)
             else
               let codex_session := Py.str codex_session_raw in
               (Returns codex_session,
                set_client_to_codex
                  (<[client_session_id := codex_session]> (client_to_codex m)) m)
         | _ => (Raises AttributeError, m)
         end) m
  end.

(** [_build_prompt_payload]: the inner loop over the parts of one
    message, then the loop over the messages. *)
Fixpoint blocks_of_parts (parts : list json) (content_blocks : list json)
  : exn + list json :=
  match parts with
  | [] => inr content_blocks
  | JObj part :: rest =>
      let content_type := Py.or (Py.get part "content_type") (Py.get part "type") in
      if negb (Py.hashable content_type) then inl TypeError
      else if negb (Py.eq_str content_type "text/plain" || Py.eq_str content_type "text")
      then blocks_of_parts rest content_blocks
      else
        let text := Py.or (Py.or (Py.get part "content") (Py.get part "text")) (JStr "") in
        if Py.truthy text
        then blocks_of_parts rest
               (content_blocks ++ [JObj [("type", JStr "text"); ("text", text)]])
        else blocks_of_parts rest content_blocks
  | _ :: rest => blocks_of_parts rest content_blocks
  end.

Fixpoint blocks_of_messages (messages : list json) (content_blocks : list json)
  : exn + list json :=
  match messages with
  | [] => inr content_blocks
  | JObj message :: rest =>
      match Py.iter (Py.or (Py.get message "parts") (JArr [])) with
      | Some parts =>
          match blocks_of_parts parts content_blocks with
          | inr content_blocks => blocks_of_messages rest content_blocks
          | inl e => inl e
          end
      | None => inl TypeError
      end
  | _ :: _ => inl AttributeError
  end.

Definition _build_prompt_payload (messages : list json) : exn + list json :=
  match blocks_of_messages messages [] with
  | inr [] => inl (ValueError "Prompt payload did not contain any plain text content")
  | r => r
  end.

(** The value [run_prompt] returns. *)
Record RunResult : Type := MkRunResult {
  session_id : string;
  codex_session_id : string;
  stop_reason : json;
  output_messages : list json;
  result_events : list json
}.

(** What the child does during one call of the orchestrator.  Each
    element of [prompt_turns] is the output the reader handles before
    one wake-up of the loop that races the prompt response against the
    subscriber queue; [prompt_late] is handled while the cancelled
    queue getter is awaited. *)
Record script : Type := Script {
  obeys_terminate : bool;
  on_initialize : exchange;
  on_authenticate : exchange;
  on_session_new : exchange;
  prompt_write : write_outcome;
  prompt_turns : list (list stdout_line);
  prompt_late : list stdout_line
}.

(** [await self._process.ensure_started(token)] seen from the caller. *)
Definition start (token : option string) (obeys : bool) (m : manager)
  : outcome bool * manager :=
  match ensure_started obeys (process m) token with
  | (inl e, p) => (Raises e, set_process p m)
  | (inr restarted, p) => (Returns restarted, set_process p m)
  end.

(** Lines 308-319 of [run_prompt]: what a restart invalidates. *)
Definition reset_after_restart (restarted : bool) (m : manager) : manager :=
  if restarted
  then set_session_watchers ∅ (set_client_to_codex ∅ (set_initialized false m))
  else m.

(** [client_session_id or ""] *)
Definition client_session_of (client_session_id : option string) : string :=
  default "" client_session_id.

(** [a or b] on two strings *)
Definition str_or (a b : string) : string :=
  if String.eqb a "" then b else a.

(** [run_prompt] up to the resolution of the agent session (lines 306-323). *)
Definition run_prompt_session (token : option string) (client_session_id : option string)
    (sc : script) : manager -> outcome string * manager :=
  do restarted <- start token (obeys_terminate sc);
  fun m =>
    let m := reset_after_restart restarted m in
    (do _ <- _ensure_initialized token (on_initialize sc) (on_authenticate sc);
     _ensure_session (client_session_of client_session_id) (on_session_new sc)) m.

(** [queue.get()] completing, or [queue.get_nowait()]: the oldest item
    leaves the queue. *)
Definition take (q : nat) (m : manager) : option (json * manager) :=
  match queues m !! q with
  | Some (item :: rest) => Some (item, set_queues (<[q := rest]> (queues m)) m)
  | _ => None
  end.

(** [(prompt_response or {}).get("stopReason", "unknown")] *)
Definition stop_reason_of (prompt_response : json) : exn + json :=
  match Py.or prompt_response (JObj []) with
  | JObj fields => inr (Py.get_default fields "stopReason" (JStr "unknown"))
  | _ => inl AttributeError
  end.

(** [response_task.done()] and its result.  [response] is the state of
    the task running the prompt request: the exception it died from
    before awaiting anything, or the future it awaits. *)
Definition response_done (response : exn + nat) (m : manager) : option (exn + json) :=
  match response with
  | inl e => Some (inl e)
  | inr fut => await (process m) fut
  end.

(** The [while True] loop of [run_prompt].  The boolean of the result
    tells the [finally] clause whether a [queue.get()] task is left.
    When the child writes nothing more, the loop still wakes up if the
    response task is already done, and waits for ever otherwise. *)
Fixpoint race (turns : list (list stdout_line)) (response : exn + nat) (q : nat)
    (acc : accumulator) (m : manager)
  : outcome json * bool * accumulator * manager :=
  match turns with
  | [] =>
      match response_done response m with
      | Some (inl e) => (Raises e, true, acc, m)
      | Some (inr prompt_response) => (Returns prompt_response, true, acc, m)
      | None => (Hangs, true, acc, m)
      end
  | turn :: turns =>
      let m := pump m turn in
      let '(getter, acc, m) :=
        match take q m with
        | Some (notification, m) => (false, ingest acc notification, m)
        | None => (true, acc, m)
        end in
      match response_done response m with
      | Some (inl e) => (Raises e, getter, acc, m)
      | Some (inr prompt_response) => (Returns prompt_response, getter, acc, m)
      | None => race turns response q acc m
      end
  end.

(** The sweep after the loop: [while not queue.empty()]. *)
Definition drain (q : nat) (acc : accumulator) (m : manager) : accumulator * manager :=
  match queues m !! q with
  | Some items => (ingest_all acc items, set_queues (<[q := []]> (queues m)) m)
  | None => (acc, m)
  end.

(** [CodexManager.run_prompt] *)
Definition run_prompt (token : option string) (client_session_id : option string)
    (messages : list json) (sc : script) (m : manager) : outcome RunResult * manager :=
  let client_session := client_session_of client_session_id in
  match run_prompt_session token client_session_id sc m with
  | (Raises e, m) => (Raises e, m)
  | (Hangs, m) => (Hangs, m)
  | (Returns codex_session, m) =>
      let '(q, m) := attach_watcher m codex_session in
      match _build_prompt_payload messages with
      | inl e =>
          match as_value_error e with
          | Some _ => (Raises e, _detach_watcher m codex_session q)
          | None => (Raises e, m)
          end
      | inr prompt_payload =>
          let '(response, p) :=
            match request (process m) "session/prompt"
                    (JObj [("sessionId", JStr codex_session);
                           ("prompt", JArr prompt_payload)]) (prompt_write sc) with
            | (inl e, p) => (inl e, p)
            | (inr (_, fut), p) => (inr fut, p)
            end in
          let m := set_process p m in
          let '(end_of_race, getter, acc, m) :=
            race (prompt_turns sc) response q new_accumulator m in
          let finish r :=
            match r with
            | Hangs => (Hangs, m)
            | _ =>
                let m := if getter then pump m (prompt_late sc) else m in
                let m := _detach_watcher m codex_session q in
                match r with
                | Returns stop_reason =>
                    let '(acc, m) := drain q acc m in
                    (Returns (MkRunResult (str_or client_session codex_session)
                                          codex_session stop_reason
                                          (build_output acc) (events acc)), m)
                | Raises e => (Raises e, m)
                | Hangs => (Hangs, m)
                end
            end in
          match end_of_race with
          | Returns prompt_response =>
              match stop_reason_of prompt_response with
              | inr stop_reason => finish (Returns stop_reason)
              | inl e => finish (Raises e)
              end
          | Raises e => finish (Raises e)
          | Hangs => finish Hangs
          end
      end
  end.

(** [CodexManager.stream_session] up to its first [await queue.get()]:
    the result is the agent session and the queue the stream reads. *)
Definition stream_session (token : option string) (client_session_id : string)
    (sc : script) : manager -> outcome (string * nat) * manager :=
  fun m =>
    let effective_token :=
      match token with
      | Some t => Some t
      | None => current_token (process m)
      end in
    (do _ <- start effective_token (obeys_terminate sc);
     do _ <- _ensure_initialized effective_token (on_initialize sc) (on_authenticate sc);
     do codex_session <- _ensure_session client_session_id (on_session_new sc);
     fun m =>
       let '(q, m) := attach_watcher m codex_session in
       (Returns (codex_session, q), m)) m.

(** One [yield update] of the stream, when the queue has an item. *)
Definition stream_session_next (q : nat) (m : manager) : option (json * manager) :=
  take q m.

(** The [finally] clause of the stream, run when the consumer cancels it. *)
Definition stream_session_close (codex_session : string) (q : nat) (m : manager) : manager :=
  _detach_watcher m codex_session q.

(** [CodexError.to_dict]: [str(self)] is the message the exception was
    built with. *)
Definition to_dict (code message data : json) : json :=
  JObj ([("code", code); ("message", JStr (Py.str message))]
        ++ (if Py.is_none data then [] else [("data", data)])).

(** ** The HTTP adapter ([main.py]) *)

(** Header values reach the adapter as text with one character per
    byte, so a character of these strings is a character of Python. *)
Module Text.

(** [c.isspace()] for the characters below 256. *)
Definition is_space (a : Ascii.ascii) : bool :=
  let n := Ascii.N_of_ascii a in
  ((9 <=? n) && (n <=? 13) || (28 <=? n) && (n <=? 32) || (n =? 133) || (n =? 160))%N.

(** [s.lstrip()], [s.rstrip()] and [s.strip()] *)
Fixpoint lstrip (s : string) : string :=
  match s with
  | EmptyString => EmptyString
  | String a s' => if is_space a then lstrip s' else s
  end.

Fixpoint rstrip (s : string) : string :=
  match s with
  | EmptyString => EmptyString
  | String a s' =>
      match rstrip s' with
      | EmptyString => if is_space a then EmptyString else String a EmptyString
      | r => String a r
      end
  end.

Definition strip (s : string) : string := rstrip (lstrip s).

(** [s.lower()] on the letters A to Z.  The adapter only compares the
    result with "bearer ", "codex" and "sync", and no other character
    of Python lowers to a letter of these words. *)
Definition lower_char (a : Ascii.ascii) : Ascii.ascii :=
  let n := Ascii.N_of_ascii a in
  if ((65 <=? n) && (n <=? 90))%N then Ascii.ascii_of_N (n + 32) else a.

Fixpoint lower (s : string) : string :=
  match s with
  | EmptyString => EmptyString
  | String a s' => String (lower_char a) (lower s')
  end.

(** [s[n:]] *)
Fixpoint drop (n : nat) (s : string) : string :=
  match n, s with
  | O, _ => s
  | S n', String _ s' => drop n' s'
  | S _, EmptyString => EmptyString
  end.

(** [s or None] *)
Definition or_none (s : string) : option string :=
  if String.eqb s "" then None else Some s.

End Text.

(** [_bearer_token] *)
Definition _bearer_token (header : option string) : option string :=
  match header with
  | None => None
  | Some header =>
      if String.eqb header "" then None
      else if Py.is_prefix "bearer " (Text.lower header)
      then Text.or_none (Text.strip (Text.drop 7 header))
      else Text.or_none (Text.strip header)
  end.

(** The validated body of [POST /runs]. *)
Record RunRequest : Type := MkRunRequest {
  agent_name : string;
  mode : string;
  request_session_id : option string;
  input : list json
}.

(** What the endpoint answers: a JSON body with status 200, an
    [HTTPException], an exception the endpoint does not catch, or
    nothing while the call is left awaiting. *)
Inductive response : Type :=
  | JSONResponse (body : json)
  | HTTPException (status_code : Z) (detail : json)
  | Uncaught (e : exn)
  | NoResponse.

(** [exc.code == -32000]: an integer, or the float of the same value. *)
Definition code_equals (code : json) (z : Z) : bool :=
  match code with
  | JInt z' => Z.eqb z' z
  | JFloat r => String.eqb r (pretty z +:+ ".0")
  | JBool b => Z.eqb (Z.b2z b) z
  | _ => false
  end.

(** The [except] clauses of [create_run], in their order.  The first
    one, [except ValueError], also catches a [UnicodeDecodeError]. *)
Definition error_response (e : exn) : response :=
  match as_value_error e with
  | Some text => HTTPException 422 (JObj [("message", JStr text)])
  | None =>
      match e with
      | CodexError code message data =>
          HTTPException (if code_equals code (-32000) then 401 else 502)
                        (to_dict code message data)
      | CodexProcessClosed text => HTTPException 502 (JObj [("message", JStr text)])
      | _ => Uncaught e
      end
  end.

Definition run_payload (run_id : string) (result : RunResult) : json :=
  JObj [("run", JObj [("run_id", JStr run_id);
                      ("agent_name", JStr "codex");
                      ("session_id", JStr (session_id result));
                      ("status", JStr "completed");
                      ("stop_reason", stop_reason result);
                      ("output", JArr (output_messages result));
                      ("events", JArr (result_events result))])].

(** [create_run]; [run_id] is the identifier [uuid.uuid4()] draws. *)
Definition create_run (payload : RunRequest) (authorization : option string)
    (run_id : string) (sc : script) (m : manager) : response * manager :=
  let token := _bearer_token authorization in
  if negb (String.eqb (Text.lower (agent_name payload)) "codex")
  then (HTTPException 404
          (JObj [("message", JStr ("Unknown agent '" +:+ agent_name payload +:+ "'"))]), m)
  else if negb (String.eqb (Text.lower (mode payload)) "sync")
  then (HTTPException 400
          (JObj [("message", JStr ("Unsupported run mode '" +:+ mode payload +:+ "'"))]), m)
  else
    match run_prompt token (request_session_id payload) (input payload) sc m with
    | (Returns result, m) => (JSONResponse (run_payload run_id result), m)
    | (Raises e, m) => (error_response e, m)
    | (Hangs, m) => (NoResponse, m)
    end.

(** ** Specification-level notions *)

(** The text fragment a notification contributes, in the words of the
    specification: its nested update object has kind "agent message
    chunk" and its content is of text type with non-empty text. *)
Definition text_fragment (notification : json) : option string :=
  match notification with
  | JObj n =>
      match Py.get n "update" with
      | JObj update =>
          match Py.get update "sessionUpdate", Py.get update "content" with
          | JStr kind, JObj content =>
              match Py.get content "type", Py.get content "text" with
              | JStr type, JStr text =>
                  if String.eqb kind "agent_message_chunk" && String.eqb type "text"
                     && negb (String.eqb text "")
                  then Some text else None
              | _, _ => None
              end
          | _, _ => None
          end
      | _ => None
      end
  | _ => None
  end.


(** The notifications [ingest] records: dicts whose [update] member is
    a dict, or is missing or falsy (and then replaced by [{}]). *)
Definition recorded (notification : json) : bool :=
  match notification with
  | JObj n => Py.is_dict (Py.get n "update") || negb (Py.truthy (Py.get n "update"))
  | _ => false
  end.

(** A [session/update] payload carrying a chunk of assistant text. *)
Definition message_chunk (session text : string) : json :=
  JObj [("sessionId", JStr session);
        ("update", JObj [("sessionUpdate", JStr "agent_message_chunk");
                         ("content", JObj [("type", JStr "text"); ("text", JStr text)])])].

(** A payload of another kind. *)
Definition tool_call_update (session : string) : json :=
  JObj [("sessionId", JStr session);
        ("update", JObj [("sessionUpdate", JStr "tool_call"); ("title", JStr "ls")])].

(** The reader task is still running its loop. *)
Definition reader_alive (st : codex_process) : bool :=
  match stdout_task st with
  | Some TaskRunning => true
  | _ => false
  end.

(** Neither reader task has died from an exception. *)
Definition readers_sound (st : codex_process) : Prop :=
  await_task (stdout_task st) = None /\ await_task (stderr_task st) = None.

(** The [error] member of a response is missing, null, or an object, as
    JSON-RPC 2.0 has it. *)
Definition error_member_ok (message : list (string * json)) : bool :=
  match Py.lookup "error" message with
  | None | Some JNull | Some (JObj _) => true
  | Some _ => false
  end.

(** How a response resolves its request, in the words of the
    specification: with a protocol error carrying the code, message and
    data of a non-null error object, otherwise with the result member,
    which may be missing or null. *)
Definition response_outcome (message : list (string * json)) : future :=
  match Py.lookup "error" message with
  | Some (JObj error) =>
      FException (CodexError (default (JInt (-32001)) (Py.lookup "code" error))
                             (default (JStr "Unknown error") (Py.lookup "message" error))
                             (default JNull (Py.lookup "data" error)))
  | _ => FResult (default JNull (Py.lookup "result" message))
  end.

(** What a caller awaiting a future set to [f] receives. *)
Definition delivered (f : future) : option (exn + json) :=
  match f with
  | FResult v => Some (inr v)
  | FException e => Some (inl e)
  | _ => None
  end.

(** Output of the child that is not a response to request [rid] and
    that the reader survives: blank or malformed lines, notifications,
    and responses to other requests. *)
Definition other_traffic (rid : string) (line : stdout_line) : Prop :=
  match line with
  | Blank | Malformed _ => True
  | Parsed _ (JObj message) =>
      error_member_ok message = true /\
      match Py.lookup "id" message with
      | Some v => Py.str v <> rid
      | None => True
      end
  | _ => False
  end.

(** A response line as the child writes it. *)
Definition response_line (id : json) (result : json) : stdout_line :=
  Parsed "" (JObj [("jsonrpc", JStr "2.0"); ("id", id); ("result", result)]).

Definition error_line (id : json) (code : Z) (message : string) : stdout_line :=
  Parsed "" (JObj [("jsonrpc", JStr "2.0"); ("id", id);
                   ("error", JObj [("code", JInt code); ("message", JStr message)])]).

(** A [session/update] notification line. *)
Definition update_line (params : json) : stdout_line :=
  Parsed "" (JObj [("jsonrpc", JStr "2.0"); ("method", JStr "session/update");
                   ("params", params)]).

(** A transport with a running child and two requests in flight. *)
Definition two_in_flight : codex_process :=
  let st := snd (ensure_started true new_process None) in
  let st := snd (request st "session/new" JNull Written) in
  snd (request st "session/prompt" JNull Written).

(** A transport whose child has closed its output and exited with
    status 0 on its own: the reader has met the end of the stream, the
    handle is still the one [ensure_started] stored. *)
Definition after_child_exit : codex_process :=
  let st := _read_stdout (snd (ensure_started true new_process None)) Eof in
  set_proc (Some (Subprocess 0 (Some 0%Z) true None)) st.

(** What the reader leaves untouched while it handles traffic that is
    not meant for request [rid]. *)
Definition preserves_request (rid : string) (st st' : codex_process) : Prop :=
  stdout_task st' = Some TaskRunning /\
  pending st' !! rid = pending st !! rid /\
  (forall r f, pending st' !! r = Some f -> pending st !! r = Some f) /\
  (forall f, (forall r, pending st !! r = Some f -> r = rid) ->
             futures st' !! f = futures st !! f).

(** The state [_shutdown_locked] resets before it fails the pending
    requests. *)
Definition stopped_fields (st : codex_process) : codex_process :=
  set_current_token None (set_proc None (set_stderr_task None (set_stdout_task None st))).


(** Every entry of the subscriber registry is a non-empty list of
    queues that exist. *)
Definition registry_sound (m : manager) : Prop :=
  forall s ws, session_watchers m !! s = Some ws ->
               ws <> [] /\ forall q, q ∈ ws -> q < length (queues m).

(** Two states of the orchestrator with the same registry and as many
    queues. *)
Definition same_registry (m m' : manager) : Prop :=
  session_watchers m' = session_watchers m /\ length (queues m') = length (queues m).

(** A step of the orchestrator that leaves the registry alone. *)
Definition keeps_registry {A : Type} (c : manager -> outcome A * manager) : Prop :=
  forall m, same_registry m (snd (c m)).

(** A part the prompt can use, in the words of the specification: an
    object whose content type ([content_type], or else [type]) is plain
    text and whose text ([content], or else [text]) is not empty. *)
Definition usable_text_part (part : json) : bool :=
  match part with
  | JObj p =>
      let content_type := Py.or (Py.get p "content_type") (Py.get p "type") in
      (Py.eq_str content_type "text/plain" || Py.eq_str content_type "text")
      && Py.truthy (Py.or (Py.or (Py.get p "content") (Py.get p "text")) (JStr ""))
  | _ => false
  end.

(** The content type of a part can be looked up in a set. *)
Definition part_typed (part : json) : bool :=
  match part with
  | JObj p => Py.hashable (Py.or (Py.get p "content_type") (Py.get p "type"))
  | _ => true
  end.

(** The parts of a message: the message is an object and its [parts]
    member, when given, can be iterated. *)
Definition parts_of (message : json) : option (list json) :=
  match message with
  | JObj fields => Py.iter (Py.or (Py.get fields "parts") (JArr []))
  | _ => None
  end.

(** A message of the documented shape none of whose parts is usable. *)
Definition message_without_text (message : json) : bool :=
  match parts_of message with
  | Some parts => forallb (fun part => part_typed part && negb (usable_text_part part)) parts
  | None => false
  end.

(** The request of the end-to-end scenario of the specification, and a
    child that answers it: it advertises no authentication method,
    opens session "a1", streams "hello" and ends the turn. *)
Definition hi_messages : list json :=
  [JObj [("parts", JArr [JObj [("content_type", JStr "text/plain");
                               ("content", JStr "hi")]])]].

Definition image_messages : list json :=
  [JObj [("parts", JArr [JObj [("content_type", JStr "image/png");
                               ("content", JStr "iVBORw0KGgo=")]])]].

Definition end_turn_script : script :=
  Script true
    (Exchange Written [response_line (JStr "1") (JObj [("authMethods", JArr [])])])
    (Exchange Written [])
    (Exchange Written [response_line (JStr "2") (JObj [("sessionId", JStr "a1")])])
    Written
    [[update_line (message_chunk "a1" "hello");
      response_line (JStr "3") (JObj [("stopReason", JStr "end_turn")])]]
    [].

(** The orchestrator after that scenario has run for client session "s1". *)
Definition after_first_run : manager :=
  snd (run_prompt None (Some "s1") hi_messages end_turn_script (new_manager "/workspace")).

(** What the specification expects of that scenario. *)
Definition hello_result : RunResult :=
  MkRunResult "s1" "a1" (JStr "end_turn")
              [assistant_message "hello"] [message_chunk "a1" "hello"].

(** ** Invariants of the transport and further notions *)

(** The pending table of a transport: every handle names a future of
    the store, every identifier was drawn from the counter, and two
    identifiers never share a future. *)
Definition table_sound (st : codex_process) : Prop :=
  (forall rid f, pending st !! rid = Some f ->
     f < length (futures st) /\ exists k : nat, rid = pretty k /\ k <= id_counter st) /\
  (forall r1 r2 f, pending st !! r1 = Some f -> pending st !! r2 = Some f -> r1 = r2).

(** The line [request] writes for identifier [rid]. *)
Definition request_line (rid method : string) (params : json) : json :=
  JObj [("jsonrpc", JStr "2.0"); ("id", JStr rid); ("method", JStr method);
        ("params", Py.or params (JObj []))].

(** The session a [session/update] payload names:
    [str(params.get("sessionId", ""))]. *)
Definition session_of (fields : list (string * json)) : string :=
  Py.str (Py.get_default fields "sessionId" (JStr "")).

(** How many times queue [q] is registered for session [sid]. *)
Definition registrations (m : manager) (sid : string) (q : nat) : nat :=
  count_occ Nat.eq_dec (default [] (session_watchers m !! sid)) q.

(** A payload the orchestrator routes to session [sid]. *)
Definition payload_for (sid : string) (params : json) : Prop :=
  exists fields, params = JObj fields /\ session_of fields = sid.

(** Two states of the orchestrator that differ at most in the
    transport and in what the queues hold. *)
Definition same_sessions (m m' : manager) : Prop :=
  initialized m' = initialized m /\
  client_to_codex m' = client_to_codex m /\
  auth_methods m' = auth_methods m /\
  workspace m' = workspace m.

(** The agent advertises authentication by API key. *)
Definition advertises_api_key (m : manager) : bool :=
  existsb (fun x => Py.eq_str x "openai-api-key") (auth_methods m).

(** The text of a part: [part.get("content") or part.get("text") or ""]. *)
Definition text_of_part (part : json) : json :=
  match part with
  | JObj p => Py.or (Py.or (Py.get p "content") (Py.get p "text")) (JStr "")
  | _ => JNull
  end.

(** The content block the prompt carries for a text. *)
Definition text_block (text : json) : json :=
  JObj [("type", JStr "text"); ("text", text)].

(** All the parts of the messages, in order. *)
Definition all_parts (messages : list json) : list json :=
  flat_map (fun message => default [] (parts_of message)) messages.

(** A message of the documented shape: an object whose parts can be
    iterated and have content types that can be looked up in a set. *)
Definition message_shaped (message : json) : bool :=
  match parts_of message with
  | Some parts => forallb part_typed parts
  | None => false
  end.

(** A block as [_build_prompt_payload] builds them. *)
Definition is_text_block (block : json) : Prop :=
  exists text, block = text_block text /\ Py.truthy text = true.

(** A handshake with a token against an agent that advertises
    authentication by API key. *)
Definition key_handshake : exchange * exchange :=
  (Exchange Written
     [response_line (JStr "1")
        (JObj [("authMethods", JArr [JObj [("id", JStr "openai-api-key")]])])],
   Exchange Written [response_line (JStr "2") JNull]).

Definition started_with_key : manager :=
  snd (start (Some "sk-1") true (new_manager "/workspace")).

(** The fragments of an accumulator are those of the notifications it
    has logged. *)
Definition fragments_match_events (acc : accumulator) : Prop :=
  assistant_text_parts acc = omap text_fragment (events acc) /\
  Forall (fun n => recorded n = true) (events acc).

(** The body has passed the two checks of [create_run]. *)
Definition accepted (payload : RunRequest) : bool :=
  String.eqb (Text.lower (agent_name payload)) "codex"
  && String.eqb (Text.lower (mode payload)) "sync".

(** The detail of the answer to a credential the agent cannot use. *)
Definition auth_unsupported_detail : json :=
  JObj [("code", JInt (-32000));
        ("message", JStr "Codex agent does not support OPENAI_API_KEY authentication")].

(** An agent that advertises no authentication method. *)
Definition no_auth_script : script :=
  Script true
    (Exchange Written [response_line (JStr "1") (JObj [("authMethods", JArr [])])])
    (Exchange Written []) (Exchange Written []) Written [] [].

(** What can happen to a transport, and a run of such events. *)
Inductive transport_op : Type :=
  | OpRequest (method : string) (params : json) (w : write_outcome)
  | OpLine (line : stdout_line)
  | OpStop (obeys : bool)
  | OpStart (obeys : bool) (token : option string).

Definition transport_step (st : codex_process) (op : transport_op) : codex_process :=
  match op with
  | OpRequest method params w => snd (request st method params w)
  | OpLine line => _read_stdout st line
  | OpStop obeys => snd (stop obeys st)
  | OpStart obeys token => snd (ensure_started obeys st token)
  end.

Definition transport_run (st : codex_process) (ops : list transport_op) : codex_process :=
  fold_left transport_step ops st.

(** * Properties *)

(** ** The accumulator *)

Lemma or_empty_dict v :
  Py.or v (JObj []) =
  match v with
  | JObj u => JObj u
  | _ => if Py.truthy v then v else JObj []
  end.
Proof. destruct v as [| | | | | |[|kv u]]; reflexivity. Qed.

Ltac reduce_ingest :=
  cbv iota beta;
  cbn [Py.get Py.get_default Py.lookup Py.eq_str assistant_text_parts events
       option_list andb negb];
  rewrite ?app_nil_r.

Ltac split_ifs :=
  repeat (reduce_ingest;
          match goal with |- context [if ?b then _ else _] => destruct b end);
  reduce_ingest.

Lemma ingest_parts acc n :
  assistant_text_parts (ingest acc n) =
  assistant_text_parts acc ++ option_list (text_fragment n).
Proof.
  destruct n as [| | | | | |n]; try (cbn; by rewrite app_nil_r).
  unfold ingest, text_fragment. rewrite or_empty_dict.
  destruct (Py.get n "update") as [| | | | | |u]; try (split_ifs; reflexivity).
  reduce_ingest. rewrite or_empty_dict.
  destruct (Py.get u "sessionUpdate") as [| | | |kind| |]; reduce_ingest;
    try (destruct (Py.get u "content"); reduce_ingest; reflexivity).
  destruct (Py.get u "content") as [| | | | | |c]; try (split_ifs; reflexivity).
  destruct (Py.get c "type") as [| | | |type| |]; try (split_ifs; reflexivity).
  destruct (Py.get c "text") as [| | | |text| |]; try (split_ifs; reflexivity).
  unfold Py.truthy. split_ifs; reflexivity.
Qed.

Lemma ingest_events acc n :
  events (ingest acc n) = events acc ++ (if recorded n then [n] else []).
Proof.
  destruct n as [| | | | | |n]; try (cbn; by rewrite app_nil_r).
  unfold ingest, recorded. rewrite or_empty_dict.
  destruct (Py.get n "update") as [| | | | | |u];
    try (cbn [Py.is_dict orb]; destruct (Py.truthy _); reduce_ingest; reflexivity).
  reflexivity.
Qed.

Lemma ingest_all_parts ns : forall acc,
  assistant_text_parts (ingest_all acc ns) =
  assistant_text_parts acc ++ omap text_fragment ns.
Proof.
  unfold ingest_all.
  induction ns as [|n ns IH]; intros acc; cbn [fold_left omap list_omap].
  - by rewrite app_nil_r.
  - rewrite IH, ingest_parts, <- app_assoc.
    by destruct (text_fragment n).
Qed.

Lemma ingest_all_events ns : forall acc,
  events (ingest_all acc ns) = events acc ++ filter (fun n => recorded n = true) ns.
Proof.
  unfold ingest_all.
  induction ns as [|n ns IH]; intros acc; cbn [fold_left].
  - by rewrite app_nil_r.
  - rewrite IH, ingest_events, <- app_assoc, filter_cons.
    destruct (recorded n); [rewrite decide_True by done|rewrite decide_False by done];
      reflexivity.
Qed.


(** C3, as the code has it.  [ingest] appends the raw notification to
    the event log exactly when the notification is a dict whose
    [update] member is a dict, or is missing or falsy; any other value
    leaves the accumulator as it was.  After a sequence of calls the
    log holds the recorded notifications, in ingestion order. *)
Theorem ingest_records_well_formed_notifications :
  forall (acc : accumulator) (ns : list json),
    events (ingest_all acc ns) = events acc ++ filter (fun n => recorded n = true) ns /\
    forall n : json,
      ingest acc n = (if recorded n then ingest acc n else acc) /\
      events (ingest acc n) = events acc ++ (if recorded n then [n] else []).
Proof.
  intros acc ns. split; [apply ingest_all_events|].
  intros n. split; [|apply ingest_events].
  destruct n as [| | | | | |n]; try reflexivity.
  unfold ingest, recorded. rewrite or_empty_dict.
  destruct (Py.get n "update") as [| | | | | |u];
    try (cbn [Py.is_dict orb]; destruct (Py.truthy _); reflexivity).
  reflexivity.
Qed.

(** C3 as stated fails: a notification whose [update] is a string is
    dropped without being logged. *)
Lemma ingest_drops_notification_with_string_update :
  events (ingest new_accumulator (JObj [("sessionId", JStr "a1"); ("update", JStr "done")]))
  <> events new_accumulator ++ [JObj [("sessionId", JStr "a1"); ("update", JStr "done")]].
Proof. cbn. discriminate. Qed.

(** ** The transport *)

Ltac st_simpl :=
  cbn [proc stdout_task stderr_task pending futures notification_handler
       handler_calls id_counter current_token spawned stdin_lines log
       set_proc set_stdout_task set_stderr_task set_pending set_futures
       set_handler_calls set_id_counter set_current_token set_spawned
       set_stdin_lines add_log reader_dies] in *.

(** A line that [json.loads] rejects is logged as an error and
    skipped: the pending table, every future and the reader task are
    as they were. *)
Theorem malformed_line_is_skipped :
  forall (st : codex_process) (raw : string),
    pending (_read_stdout st (Malformed raw)) = pending st /\
    futures (_read_stdout st (Malformed raw)) = futures st /\
    stdout_task (_read_stdout st (Malformed raw)) = stdout_task st /\
    log (_read_stdout st (Malformed raw)) =
      (if reader_alive st
       then log st ++ [(ERROR, JObj [("message", JStr "Failed to decode Codex output");
                                     ("raw", JStr raw)])]
       else log st).
Proof.
  intros st raw. unfold _read_stdout, reader_alive.
  destruct (stdout_task st) as [[]|] eqn:E; repeat split; st_simpl; congruence.
Qed.

Lemma on_response_known st message fut :
  error_member_ok message = true ->
  pending st !! Py.str (Py.get message "id") = Some fut ->
  on_response st message =
  set_futures (resolve fut (response_outcome message) (futures st))
    (set_pending (delete (Py.str (Py.get message "id")) (pending st)) st).
Proof.
  intros Hok Hp. unfold on_response. rewrite Hp.
  unfold error_member_ok, response_outcome, Py.has_key, Py.get, Py.get_default in *.
  destruct (Py.lookup "error" message) as [[| | | | | |e]|]; try discriminate;
    cbn [Py.is_none andb negb]; st_simpl; reflexivity.
Qed.

Lemma on_response_unknown st message :
  pending st !! Py.str (Py.get message "id") = None ->
  on_response st message =
  add_log WARNING (JObj [("message", JStr "No pending request for response");
                         ("id", JStr (Py.str (Py.get message "id")))]) st.
Proof. intros Hp. unfold on_response. by rewrite Hp. Qed.

Lemma read_response st raw message idv :
  stdout_task st = Some TaskRunning ->
  Py.lookup "id" message = Some idv ->
  _read_stdout st (Parsed raw (JObj message)) = on_response st message /\
  Py.get message "id" = idv.
Proof.
  intros Ha Hid. unfold _read_stdout, on_message. rewrite Ha.
  cbn [Py.contains]. unfold Py.has_key, Py.get, Py.get_default. by rewrite Hid.
Qed.

Lemma resolve_lookup_ne f f' o (futs : list future) :
  f <> f' -> resolve f' o futs !! f = futs !! f.
Proof.
  intros Hne. unfold resolve.
  destruct (futs !! f') as [[]|]; try reflexivity.
  by apply list_lookup_insert_ne.
Qed.

Lemma resolve_lookup_pending f o (futs : list future) :
  futs !! f = Some FPending -> resolve f o futs !! f = Some o.
Proof.
  intros H. unfold resolve. rewrite H.
  apply list_lookup_insert_eq. by eapply lookup_lt_Some.
Qed.

Lemma resolve_lookup_done f f' o x (futs : list future) :
  futs !! f = Some x -> done x = true -> resolve f' o futs !! f = Some x.
Proof.
  intros H Hd. destruct (decide (f = f')) as [<-|Hne].
  - unfold resolve. rewrite H. by destruct x.
  - by rewrite resolve_lookup_ne.
Qed.

Lemma resolve_length f o (futs : list future) :
  length (resolve f o futs) = length futs.
Proof.
  unfold resolve. destruct (futs !! f) as [[]|]; try reflexivity.
  apply length_insert.
Qed.

Lemma other_traffic_step rid st line :
  stdout_task st = Some TaskRunning ->
  other_traffic rid line ->
  preserves_request rid st (_read_stdout st line).
Proof.
  intros Ha Ht. unfold preserves_request, _read_stdout. rewrite Ha.
  destruct line as [| | |raw|raw [| | | | | |message]]; try contradiction;
    st_simpl; try by auto.
  destruct Ht as [Hok Hid]. unfold on_message. cbn [Py.contains].
  unfold Py.has_key.
  destruct (Py.lookup "id" message) as [idv|] eqn:Hl.
  - assert (Py.get message "id" = idv) as Hg
      by (unfold Py.get, Py.get_default; by rewrite Hl).
    destruct (pending st !! Py.str idv) as [fut|] eqn:Hp.
    + rewrite (on_response_known st message fut) by (rewrite ?Hg; done).
      rewrite Hg. st_simpl. repeat split; auto.
      * by apply lookup_delete_ne.
      * intros r f Hr. apply lookup_delete_Some in Hr. tauto.
      * intros f Hsole. apply resolve_lookup_ne.
        intros ->. apply Hid. by apply Hsole.
    + rewrite on_response_unknown by (rewrite ?Hg; done).
      st_simpl. auto.
  - destruct (match Py.lookup "method" message with Some _ => true | None => false end);
      [|by auto].
    unfold on_notification. destruct (notification_handler st); st_simpl; auto.
Qed.

Lemma preserves_request_trans rid st1 st2 st3 :
  preserves_request rid st1 st2 -> preserves_request rid st2 st3 ->
  preserves_request rid st1 st3.
Proof.
  intros (_ & Hp1 & Hm1 & Hf1) (Ha2 & Hp2 & Hm2 & Hf2).
  repeat split; auto.
  - congruence.
  - intros f Hsole. rewrite Hf2, Hf1; auto.
Qed.

Lemma other_traffic_run rid lines : forall st,
  stdout_task st = Some TaskRunning ->
  Forall (other_traffic rid) lines ->
  preserves_request rid st (read_lines st lines).
Proof.
  unfold read_lines.
  induction lines as [|line lines IH]; intros st Ha Hall; cbn [fold_left].
  - repeat split; auto.
  - inversion Hall as [|? ? Hline Hrest]; subst.
    pose proof (other_traffic_step rid st line Ha Hline) as Hstep.
    eapply preserves_request_trans; [exact Hstep|].
    apply IH; [apply Hstep|exact Hrest].
Qed.

(** On traffic of JSON-RPC shape, where an [error] member is missing,
    null or an object, a response is matched to its request by
    identifier, whatever arrived before it.  After any earlier traffic meant for other
    requests, a parsed line with an [id] whose request is in the pending
    table removes that entry and resolves its future, and no other: with
    a [CodexError] built from a non-null error object, with the [result]
    member otherwise.  The caller awaiting that future receives exactly
    this outcome.  When no request has that identifier, a warning is
    logged and the table and every future stay as they were. *)
Theorem response_resolves_matching_request :
  forall (st : codex_process) (earlier : list stdout_line) (raw : string)
         (message : list (string * json)) (idv : json),
    stdout_task st = Some TaskRunning ->
    Py.lookup "id" message = Some idv ->
    error_member_ok message = true ->
    Forall (other_traffic (Py.str idv)) earlier ->
    let before := read_lines st earlier in
    let after := _read_stdout before (Parsed raw (JObj message)) in
    match pending st !! Py.str idv with
    | Some fut =>
        pending after = delete (Py.str idv) (pending before) /\
        futures after = resolve fut (response_outcome message) (futures before) /\
        log after = log before /\
        (futures st !! fut = Some FPending ->
         (forall r, pending st !! r = Some fut -> r = Py.str idv) ->
         await after fut = delivered (response_outcome message))
    | None =>
        pending after = pending before /\
        futures after = futures before /\
        log after =
          log before ++ [(WARNING, JObj [("message", JStr "No pending request for response");
                                         ("id", JStr (Py.str idv))])]
    end.
Proof.
  intros st earlier raw message idv Ha Hid Hok Hearlier before after.
  destruct (other_traffic_run (Py.str idv) earlier st Ha Hearlier)
    as (Ha' & Hp & _ & Hf).
  fold before in Ha', Hp, Hf.
  destruct (read_response before raw message idv Ha' Hid) as [Hstep Hg].
  fold after in Hstep.
  destruct (pending st !! Py.str idv) as [fut|] eqn:Hst.
  - rewrite Hstep, (on_response_known before message fut) by (rewrite ?Hg, ?Hp; done).
    rewrite Hg. st_simpl. repeat split; try reflexivity.
    intros Hpend Hsole. unfold await. st_simpl.
    rewrite resolve_lookup_pending by (rewrite Hf; auto).
    unfold response_outcome. by destruct (Py.lookup "error" message) as [[]|].
  - rewrite Hstep, on_response_unknown by (rewrite ?Hg, ?Hp; done).
    rewrite Hg. st_simpl. auto.
Qed.

Lemma resolve_absent f o (futs : list future) :
  futs !! f = None -> resolve f o futs = futs.
Proof. intros H. unfold resolve. by rewrite H. Qed.

Lemma foldr_resolve_lookup o (hs : list nat) (futs : list future) (f : nat) :
  foldr (fun h acc => resolve h o acc) futs hs !! f =
  match futs !! f with
  | Some FPending => if bool_decide (f ∈ hs) then Some o else Some FPending
  | other => other
  end.
Proof.
  induction hs as [|h hs IH]; cbn [foldr].
  - rewrite bool_decide_eq_false_2 by apply not_elem_of_nil.
    by destruct (futs !! f) as [[]|].
  - destruct (decide (f = h)) as [->|Hne].
    + rewrite (bool_decide_eq_true_2 (h ∈ h :: hs)) by apply list_elem_of_here.
      destruct (futs !! h) as [x|] eqn:Hx.
      * destruct (bool_decide (h ∈ hs)) eqn:Hin.
        -- destruct x; try (erewrite resolve_lookup_done; [reflexivity|exact IH|done]).
           destruct o; try (erewrite resolve_lookup_done; [reflexivity|exact IH|done]).
           by rewrite resolve_lookup_pending.
        -- destruct x; try (erewrite resolve_lookup_done; [reflexivity|exact IH|done]).
           by rewrite resolve_lookup_pending.
      * by rewrite resolve_absent.
    + rewrite resolve_lookup_ne by done. rewrite IH.
      destruct (futs !! f) as [[]|]; try reflexivity.
      destruct (bool_decide (f ∈ hs)) eqn:Hin.
      * apply bool_decide_eq_true_1 in Hin.
        by rewrite bool_decide_eq_true_2 by (by apply list_elem_of_further).
      * apply bool_decide_eq_false_1 in Hin.
        rewrite bool_decide_eq_false_2; [done|].
        intros Hc. apply elem_of_cons in Hc. tauto.
Qed.

Lemma fail_pending_clears reason st : pending (fail_pending reason st) = ∅.
Proof. reflexivity. Qed.

Lemma fail_pending_fails reason st rid fut :
  pending st !! rid = Some fut ->
  futures st !! fut = Some FPending ->
  await (fail_pending reason st) fut = Some (inl (CodexProcessClosed reason)).
Proof.
  intros Hp Hf. unfold await, fail_pending. st_simpl.
  rewrite foldr_resolve_lookup, Hf.
  rewrite bool_decide_eq_true_2; [done|].
  apply list_elem_of_fmap. exists (rid, fut). split; [done|].
  by apply elem_of_map_to_list.
Qed.

Lemma fail_pending_keeps_done reason st fut x :
  futures st !! fut = Some x -> done x = true ->
  futures (fail_pending reason st) !! fut = Some x.
Proof.
  intros Hf Hd. unfold fail_pending. st_simpl.
  rewrite foldr_resolve_lookup, Hf. by destruct x.
Qed.

Lemma await_task_cancel (t : option task) :
  await_task (cancel <$> t) = await_task t.
Proof. by destruct t as [[]|]. Qed.

Lemma shutdown_completes obeys st :
  readers_sound st ->
  _shutdown_locked obeys st =
  (None, fail_pending "codex-acp process stopped" (stopped_fields st)).
Proof.
  intros [Hout Herr]. unfold _shutdown_locked. st_simpl.
  rewrite !await_task_cancel, Hout, Herr. reflexivity.
Qed.

Lemma shutdown_result obeys st st' :
  _shutdown_locked obeys st = (None, st') ->
  st' = fail_pending "codex-acp process stopped" (stopped_fields st).
Proof.
  unfold _shutdown_locked. st_simpl. rewrite !await_task_cancel.
  destruct (await_task (stdout_task st)); [discriminate|].
  destruct (await_task (stderr_task st)); [discriminate|].
  intros [= <-]. reflexivity.
Qed.

(** A reader task that died keeps its exception: [_shutdown_locked]
    raises it again and returns before the pending requests are failed. *)
Lemma shutdown_reraises obeys st e :
  stdout_task st = Some (TaskFailed e) ->
  fst (_shutdown_locked obeys st) = Some e /\
  pending (snd (_shutdown_locked obeys st)) = pending st /\
  futures (snd (_shutdown_locked obeys st)) = futures st.
Proof.
  intros H. unfold _shutdown_locked. st_simpl. rewrite H. cbn. auto.
Qed.

(** While the reader is alive, at the end of the child's output, and
    whenever [stop] completes, the pending table is left empty and every request that
    was outstanding has its future failed with [CodexProcessClosed].
    [stop] completes whenever neither reader task has died from an
    exception of its own. *)
Theorem closing_fails_every_pending_request :
  forall (obeys : bool) (st : codex_process),
    (stdout_task st = Some TaskRunning ->
     pending (_read_stdout st Eof) = ∅ /\
     forall rid fut,
       pending st !! rid = Some fut -> futures st !! fut = Some FPending ->
       await (_read_stdout st Eof) fut
         = Some (inl (CodexProcessClosed "codex-acp stdout closed"))) /\
    (forall st', stop obeys st = (None, st') ->
     pending st' = ∅ /\ proc st' = None /\
     forall rid fut,
       pending st !! rid = Some fut -> futures st !! fut = Some FPending ->
       await st' fut = Some (inl (CodexProcessClosed "codex-acp process stopped"))) /\
    (readers_sound st -> exists st', stop obeys st = (None, st')).
Proof.
  intros obeys st. split; [|split].
  - intros Ha. unfold _read_stdout. rewrite Ha. st_simpl.
    split; [reflexivity|]. intros rid fut Hp Hf.
    unfold await. st_simpl. by apply (fail_pending_fails _ st rid fut).
  - intros st' Hstop. apply shutdown_result in Hstop. subst st'.
    split; [reflexivity|]. split; [reflexivity|].
    intros rid fut Hp Hf. by apply (fail_pending_fails _ _ rid fut).
  - intros Hs. eexists. by apply shutdown_completes.
Qed.

Lemma running_with_spec st token :
  running_with st token = true <->
  exists p, proc st = Some p /\ returncode p = None /\ current_token st = token.
Proof.
  unfold running_with. destruct (proc st) as [p|].
  - rewrite andb_true_iff, !bool_decide_eq_true. split.
    + intros [H1 H2]. eauto.
    + intros (p' & [= <-] & H1 & H2). auto.
  - split; [discriminate|]. intros (p & [=] & _).
Qed.

(** [ensure_started] answers "not restarted" and changes nothing
    exactly when a child is running that was started with the same
    token.  In every other case, provided no reader task has died from
    an exception, the old process is shut down (pending requests
    failed, table cleared), a new child is spawned with the token, and
    the answer is "restarted". *)
Theorem ensure_started_restarts_unless_running_with_token :
  forall (obeys : bool) (st : codex_process) (token : option string),
    (running_with st token = true <->
     exists p, proc st = Some p /\ returncode p = None /\ current_token st = token) /\
    (running_with st token = true -> ensure_started obeys st token = (inr false, st)) /\
    (forall r st', ensure_started obeys st token = (inr r, st') ->
                   r = negb (running_with st token)) /\
    (running_with st token = false -> readers_sound st ->
     exists st',
       ensure_started obeys st token = (inr true, st') /\
       st' = spawn token (snd (stop obeys st)) /\
       proc st' = Some (Subprocess (spawned st) None true
                                   (if token_given token then token else None)) /\
       current_token st' = token /\
       stdout_task st' = Some TaskRunning /\
       stderr_task st' = Some TaskRunning /\
       pending st' = ∅ /\
       forall rid fut,
         pending st !! rid = Some fut -> futures st !! fut = Some FPending ->
         await st' fut = Some (inl (CodexProcessClosed "codex-acp process stopped"))).
Proof.
  intros obeys st token. split; [apply running_with_spec|]. split; [|split].
  - intros H. unfold ensure_started. by rewrite H.
  - intros r st'. unfold ensure_started.
    destruct (running_with st token).
    + by intros [= <- _].
    + destruct (_shutdown_locked obeys st) as [[e|] st0]; [discriminate|].
      by intros [= <- _].
  - intros Hrun Hs. unfold ensure_started, stop. rewrite Hrun.
    rewrite (shutdown_completes obeys st Hs). eexists. split; [reflexivity|].
    cbn [snd]. repeat split.
    intros rid fut Hp Hf. unfold await, spawn. st_simpl.
    by apply (fail_pending_fails _ (stopped_fields st) rid fut).
Qed.

(** With no process handle, [request] raises [CodexProcessClosed]
    at once and the transport is exactly as before: no identifier is
    used and nothing is registered.  When the write meets a broken
    pipe, the future registered for this request is failed with
    [CodexProcessClosed] and the same exception is raised. *)
Theorem request_fails_without_process_or_pipe :
  forall (st : codex_process) (method : string) (params : json),
    (forall w, proc st = None ->
       request st method params w
         = (inl (CodexProcessClosed "codex-acp process is not running"), st)) /\
    (forall p text, proc st = Some p -> stdin_piped p = true ->
       exists st',
         request st method params (BrokenPipe text) = (inl (CodexProcessClosed text), st') /\
         futures st !! length (futures st) = None /\
         pending st' = <[pretty (S (id_counter st)) := length (futures st)]> (pending st) /\
         await st' (length (futures st)) = Some (inl (CodexProcessClosed text))).
Proof.
  intros st method params. split.
  - intros w H. unfold request. by rewrite H.
  - intros p text Hp Hpipe. unfold request. rewrite Hp, Hpipe. cbn [negb].
    st_simpl. eexists. split; [reflexivity|]. st_simpl.
    split; [by apply lookup_ge_None_2|]. split; [reflexivity|].
    unfold await. st_simpl.
    rewrite resolve_lookup_pending; [reflexivity|].
    rewrite lookup_app_r by done. by rewrite Nat.sub_diag.
Qed.
Lemma two_in_flight_pending :
  pending two_in_flight = <["2" := 1]> (<["1" := 0]> ∅).
Proof. vm_compute. reflexivity. Qed.

Lemma response_resolves_matching_request_witness :
  let message := [("jsonrpc", JStr "2.0"); ("id", JStr "1");
                  ("error", JObj [("code", JInt 7); ("message", JStr "x")])] in
  let before := read_lines two_in_flight [response_line (JInt 2) (JStr "b")] in
  let after := _read_stdout before (Parsed "" (JObj message)) in
  pending after = delete (Py.str (JStr "1")) (pending before) /\
  await after 0 = delivered (response_outcome message).
Proof.
  intros message before after.
  assert (stdout_task two_in_flight = Some TaskRunning) as Ha
    by (vm_compute; reflexivity).
  assert (Py.lookup "id" message = Some (JStr "1")) as Hid
    by (vm_compute; reflexivity).
  assert (error_member_ok message = true) as Hok
    by (vm_compute; reflexivity).
  assert (Forall (other_traffic (Py.str (JStr "1"))) [response_line (JInt 2) (JStr "b")]) as Ht.
  { constructor; [|constructor]. split; [vm_compute; reflexivity|].
    vm_compute. discriminate. }
  pose proof (response_resolves_matching_request two_in_flight
                [response_line (JInt 2) (JStr "b")] "" message (JStr "1")
                Ha Hid Hok Ht) as H.
  assert (pending two_in_flight !! Py.str (JStr "1") = Some 0) as E
    by (vm_compute; reflexivity).
  rewrite E in H.
  destruct H as (Hp & _ & _ & Hw).
  split; [exact Hp|].
  apply Hw; [vm_compute; reflexivity|].
  intros r. rewrite two_in_flight_pending.
  intros Hr. apply lookup_insert_Some in Hr.
  destruct Hr as [[_ Hr]|[_ Hr]]; [discriminate|].
  apply lookup_insert_Some in Hr.
  destruct Hr as [[Hr _]|[_ Hr]]; [by symmetry|by rewrite lookup_empty in Hr].
Defined.

Lemma closing_fails_every_pending_request_witness :
  (pending (_read_stdout two_in_flight Eof) = ∅ /\
   await (_read_stdout two_in_flight Eof) 1
     = Some (inl (CodexProcessClosed "codex-acp stdout closed"))) /\
  exists st', stop false two_in_flight = (None, st') /\
              pending st' = ∅ /\
              await st' 0 = Some (inl (CodexProcessClosed "codex-acp process stopped")).
Proof.
  destruct (closing_fails_every_pending_request false two_in_flight)
    as (Heof & Hstop & Htotal).
  assert (stdout_task two_in_flight = Some TaskRunning) as Ha
    by (vm_compute; reflexivity).
  assert (pending two_in_flight !! "1" = Some 0) as H1 by (vm_compute; reflexivity).
  assert (pending two_in_flight !! "2" = Some 1) as H2 by (vm_compute; reflexivity).
  assert (futures two_in_flight !! 0 = Some FPending) as F0 by (vm_compute; reflexivity).
  assert (futures two_in_flight !! 1 = Some FPending) as F1 by (vm_compute; reflexivity).
  split.
  - destruct (Heof Ha) as [Hclear Hfail].
    split; [exact Hclear|]. exact (Hfail "2" 1 H2 F1).
  - assert (readers_sound two_in_flight) as Hs
      by (split; vm_compute; reflexivity).
    destruct (Htotal Hs) as [st' Hst'].
    exists st'. split; [exact Hst'|].
    destruct (Hstop st' Hst') as (Hp & _ & Hf).
    split; [exact Hp|]. exact (Hf "1" 0 H1 F0).
Defined.

Lemma ensure_started_restarts_unless_running_with_token_witness :
  ensure_started true two_in_flight None = (inr false, two_in_flight) /\
  exists st', ensure_started true two_in_flight (Some "sk-1") = (inr true, st') /\
              current_token st' = Some "sk-1" /\ pending st' = ∅.
Proof.
  assert (running_with two_in_flight None = true) as Hsame by (vm_compute; reflexivity).
  assert (running_with two_in_flight (Some "sk-1") = false) as Hother
    by (vm_compute; reflexivity).
  assert (readers_sound two_in_flight) as Hs by (split; vm_compute; reflexivity).
  split.
  - destruct (ensure_started_restarts_unless_running_with_token true two_in_flight None)
      as (_ & H & _ & _).
    exact (H Hsame).
  - destruct (ensure_started_restarts_unless_running_with_token true two_in_flight
                (Some "sk-1")) as (_ & _ & _ & H).
    destruct (H Hother Hs) as (st' & Hrun & _ & _ & Htok & _ & _ & Hp & _).
    exists st'. split; [exact Hrun|]. split; [exact Htok|exact Hp].
Defined.

Lemma request_fails_without_process_or_pipe_witness :
  request new_process "initialize" JNull Written
    = (inl (CodexProcessClosed "codex-acp process is not running"), new_process) /\
  exists st', request two_in_flight "authenticate" JNull (BrokenPipe "Broken pipe")
                = (inl (CodexProcessClosed "Broken pipe"), st') /\
              await st' (length (futures two_in_flight))
                = Some (inl (CodexProcessClosed "Broken pipe")).
Proof.
  split.
  - destruct (request_fails_without_process_or_pipe new_process "initialize" JNull)
      as [H _].
    exact (H Written eq_refl).
  - destruct (request_fails_without_process_or_pipe two_in_flight "authenticate" JNull)
      as [_ H].
    assert (proc two_in_flight = Some (Subprocess 0 None true None)) as Hp
      by (vm_compute; reflexivity).
    destruct (H (Subprocess 0 None true None) "Broken pipe" Hp eq_refl)
      as (st' & Hreq & _ & _ & Haw).
    exists st'. split; [exact Hreq|exact Haw].
Defined.

(** A response whose [error] member is neither null nor an object is
    outside JSON-RPC: its request is taken out of the table, then
    [error_obj.get] raises and the reader task dies with the future
    still unset. *)
Example response_with_string_error_ends_reader :
  let st := _read_stdout two_in_flight
              (Parsed "" (JObj [("id", JStr "1"); ("error", JStr "boom")])) in
  stdout_task st = Some (TaskFailed AttributeError) /\
  pending st !! "1" = None /\
  futures st !! 0 = Some FPending.
Proof. vm_compute. repeat split. Qed.

(** ** Where the transport departs from the specification *)

Lemma read_lines_dead (lines : list stdout_line) : forall st,
  reader_alive st = false -> read_lines st lines = st.
Proof.
  unfold read_lines, reader_alive.
  induction lines as [|line lines IH]; intros st Hdead; cbn [fold_left]; [done|].
  assert (_read_stdout st line = st) as ->; [|by apply IH].
  unfold _read_stdout. by destruct (stdout_task st) as [[]|].
Qed.

(** C1.  Where the code departs from the claim: a response whose
    [error] member is neither null nor an object, while its request is
    still waiting.  The entry is taken out of the pending table, then
    [error_obj.get] raises inside the reader task: the future is left
    unset, so the caller is never answered; the task ends with
    [AttributeError]; and no line that follows is handled, so the
    responses to the other requests never reach their callers
    either. *)
Theorem response_with_malformed_error_is_never_delivered :
  forall (st : codex_process) (raw : string) (message : list (string * json))
         (idv err : json) (fut : nat) (later : list stdout_line),
    stdout_task st = Some TaskRunning ->
    Py.lookup "id" message = Some idv ->
    Py.lookup "error" message = Some err ->
    Py.is_none err = false ->
    Py.is_dict err = false ->
    pending st !! Py.str idv = Some fut ->
    futures st !! fut = Some FPending ->
    let after := _read_stdout st (Parsed raw (JObj message)) in
    pending after = delete (Py.str idv) (pending st) /\
    futures after = futures st /\
    await after fut = None /\
    stdout_task after = Some (TaskFailed AttributeError) /\
    read_lines after later = after.
Proof.
  intros st raw message idv err fut later Ha Hid Herr Hnone Hdict Hp Hf after.
  destruct (read_response st raw message idv Ha Hid) as [Hstep Hg].
  assert (after = reader_dies AttributeError
                    (set_pending (delete (Py.str idv) (pending st)) st)) as Hafter.
  { unfold after. rewrite Hstep. unfold on_response. rewrite Hg, Hp.
    unfold Py.has_key, Py.get, Py.get_default. rewrite Herr, Hnone.
    cbn [andb negb]. unfold is_done. st_simpl. rewrite Hf. cbn [done].
    by destruct err. }
  rewrite Hafter. st_simpl. repeat split.
  - unfold await. st_simpl. by rewrite Hf.
  - by apply read_lines_dead.
Qed.

Lemma response_with_malformed_error_is_never_delivered_witness :
  await (_read_stdout two_in_flight
           (Parsed "" (JObj [("jsonrpc", JStr "2.0"); ("id", JStr "1");
                             ("error", JStr "boom")]))) 0 = None /\
  read_lines (_read_stdout two_in_flight
                (Parsed "" (JObj [("jsonrpc", JStr "2.0"); ("id", JStr "1");
                                  ("error", JStr "boom")])))
             [response_line (JStr "2") (JStr "ok"); Eof]
  = _read_stdout two_in_flight
      (Parsed "" (JObj [("jsonrpc", JStr "2.0"); ("id", JStr "1"); ("error", JStr "boom")])).
Proof.
  assert (stdout_task two_in_flight = Some TaskRunning) as Ha by (vm_compute; reflexivity).
  assert (pending two_in_flight !! Py.str (JStr "1") = Some 0) as Hp
    by (vm_compute; reflexivity).
  assert (futures two_in_flight !! 0 = Some FPending) as Hf by (vm_compute; reflexivity).
  destruct (response_with_malformed_error_is_never_delivered
              two_in_flight ""
              [("jsonrpc", JStr "2.0"); ("id", JStr "1"); ("error", JStr "boom")]
              (JStr "1") (JStr "boom") 0
              [response_line (JStr "2") (JStr "ok"); Eof]
              Ha eq_refl eq_refl eq_refl eq_refl Hp Hf)
    as (_ & _ & Haw & _ & Hlater).
  split; [exact Haw|exact Hlater].
Defined.

(** The same line is harmless when the future is done already, as
    after a write that met a broken pipe: [error_obj.get] is not
    reached and the reader goes on. *)
Example malformed_error_for_done_future_is_skipped :
  let st := snd (request (snd (ensure_started true new_process None))
                         "initialize" JNull (BrokenPipe "Broken pipe")) in
  let after := _read_stdout st
                 (Parsed "" (JObj [("jsonrpc", JStr "2.0"); ("id", JStr "1");
                                   ("error", JStr "boom")])) in
  stdout_task after = Some TaskRunning /\
  pending after !! "1" = None /\
  await after 0 = Some (inl (CodexProcessClosed "Broken pipe")).
Proof. vm_compute. repeat split. Qed.

(** C9.  Where the code departs from the claim: a line that is not
    valid UTF-8.  [decode] is called outside the [try] that guards
    [json.loads], so the line is not logged and not skipped: the
    reader task ends with [UnicodeDecodeError] and no line that follows
    is handled.  The pending table and the futures are left as they
    were, then and ever after. *)
Theorem undecodable_line_ends_reader :
  forall (st : codex_process) (message : string) (later : list stdout_line),
    stdout_task st = Some TaskRunning ->
    let after := _read_stdout st (Undecodable message) in
    log after = log st /\
    stdout_task after = Some (TaskFailed (UnicodeDecodeError message)) /\
    pending after = pending st /\
    futures after = futures st /\
    read_lines after later = after.
Proof.
  intros st message later Ha after.
  assert (after = reader_dies (UnicodeDecodeError message) st) as ->
    by (unfold after, _read_stdout; by rewrite Ha).
  st_simpl. repeat split. by apply read_lines_dead.
Qed.

Lemma undecodable_line_ends_reader_witness :
  log (_read_stdout two_in_flight (Undecodable "invalid start byte")) = log two_in_flight /\
  read_lines (_read_stdout two_in_flight (Undecodable "invalid start byte"))
             [response_line (JStr "1") (JStr "ok")]
  = _read_stdout two_in_flight (Undecodable "invalid start byte").
Proof.
  assert (stdout_task two_in_flight = Some TaskRunning) as Ha by (vm_compute; reflexivity).
  destruct (undecodable_line_ends_reader two_in_flight "invalid start byte"
              [response_line (JStr "1") (JStr "ok")] Ha) as (Hlog & _ & _ & _ & Hlater).
  split; [exact Hlog|exact Hlater].
Defined.

(** C6.  Where the code departs from the claim: a reader task that has
    died from an exception, here on a line that is not valid UTF-8.
    The end of the child's output is then never handled, and [stop]
    raises the reader's exception before it reaches the loop that
    fails the pending requests: a request outstanding at that moment
    stays in the table with its future unset. *)
Theorem dead_reader_leaves_requests_pending :
  forall (st : codex_process) (message rid : string) (fut : nat) (obeys : bool),
    stdout_task st = Some TaskRunning ->
    pending st !! rid = Some fut ->
    futures st !! fut = Some FPending ->
    let at_end := read_lines st [Undecodable message; Eof] in
    pending at_end !! rid = Some fut /\
    await at_end fut = None /\
    fst (stop obeys at_end) = Some (UnicodeDecodeError message) /\
    pending (snd (stop obeys at_end)) !! rid = Some fut /\
    await (snd (stop obeys at_end)) fut = None.
Proof.
  intros st message rid fut obeys Ha Hp Hf at_end.
  assert (at_end = reader_dies (UnicodeDecodeError message) st) as ->.
  { unfold at_end, read_lines. cbn [fold_left]. unfold _read_stdout at 2.
    rewrite Ha. unfold _read_stdout. st_simpl. reflexivity. }
  destruct (shutdown_reraises obeys (reader_dies (UnicodeDecodeError message) st)
              (UnicodeDecodeError message) eq_refl) as (He & Hpend & Hfut).
  unfold stop. rewrite He, Hpend. unfold await. rewrite Hfut. st_simpl.
  rewrite Hp, Hf. auto.
Qed.

Lemma dead_reader_leaves_requests_pending_witness :
  fst (stop true (read_lines two_in_flight [Undecodable "invalid start byte"; Eof]))
  = Some (UnicodeDecodeError "invalid start byte") /\
  await (snd (stop true (read_lines two_in_flight [Undecodable "invalid start byte"; Eof]))) 0
  = None.
Proof.
  assert (stdout_task two_in_flight = Some TaskRunning) as Ha by (vm_compute; reflexivity).
  assert (pending two_in_flight !! "1" = Some 0) as Hp by (vm_compute; reflexivity).
  assert (futures two_in_flight !! 0 = Some FPending) as Hf by (vm_compute; reflexivity).
  destruct (dead_reader_leaves_requests_pending two_in_flight "invalid start byte" "1" 0
              true Ha Hp Hf) as (_ & _ & He & _ & Haw).
  split; [exact He|exact Haw].
Defined.

(** C5.  Where the code departs from the claim: a start with another
    credential after the stdout reader task has died from an
    exception.  [_shutdown_locked] terminates the old child and
    cancels the stderr reader, then awaiting the dead task raises its
    exception: [ensure_started] raises instead of answering
    "restarted", no child is spawned, the pending requests are not
    failed, and every later [ensure_started], whatever its credential,
    raises the same exception. *)
Theorem ensure_started_cannot_restart_after_reader_death :
  forall (st : codex_process) (e : exn) (p : subprocess)
         (token : option string) (obeys : bool),
    stdout_task st = Some (TaskFailed e) ->
    proc st = Some p ->
    returncode p = None ->
    token <> current_token st ->
    exists st',
      ensure_started obeys st token = (inl e, st') /\
      proc st' = Some (Subprocess (generation p) (Some (if obeys then -15 else -9)%Z)
                                  (stdin_piped p) (openai_api_key p)) /\
      spawned st' = spawned st /\
      current_token st' = current_token st /\
      (stderr_task st = Some TaskRunning -> stderr_task st' = Some TaskCancelled) /\
      pending st' = pending st /\
      futures st' = futures st /\
      forall obeys' token', fst (ensure_started obeys' st' token') = inl e.
Proof.
  intros st e p token obeys Hdead Hp Hrc Htoken.
  assert (running_with st token = false) as Hrun.
  { unfold running_with. rewrite Hp.
    rewrite (bool_decide_eq_false_2 (token = current_token st)) by done.
    apply andb_false_r. }
  assert (_shutdown_locked obeys st
          = (Some e, set_proc (terminate obeys <$> proc st)
                       (set_stderr_task (cancel <$> stderr_task st)
                          (set_stdout_task (cancel <$> stdout_task st) st)))) as Hshut.
  { unfold _shutdown_locked. st_simpl. rewrite Hdead. reflexivity. }
  unfold ensure_started at 1. rewrite Hrun, Hshut. eexists. split; [reflexivity|].
  st_simpl. rewrite Hp, Hdead. cbn [fmap option_fmap option_map cancel].
  unfold terminate. rewrite Hrc.
  split; [reflexivity|]. split; [reflexivity|]. split; [reflexivity|].
  split; [by intros ->|]. split; [reflexivity|]. split; [reflexivity|].
  intros obeys' token'. unfold ensure_started, running_with. st_simpl.
  cbn [returncode]. rewrite bool_decide_eq_false_2 by discriminate. cbn [andb].
  unfold _shutdown_locked. st_simpl. reflexivity.
Qed.

Lemma ensure_started_cannot_restart_after_reader_death_witness :
  exists st',
    ensure_started true (_read_stdout two_in_flight (Undecodable "invalid start byte"))
                   (Some "sk-2")
      = (inl (UnicodeDecodeError "invalid start byte"), st') /\
    proc st' = Some (Subprocess 0 (Some (-15)%Z) true None) /\
    fst (ensure_started true st' None) = inl (UnicodeDecodeError "invalid start byte").
Proof.
  assert (stdout_task (_read_stdout two_in_flight (Undecodable "invalid start byte"))
          = Some (TaskFailed (UnicodeDecodeError "invalid start byte"))) as Hdead
    by (vm_compute; reflexivity).
  assert (proc (_read_stdout two_in_flight (Undecodable "invalid start byte"))
          = Some (Subprocess 0 None true None)) as Hp
    by (vm_compute; reflexivity).
  assert (Some "sk-2"
          <> current_token (_read_stdout two_in_flight (Undecodable "invalid start byte")))
    as Htoken by (vm_compute; discriminate).
  destruct (ensure_started_cannot_restart_after_reader_death
              (_read_stdout two_in_flight (Undecodable "invalid start byte"))
              (UnicodeDecodeError "invalid start byte")
              (Subprocess 0 None true None) (Some "sk-2") true
              Hdead Hp eq_refl Htoken)
    as (st' & Hrun & Hproc & _ & _ & _ & _ & _ & Hlater).
  exists st'. split; [exact Hrun|]. split; [exact Hproc|exact (Hlater true None)].
Defined.

(** C8.  Where the code departs from the claim: a child that has
    exited while the transport still holds its handle.  The guard of
    [request] looks at the handle only, so the call does not fail at
    once: an identifier is used and an entry is registered whatever
    becomes of the write.  When the write returns, the caller is left
    waiting, for good once the reader has finished; when [drain]
    raises [ConnectionResetError], that exception leaves [request]
    uncaught with the future unset.  Only a [BrokenPipeError] gives
    [CodexProcessClosed], and then too the entry stays in the table. *)
Theorem request_to_exited_child_is_registered :
  forall (st : codex_process) (p : subprocess) (rc : Z)
         (method : string) (params : json) (w : write_outcome),
    proc st = Some p ->
    returncode p = Some rc ->
    stdin_piped p = true ->
    let rid := pretty (S (id_counter st)) in
    let fut := length (futures st) in
    let st' := snd (request st method params w) in
    id_counter st' = S (id_counter st) /\
    pending st' !! rid = Some fut /\
    match w with
    | Written =>
        fst (request st method params w) = inr (rid, fut) /\
        await st' fut = None /\
        (stdout_task st = Some TaskFinished ->
         forall later, await (read_lines st' later) fut = None)
    | BrokenPipe text =>
        fst (request st method params w) = inl (CodexProcessClosed text) /\
        await st' fut = Some (inl (CodexProcessClosed text))
    | ConnectionReset text =>
        fst (request st method params w) = inl (ConnectionResetError text) /\
        await st' fut = None
    end.
Proof.
  intros st p rc method params w Hp Hrc Hpipe rid fut st'.
  assert (forall x, (futures st ++ [x]) !! fut = Some x) as Hlast.
  { intros x. unfold fut. rewrite lookup_app_r by done. by rewrite Nat.sub_diag. }
  unfold st', request. rewrite Hp, Hpipe. cbn [negb].
  destruct w; cbn [fst snd]; st_simpl.
  - split; [reflexivity|]. split; [apply lookup_insert_eq|].
    split; [reflexivity|]. unfold await. st_simpl. rewrite Hlast.
    split; [reflexivity|]. intros Hfin later.
    rewrite read_lines_dead; [by st_simpl; rewrite Hlast|].
    unfold reader_alive. st_simpl. by rewrite Hfin.
  - split; [reflexivity|]. split; [apply lookup_insert_eq|].
    split; [reflexivity|]. unfold await. st_simpl.
    by rewrite resolve_lookup_pending.
  - split; [reflexivity|]. split; [apply lookup_insert_eq|].
    split; [reflexivity|]. unfold await. st_simpl. by rewrite Hlast.
Qed.

Lemma request_to_exited_child_is_registered_witness :
  fst (request after_child_exit "session/new" JNull Written)
  = inr (pretty (S (id_counter after_child_exit)), length (futures after_child_exit)) /\
  await (read_lines (snd (request after_child_exit "session/new" JNull Written)) [Eof])
        (length (futures after_child_exit))
  = None.
Proof.
  assert (proc after_child_exit = Some (Subprocess 0 (Some 0%Z) true None)) as Hp
    by (vm_compute; reflexivity).
  assert (stdout_task after_child_exit = Some TaskFinished) as Hfin
    by (vm_compute; reflexivity).
  destruct (request_to_exited_child_is_registered
              after_child_exit (Subprocess 0 (Some 0%Z) true None) 0%Z
              "session/new" JNull Written Hp eq_refl eq_refl)
    as (_ & _ & Hret & _ & Hlater).
  split; [exact Hret|exact (Hlater Hfin [Eof])].
Defined.


(** ** The orchestrator *)

Ltac mg_simpl :=
  cbn [process workspace initialized client_to_codex session_watchers auth_methods queues
       set_process set_initialized set_client_to_codex set_session_watchers
       set_auth_methods set_queues] in *.

Lemma same_registry_refl m : same_registry m m.
Proof. by split. Qed.

Lemma same_registry_trans m1 m2 m3 :
  same_registry m1 m2 -> same_registry m2 m3 -> same_registry m1 m3.
Proof. intros [H1 H2] [H3 H4]. split; congruence. Qed.

Lemma same_registry_sound m m' :
  same_registry m m' -> registry_sound m -> registry_sound m'.
Proof.
  intros [Hw Hq] Hs s ws. rewrite Hw, Hq. apply Hs.
Qed.

Lemma put_nowait_length q item (qs : list (list json)) :
  length (put_nowait q item qs) = length qs.
Proof.
  unfold put_nowait. destruct (qs !! q); [apply length_insert|reflexivity].
Qed.

Lemma fold_put_nowait_length item (ws : list nat) : forall qs : list (list json),
  length (fold_left (fun qs q => put_nowait q item qs) ws qs) = length qs.
Proof.
  induction ws as [|w ws IH]; intros qs; cbn [fold_left]; [reflexivity|].
  by rewrite IH, put_nowait_length.
Qed.

Lemma handle_notification_registry m method params :
  same_registry m (_handle_notification m method params).
Proof.
  unfold _handle_notification.
  destruct (negb (Py.eq_str method "session/update")); [apply same_registry_refl|].
  destruct params; try apply same_registry_refl.
  destruct (String.eqb _ ""); [apply same_registry_refl|].
  split; mg_simpl; [reflexivity|apply fold_put_nowait_length].
Qed.

Lemma fold_handlers_registry (calls : list (json * json)) : forall m,
  same_registry m
    (fold_left (fun m call => _handle_notification m (fst call) (snd call)) calls m).
Proof.
  induction calls as [|c calls IH]; intros m; cbn [fold_left].
  - apply same_registry_refl.
  - eapply same_registry_trans; [apply handle_notification_registry|apply IH].
Qed.

Lemma run_handlers_registry m : same_registry m (run_handlers m).
Proof.
  unfold run_handlers.
  eapply same_registry_trans; [|apply fold_handlers_registry].
  by split.
Qed.

Lemma pump_registry m lines : same_registry m (pump m lines).
Proof.
  unfold pump. eapply same_registry_trans; [|apply run_handlers_registry]. by split.
Qed.

Lemma keeps_bind {A B : Type} (c : manager -> outcome A * manager)
    (k : A -> manager -> outcome B * manager) :
  keeps_registry c -> (forall a, keeps_registry (k a)) -> keeps_registry (bind c k).
Proof.
  intros Hc Hk m. unfold bind. specialize (Hc m).
  destruct (c m) as [[a|e|] m1]; cbn [snd] in *; try exact Hc.
  eapply same_registry_trans; [exact Hc|apply Hk].
Qed.

Lemma keeps_call method params ex : keeps_registry (call method params ex).
Proof.
  intros m. unfold call.
  destruct (request (process m) method params (write ex)) as [[e|[rid fut]] p].
  - by split.
  - assert (same_registry m (pump (set_process p m) (lines ex))) as H.
    { eapply same_registry_trans; [|apply pump_registry]. by split. }
    destruct (await _ fut) as [[e|v]|]; exact H.
Qed.

Lemma keeps_start token obeys : keeps_registry (start token obeys).
Proof.
  intros m. unfold start.
  destruct (ensure_started obeys (process m) token) as [[e|r] p]; by split.
Qed.

Lemma keeps_ensure_initialized token ex1 ex2 :
  keeps_registry (_ensure_initialized token ex1 ex2).
Proof.
  intros m. unfold _ensure_initialized.
  destruct (initialized m); [apply same_registry_refl|].
  refine (keeps_bind _ _ _ _ m); [apply keeps_call|].
  clear m. intros init_result m.
  destruct (auth_method_ids init_result) as [e|ids]; [apply same_registry_refl|].
  destruct (token_given token); [|by split].
  destruct (negb _); [by split|].
  eapply same_registry_trans; [|apply keeps_bind; [apply keeps_call|]].
  - by split.
  - intros _ m0. by split.
Qed.

Lemma keeps_ensure_session client ex : keeps_registry (_ensure_session client ex).
Proof.
  intros m. unfold _ensure_session.
  destruct (client_to_codex m !! client); [apply same_registry_refl|].
  refine (keeps_bind _ _ _ _ m); [apply keeps_call|].
  intros response m0. destruct response; try apply same_registry_refl.
  destruct (negb _); by split.
Qed.

Lemma run_prompt_session_sound token cid sc m :
  registry_sound m ->
  registry_sound (snd (run_prompt_session token cid sc m)).
Proof.
  intros Hs. unfold run_prompt_session, bind at 1.
  pose proof (keeps_start token (obeys_terminate sc) m) as Hstart.
  destruct (start token (obeys_terminate sc) m) as [[restarted|e|] m0];
    cbn [snd] in *;
    [|eapply same_registry_sound; [exact Hstart|exact Hs]..].
  assert (registry_sound (reset_after_restart restarted m0)) as Hr.
  { unfold reset_after_restart. destruct restarted.
    - intros s ws. mg_simpl. by rewrite lookup_empty.
    - eapply same_registry_sound; [exact Hstart|exact Hs]. }
  eapply same_registry_sound; [|exact Hr].
  apply keeps_bind; [apply keeps_ensure_initialized|].
  intros _. apply keeps_ensure_session.
Qed.

Lemma remove_first_fresh q (ws : list nat) :
  q ∉ ws -> remove_first q (ws ++ [q]) = ws.
Proof.
  induction ws as [|w ws IH]; intros Hq; cbn [remove_first app].
  - by rewrite Nat.eqb_refl.
  - apply not_elem_of_cons in Hq as [Hne Hq].
    rewrite (proj2 (Nat.eqb_neq q w)) by done. by rewrite IH.
Qed.

Lemma attach_then_detach m codex_session :
  registry_sound m ->
  _detach_watcher (snd (attach_watcher m codex_session)) codex_session
                  (fst (attach_watcher m codex_session))
  = set_queues (queues m ++ [[]]) m.
Proof.
  intros Hs. unfold attach_watcher, _detach_watcher. cbn [fst snd]. mg_simpl.
  rewrite lookup_insert_eq.
  remember (default [] (session_watchers m !! codex_session)) as ws eqn:Hws.
  assert (length (queues m) ∉ ws) as Hfresh.
  { subst ws. destruct (session_watchers m !! codex_session) as [ws|] eqn:Hw; cbn [default].
    - intros Hin. apply (Hs _ _ Hw) in Hin. lia.
    - apply not_elem_of_nil. }
  assert (session_watchers m !! codex_session = match ws with [] => None | _ => Some ws end)
    as Hentry.
  { subst ws. destruct (session_watchers m !! codex_session) as [ws|] eqn:Hw; cbn [default].
    - destruct ws; [by destruct (Hs _ _ Hw)|reflexivity].
    - reflexivity. }
  destruct (ws ++ [length (queues m)]) as [|w ws'] eqn:Happ.
  { apply app_eq_nil in Happ as [_ [=]]. }
  rewrite <- Happ, remove_first_fresh by exact Hfresh.
  unfold set_session_watchers, set_queues. mg_simpl.
  destruct ws as [|w0 ws0].
  - rewrite delete_insert_eq, delete_id by exact Hentry. reflexivity.
  - rewrite insert_insert_eq, insert_id by exact Hentry. reflexivity.
Qed.

Lemma blocks_of_parts_none (parts : list json) (blocks : list json) :
  forallb (fun part => part_typed part && negb (usable_text_part part)) parts = true ->
  blocks_of_parts parts blocks = inr blocks.
Proof.
  induction parts as [|part parts IH]; cbn [forallb blocks_of_parts]; [done|].
  intros H. apply andb_true_iff in H as [Hpart Hrest].
  apply andb_true_iff in Hpart as [Htyped Hunusable].
  destruct part as [| | | | | |p]; try (by apply IH).
  cbn [part_typed usable_text_part] in *.
  rewrite Htyped. cbn [negb].
  destruct (Py.eq_str _ "text/plain" || Py.eq_str _ "text"); cbn [negb andb] in *;
    [|by apply IH].
  apply negb_true_iff in Hunusable. rewrite Hunusable. by apply IH.
Qed.

Lemma blocks_of_messages_none (messages : list json) (blocks : list json) :
  forallb message_without_text messages = true ->
  blocks_of_messages messages blocks = inr blocks.
Proof.
  induction messages as [|message messages IH]; cbn [forallb blocks_of_messages]; [done|].
  intros H. apply andb_true_iff in H as [Hmsg Hrest].
  unfold message_without_text, parts_of in Hmsg.
  destruct message as [| | | | | |fields]; try discriminate.
  destruct (Py.iter _) as [parts|]; [|discriminate].
  rewrite blocks_of_parts_none by exact Hmsg. by apply IH.
Qed.

Lemma build_prompt_payload_without_text (messages : list json) :
  forallb message_without_text messages = true ->
  _build_prompt_payload messages
  = inl (ValueError "Prompt payload did not contain any plain text content").
Proof.
  intros H. unfold _build_prompt_payload. by rewrite blocks_of_messages_none.
Qed.

(** When the messages have the documented shape and none holds a
    usable plain-text part, [run_prompt] does not return a result; once the agent session is resolved it
    raises [ValueError], and the queue it had just registered is
    detached first: the registry is again what it was before the queue
    was attached, and the new queue is in no entry of it. *)
Theorem run_prompt_without_text_detaches_its_queue :
  forall (token client_session_id : option string) (messages : list json)
         (sc : script) (m : manager),
    registry_sound m ->
    forallb message_without_text messages = true ->
    (forall r m', run_prompt token client_session_id messages sc m <> (Returns r, m')) /\
    (forall codex_session m1,
       run_prompt_session token client_session_id sc m = (Returns codex_session, m1) ->
       exists m',
         run_prompt token client_session_id messages sc m
           = (Raises (ValueError "Prompt payload did not contain any plain text content"), m') /\
         m' = set_queues (queues m1 ++ [[]]) m1 /\
         session_watchers m' = session_watchers m1 /\
         (forall s ws, session_watchers m' !! s = Some ws -> length (queues m1) ∉ ws)).
Proof.
  intros token cid messages sc m Hs Hno.
  pose proof (build_prompt_payload_without_text messages Hno) as Hbuild.
  pose proof (run_prompt_session_sound token cid sc m Hs) as Hs1.
  split.
  - intros r m'. unfold run_prompt.
    destruct (run_prompt_session token cid sc m) as [[cs|e|] m1]; try discriminate.
    destruct (attach_watcher m1 cs) as [q m2]. rewrite Hbuild. discriminate.
  - intros cs m1 Hsession. unfold run_prompt. rewrite Hsession in *. cbn [snd] in Hs1.
    pose proof (attach_then_detach m1 cs Hs1) as Hdetach.
    destruct (attach_watcher m1 cs) as [q m2]. cbn [fst snd] in Hdetach.
    rewrite Hbuild, Hdetach. eexists. split; [reflexivity|].
    split; [reflexivity|]. split; [reflexivity|].
    intros s ws Hw Hin. mg_simpl. apply (Hs1 _ _ Hw) in Hin. lia.
Qed.

Lemma new_manager_sound w : registry_sound (new_manager w).
Proof. intros s ws. cbn. by rewrite lookup_empty. Qed.

Lemma attach_watcher_sound m codex_session :
  registry_sound m -> registry_sound (snd (attach_watcher m codex_session)).
Proof.
  intros Hs s ws. unfold attach_watcher. cbn [snd]. mg_simpl.
  rewrite length_app. cbn [length].
  destruct (decide (codex_session = s)) as [->|Hne].
  - rewrite lookup_insert_eq. intros [= <-]. split.
    + intros Hnil. apply app_eq_nil in Hnil as [_ [=]].
    + intros q Hq. apply elem_of_app in Hq as [Hq|Hq].
      * destruct (session_watchers m !! s) as [ws|] eqn:Hw; cbn [default] in Hq.
        -- apply (Hs _ _ Hw) in Hq. lia.
        -- by apply not_elem_of_nil in Hq.
      * apply list_elem_of_singleton in Hq. lia.
  - rewrite lookup_insert_ne by done. intros Hw.
    destruct (Hs _ _ Hw) as [Hne' Hlt]. split; [done|].
    intros q Hq. apply Hlt in Hq. lia.
Qed.

Lemma remove_first_subset q (ws : list nat) x :
  x ∈ remove_first q ws -> x ∈ ws.
Proof.
  induction ws as [|w ws IH]; cbn [remove_first]; [done|].
  destruct (Nat.eqb q w).
  - by apply list_elem_of_further.
  - intros Hx. apply elem_of_cons in Hx as [->|Hx].
    + apply list_elem_of_here.
    + apply list_elem_of_further. by apply IH.
Qed.

Lemma detach_watcher_sound m session q :
  registry_sound m -> registry_sound (_detach_watcher m session q).
Proof.
  intros Hs. unfold _detach_watcher.
  destruct (session_watchers m !! session) as [[|w ws]|] eqn:Hw; try exact Hs.
  destruct (remove_first q (w :: ws)) as [|r rest] eqn:Hr; intros s ws'; mg_simpl.
  - intros Hl. apply lookup_delete_Some in Hl as [_ Hl]. by apply (Hs _ _ Hl).
  - destruct (decide (session = s)) as [->|Hne].
    + rewrite lookup_insert_eq. intros [= <-]. split; [done|].
      intros x Hx. rewrite <- Hr in Hx. apply remove_first_subset in Hx.
      by apply (Hs _ _ Hw).
    + rewrite lookup_insert_ne by done. intros Hl. by apply (Hs _ _ Hl).
Qed.

(** [stream_session] keeps the registry sound, and so does cancelling
    the stream. *)
Lemma stream_session_sound token client sc m :
  registry_sound m -> registry_sound (snd (stream_session token client sc m)).
Proof.
  intros Hs. unfold stream_session.
  set (effective := match token with Some t => Some t | None => _ end).
  unfold bind.
  pose proof (same_registry_sound _ _ (keeps_start effective (obeys_terminate sc) m) Hs)
    as Hs1.
  destruct (start effective (obeys_terminate sc) m) as [[r|e|] m1]; cbn [snd] in *;
    try exact Hs1.
  pose proof (same_registry_sound _ _
                (keeps_ensure_initialized effective (on_initialize sc)
                   (on_authenticate sc) m1) Hs1) as Hs2.
  destruct (_ensure_initialized effective _ _ m1) as [[[]|e|] m2]; cbn [snd] in *;
    try exact Hs2.
  pose proof (same_registry_sound _ _
                (keeps_ensure_session client (on_session_new sc) m2) Hs2) as Hs3.
  destruct (_ensure_session client _ m2) as [[cs|e|] m3]; cbn [snd] in *;
    try exact Hs3.
  pose proof (attach_watcher_sound m3 cs Hs3) as Ha.
  by destruct (attach_watcher m3 cs).
Qed.

Lemma fail_pending_stdin reason st : stdin_lines (fail_pending reason st) = stdin_lines st.
Proof. reflexivity. Qed.

Lemma ensure_started_stdin obeys st token :
  stdin_lines (snd (ensure_started obeys st token)) = stdin_lines st.
Proof.
  unfold ensure_started. destruct (running_with st token); [reflexivity|].
  unfold _shutdown_locked. st_simpl.
  destruct (await_task _); [reflexivity|].
  destruct (await_task _); reflexivity.
Qed.

Lemma start_changes_process_only token obeys m r m0 :
  start token obeys m = (r, m0) ->
  m0 = set_process (snd (ensure_started obeys (process m) token)) m.
Proof.
  unfold start.
  destruct (ensure_started obeys (process m) token) as [[e|b] p]; by intros [= _ <-].
Qed.

(** The sibling path: when [start] reports a restart, [run_prompt]
    goes on from a state whose handshake flag, session mapping and
    subscriber registry are cleared. *)
Lemma run_prompt_resets_after_restart token cid sc m m0 :
  start token (obeys_terminate sc) m = (Returns true, m0) ->
  run_prompt_session token cid sc m =
    (do _ <- _ensure_initialized token (on_initialize sc) (on_authenticate sc);
     _ensure_session (client_session_of cid) (on_session_new sc))
      (reset_after_restart true m0) /\
  initialized (reset_after_restart true m0) = false /\
  client_to_codex (reset_after_restart true m0) = ∅ /\
  session_watchers (reset_after_restart true m0) = ∅.
Proof.
  intros H. unfold run_prompt_session, bind at 1. rewrite H. repeat split.
Qed.

(** C4 fails for [stream_session].  It ignores what [ensure_started]
    answers: after a restart the handshake flag is still set and the
    session mapping still holds the identifier minted by the previous
    child, so the stream is opened on that stale identifier and nothing
    is sent to the new child. *)
Theorem stream_session_keeps_stale_state_after_restart :
  forall (token : option string) (client_session_id : string) (sc : script)
         (m m0 : manager) (stale : string),
    start (match token with Some t => Some t | None => current_token (process m) end)
          (obeys_terminate sc) m = (Returns true, m0) ->
    initialized m = true ->
    client_to_codex m !! client_session_id = Some stale ->
    exists m',
      stream_session token client_session_id sc m
        = (Returns (stale, length (queues m)), m') /\
      initialized m' = true /\
      client_to_codex m' = client_to_codex m /\
      session_watchers m' =
        <[stale := default [] (session_watchers m !! stale) ++ [length (queues m)]]>
          (session_watchers m) /\
      stdin_lines (process m') = stdin_lines (process m).
Proof.
  intros token cid sc m m0 stale Hstart Hinit Hmap.
  unfold stream_session, bind at 1. rewrite Hstart.
  apply start_changes_process_only in Hstart. subst m0.
  unfold bind at 1, _ensure_initialized. mg_simpl. rewrite Hinit.
  unfold bind at 1, _ensure_session. mg_simpl. rewrite Hmap.
  unfold attach_watcher. mg_simpl.
  eexists. split; [reflexivity|]. mg_simpl.
  split; [exact Hinit|]. split; [reflexivity|]. split; [reflexivity|].
  apply ensure_started_stdin.
Qed.
(** C10.  The [session_id] of a returned [RunResult] is the client
    session identifier the caller gave when that is a non-empty string,
    and otherwise the agent session identifier the call resolved, which
    is also what [codex_session_id] holds. *)
Theorem run_prompt_reports_client_or_agent_session :
  forall (token client_session_id : option string) (messages : list json)
         (sc : script) (m m' : manager) (r : RunResult),
    run_prompt token client_session_id messages sc m = (Returns r, m') ->
    (exists m1, run_prompt_session token client_session_id sc m
                  = (Returns (codex_session_id r), m1)) /\
    session_id r =
      match client_session_id with
      | Some s => if String.eqb s "" then codex_session_id r else s
      | None => codex_session_id r
      end.
Proof.
  intros token cid messages sc m m' r. unfold run_prompt.
  destruct (run_prompt_session token cid sc m) as [[cs|e|] m1]; try discriminate.
  destruct (attach_watcher m1 cs) as [q m2].
  destruct (_build_prompt_payload messages) as [[]|payload]; try discriminate.
  destruct (request (process m2) "session/prompt" _ (prompt_write sc))
    as [[e|[rid fut]] p];
    (match goal with
     | |- context [race ?a ?b ?c ?d ?e] =>
         destruct (race a b c d e) as [[[[prompt_response|e'|] getter] acc] m3]
     end;
     try discriminate;
     try (destruct (stop_reason_of prompt_response); try discriminate);
     destruct getter;
     try (match goal with
          | |- context [drain ?a ?b ?c] => destruct (drain a b c) as [acc' m4]
          end);
     intros [= <- _]; cbn [session_id codex_session_id];
     (split; [eauto|]);
     destruct cid as [s|]; cbn [client_session_of default]; unfold str_or;
     reflexivity).
Qed.
Lemma end_to_end_run :
  run_prompt None (Some "s1") hi_messages end_turn_script (new_manager "/workspace")
  = (Returns hello_result, after_first_run).
Proof. vm_compute. reflexivity. Qed.

Lemma run_prompt_reports_client_or_agent_session_witness :
  session_id hello_result = "s1".
Proof.
  destruct (run_prompt_reports_client_or_agent_session
              None (Some "s1") hi_messages end_turn_script
              (new_manager "/workspace") after_first_run hello_result end_to_end_run)
    as [_ H].
  exact H.
Defined.

Lemma after_first_run_registry : session_watchers after_first_run = ∅.
Proof. vm_compute. reflexivity. Qed.

Lemma after_first_run_sound : registry_sound after_first_run.
Proof. intros s ws. rewrite after_first_run_registry, lookup_empty. discriminate. Qed.

Lemma run_prompt_without_text_detaches_its_queue_witness :
  exists m',
    run_prompt None (Some "s1") image_messages end_turn_script after_first_run
      = (Raises (ValueError "Prompt payload did not contain any plain text content"), m') /\
    session_watchers m' = session_watchers after_first_run.
Proof.
  assert (forallb message_without_text image_messages = true) as Hno
    by (vm_compute; reflexivity).
  assert (run_prompt_session None (Some "s1") end_turn_script after_first_run
          = (Returns "a1", after_first_run)) as Hsession
    by (vm_compute; reflexivity).
  destruct (run_prompt_without_text_detaches_its_queue
              None (Some "s1") image_messages end_turn_script after_first_run
              after_first_run_sound Hno) as [_ H].
  destruct (H "a1" after_first_run Hsession) as (m' & Hrun & _ & Hreg & _).
  exists m'. split; [exact Hrun|exact Hreg].
Defined.

Lemma stream_session_keeps_stale_state_after_restart_witness :
  exists m',
    stream_session (Some "sk-2") "s1" end_turn_script after_first_run
      = (Returns ("a1", length (queues after_first_run)), m') /\
    initialized m' = true /\
    stdin_lines (process m') = stdin_lines (process after_first_run).
Proof.
  assert (start (Some "sk-2") (obeys_terminate end_turn_script) after_first_run
          = (Returns true, snd (start (Some "sk-2") true after_first_run))) as Hstart
    by (vm_compute; reflexivity).
  assert (initialized after_first_run = true) as Hinit by (vm_compute; reflexivity).
  assert (client_to_codex after_first_run !! "s1" = Some "a1") as Hmap
    by (vm_compute; reflexivity).
  destruct (stream_session_keeps_stale_state_after_restart
              (Some "sk-2") "s1" end_turn_script after_first_run _ "a1"
              Hstart Hinit Hmap) as (m' & Hrun & Hi & _ & _ & Hsent).
  exists m'. split; [exact Hrun|]. split; [exact Hi|exact Hsent].
Defined.

(** The failing input of C4, evaluated: a stream opened with a new
    token after a first run restarts the child (generation 1, started
    with the new token), yet keeps the handshake flag and the mapping
    of "s1" to the old child's session, and writes nothing to the new
    child; [run_prompt] from the same state forgets the mapping and
    sends [initialize] again. *)
Example stream_session_after_token_change :
  let m' := snd (stream_session (Some "sk-2") "s1" end_turn_script after_first_run) in
  fst (stream_session (Some "sk-2") "s1" end_turn_script after_first_run)
    = Returns ("a1", 1) /\
  proc (process m') = Some (Subprocess 1 None true (Some "sk-2")) /\
  initialized m' = true /\
  client_to_codex m' !! "s1" = Some "a1" /\
  stdin_lines (process m') = stdin_lines (process after_first_run) /\
  let via_run_prompt :=
    snd (run_prompt_session (Some "sk-2") (Some "s1") end_turn_script after_first_run) in
  client_to_codex via_run_prompt !! "s1" = None /\
  length (stdin_lines (process via_run_prompt))
    = S (length (stdin_lines (process after_first_run))).
Proof. vm_compute. repeat split. Qed.

(** Messages whose [parts] cannot be iterated raise [TypeError], which
    [run_prompt] does not catch: the queue stays registered. *)
Example run_prompt_with_numeric_parts_keeps_queue :
  let r := run_prompt None (Some "s1") [JObj [("parts", JInt 5)]] end_turn_script
                      after_first_run in
  fst r = Raises TypeError /\ session_watchers (snd r) !! "a1" = Some [1].
Proof. vm_compute. repeat split. Qed.
(** C7.  Where the code departs from the claim: messages without
    usable text on which [_build_prompt_payload] raises [TypeError] or
    [AttributeError] instead of [ValueError], such as a message whose
    [parts] is a number.  [run_prompt] catches [ValueError] only: the
    exception leaves it with the queue still registered for the agent
    session, and nothing the child writes afterwards removes it. *)
Theorem run_prompt_type_error_leaves_queue_registered :
  forall (token client_session_id : option string) (messages : list json)
         (sc : script) (m m1 : manager) (codex_session : string) (e : exn),
    run_prompt_session token client_session_id sc m = (Returns codex_session, m1) ->
    _build_prompt_payload messages = inl e ->
    e = TypeError \/ e = AttributeError ->
    exists m',
      run_prompt token client_session_id messages sc m = (Raises e, m') /\
      queues m' !! length (queues m1) = Some [] /\
      forall later,
        exists ws, session_watchers (pump m' later) !! codex_session = Some ws /\
                   length (queues m1) ∈ ws.
Proof.
  intros token cid messages sc m m1 cs e Hsession Hbuild He.
  unfold run_prompt. rewrite Hsession. unfold attach_watcher. rewrite Hbuild.
  assert (as_value_error e = None) as -> by (by destruct He as [->| ->]).
  eexists. split; [reflexivity|]. mg_simpl. split.
  - rewrite lookup_app_r by done. by rewrite Nat.sub_diag.
  - intros later.
    match goal with
    | |- context [pump ?x later] => destruct (pump_registry x later) as [Hw _]; rewrite Hw
    end.
    mg_simpl.
    rewrite lookup_insert_eq. eexists. split; [reflexivity|].
    apply elem_of_app. right. apply list_elem_of_here.
Qed.

Lemma run_prompt_type_error_leaves_queue_registered_witness :
  exists m',
    run_prompt None (Some "s1") [JObj [("parts", JInt 5)]] end_turn_script after_first_run
      = (Raises TypeError, m') /\
    exists ws, session_watchers (pump m' []) !! "a1" = Some ws /\
               length (queues after_first_run) ∈ ws.
Proof.
  assert (run_prompt_session None (Some "s1") end_turn_script after_first_run
          = (Returns "a1", after_first_run)) as Hsession
    by (vm_compute; reflexivity).
  assert (_build_prompt_payload [JObj [("parts", JInt 5)]] = inl TypeError) as Hbuild
    by (vm_compute; reflexivity).
  destruct (run_prompt_type_error_leaves_queue_registered
              None (Some "s1") [JObj [("parts", JInt 5)]] end_turn_script
              after_first_run after_first_run "a1" TypeError
              Hsession Hbuild (or_introl eq_refl)) as (m' & Hrun & _ & Hlater).
  exists m'. split; [exact Hrun|exact (Hlater [])].
Defined.


(** * Further properties of the bridge *)

(** ** The pending table *)

Lemma fail_pending_length reason st :
  length (futures (fail_pending reason st)) = length (futures st).
Proof.
  unfold fail_pending. st_simpl.
  induction (snd <$> map_to_list (pending st)) as [|h hs IH]; cbn [foldr]; [done|].
  by rewrite resolve_length.
Qed.

Lemma table_sound_shrink st st' :
  table_sound st ->
  (forall r f, pending st' !! r = Some f -> pending st !! r = Some f) ->
  length (futures st') = length (futures st) ->
  id_counter st' = id_counter st ->
  table_sound st'.
Proof.
  intros [Hb Hi] Hp Hl Hc. split.
  - intros rid f H. rewrite Hl, Hc. by apply Hb, Hp.
  - intros r1 r2 f H1 H2. eapply Hi; by apply Hp.
Qed.

Lemma on_response_pending_shrinks st message r f :
  pending (on_response st message) !! r = Some f -> pending st !! r = Some f.
Proof.
  unfold on_response.
  destruct (pending st !! Py.str (Py.get message "id")) as [fut|] eqn:Hp; [|done].
  destruct (_ && _).
  - destruct (Py.get message "error"); try destruct (is_done _ _); st_simpl;
      intros H; apply lookup_delete_Some in H; tauto.
  - st_simpl. intros H; apply lookup_delete_Some in H; tauto.
Qed.

Lemma on_response_frame st message :
  length (futures (on_response st message)) = length (futures st) /\
  id_counter (on_response st message) = id_counter st.
Proof.
  unfold on_response.
  destruct (pending st !! Py.str (Py.get message "id")) as [fut|]; [|done].
  destruct (_ && _).
  - destruct (Py.get message "error"); try destruct (is_done _ _); st_simpl;
      rewrite ?resolve_length; done.
  - st_simpl. by rewrite resolve_length.
Qed.

Lemma on_message_shrinks st message :
  (forall r f, pending (on_message st message) !! r = Some f -> pending st !! r = Some f) /\
  length (futures (on_message st message)) = length (futures st) /\
  id_counter (on_message st message) = id_counter st.
Proof.
  unfold on_message.
  destruct (Py.contains message "id") as [[]|]; [|..]; try (st_simpl; done).
  - destruct message; try (st_simpl; done).
    split; [apply on_response_pending_shrinks|apply on_response_frame].
  - destruct (Py.contains message "method") as [[]|]; try done.
    destruct message; unfold on_notification;
      destruct (notification_handler st); st_simpl; done.
Qed.

Lemma read_stdout_shrinks st line :
  (forall r f, pending (_read_stdout st line) !! r = Some f -> pending st !! r = Some f) /\
  length (futures (_read_stdout st line)) = length (futures st) /\
  id_counter (_read_stdout st line) = id_counter st.
Proof.
  unfold _read_stdout. destruct (stdout_task st) as [[]|]; try done.
  destruct line; try (st_simpl; done).
  - st_simpl. split; [|split; [apply fail_pending_length|done]].
    intros r f. unfold fail_pending. st_simpl. by rewrite lookup_empty.
  - apply on_message_shrinks.
Qed.

Lemma shutdown_shrinks obeys st :
  (forall r f, pending (snd (_shutdown_locked obeys st)) !! r = Some f ->
               pending st !! r = Some f) /\
  length (futures (snd (_shutdown_locked obeys st))) = length (futures st) /\
  id_counter (snd (_shutdown_locked obeys st)) = id_counter st.
Proof.
  unfold _shutdown_locked. st_simpl.
  destruct (await_task _); [done|]. destruct (await_task _); [done|].
  cbn [snd]. split; [|split; [by rewrite fail_pending_length|done]].
  intros r f. unfold fail_pending. st_simpl. by rewrite lookup_empty.
Qed.

Lemma request_table_sound st method params w :
  table_sound st -> table_sound (snd (request st method params w)).
Proof.
  intros [Hb Hi]. unfold request.
  destruct (proc st) as [p|]; [|by split].
  destruct (negb (stdin_piped p)); [by split|].
  assert (pending st !! pretty (S (id_counter st)) = None) as Hfresh.
  { destruct (pending st !! pretty (S (id_counter st))) as [f|] eqn:Hf; [|done].
    destruct (Hb _ _ Hf) as (_ & k & Hk & Hle).
    apply (inj pretty) in Hk. lia. }
  assert (forall st0 : codex_process,
            pending st0 = <[pretty (S (id_counter st)) := length (futures st)]> (pending st) ->
            length (futures st0) = S (length (futures st)) ->
            id_counter st0 = S (id_counter st) ->
            table_sound st0) as Hgoal.
  { intros st0 Hp Hl Hc. split.
    - intros rid f. rewrite Hp, Hl, Hc. intros H.
      apply lookup_insert_Some in H as [[<- <-]|[Hne H]].
      + split; [lia|]. exists (S (id_counter st)). split; [done|lia].
      + destruct (Hb _ _ H) as (Hlt & k & Hk & Hle).
        split; [lia|]. exists k. split; [done|lia].
    - intros r1 r2 f. rewrite Hp. intros H1 H2.
      apply lookup_insert_Some in H1 as [[<- <-]|[Hne1 H1]];
        apply lookup_insert_Some in H2 as [[<- Hf]|[Hne2 H2]]; try done.
      + destruct (Hb _ _ H2) as [Hlt _]. lia.
      + destruct (Hb _ _ H1) as [Hlt _]. lia.
      + by eapply Hi. }
  destruct w; cbn [snd]; apply Hgoal; st_simpl;
    rewrite ?resolve_length, ?length_app; cbn [length]; try done; lia.
Qed.
Lemma new_process_table_sound : table_sound new_process.
Proof. split; intros *; cbn; by rewrite lookup_empty. Qed.

(** An invariant of the model: futures are named by their index in
    the store, and the pending table stays sound, naming only futures
    that exist, through every operation of the transport: a request, a
    line of the child's output, a shutdown, a start. *)
Theorem transport_keeps_table_sound :
  forall st : codex_process,
    table_sound st ->
    (forall method params w, table_sound (snd (request st method params w))) /\
    (forall line, table_sound (_read_stdout st line)) /\
    (forall obeys, table_sound (snd (stop obeys st))) /\
    (forall obeys token, table_sound (snd (ensure_started obeys st token))).
Proof.
  intros st Hs. split; [|split; [|split]].
  - intros. by apply request_table_sound.
  - intros line. eapply table_sound_shrink; [exact Hs|apply read_stdout_shrinks..].
  - intros obeys. eapply table_sound_shrink; [exact Hs|apply shutdown_shrinks..].
  - intros obeys token. unfold ensure_started.
    destruct (running_with st token); [exact Hs|].
    pose proof (shutdown_shrinks obeys st) as (Hp & Hl & Hc).
    destruct (_shutdown_locked obeys st) as [[e|] st']; cbn [snd] in *;
      eapply table_sound_shrink; try exact Hs; unfold spawn; st_simpl; done.
Qed.

Lemma two_in_flight_table_sound : table_sound two_in_flight.
Proof.
  unfold two_in_flight. do 2 apply request_table_sound.
  unfold ensure_started.
  destruct (running_with new_process None); [apply new_process_table_sound|].
  pose proof (shutdown_shrinks true new_process) as (Hp & Hl & Hc).
  destruct (_shutdown_locked true new_process) as [[e|] st']; cbn [snd] in *;
    eapply table_sound_shrink; try exact new_process_table_sound;
    unfold spawn; st_simpl; done.
Qed.

(** X2.  A request whose line is written gets the next number as its
    identifier.  That identifier is not in the table yet, so no
    outstanding request is overwritten; the new future is unset and
    the line carries the identifier, the method and the parameters
    ([{}] for none). *)
Theorem request_registers_fresh_identifier :
  forall (st : codex_process) (p : subprocess) (method : string) (params : json),
    table_sound st -> proc st = Some p -> stdin_piped p = true ->
    let rid := pretty (S (id_counter st)) in
    let fut := length (futures st) in
    exists st',
      request st method params Written = (inr (rid, fut), st') /\
      pending st !! rid = None /\
      pending st' = <[rid := fut]> (pending st) /\
      (forall r f, pending st !! r = Some f -> pending st' !! r = Some f /\ f <> fut) /\
      futures st' = futures st ++ [FPending] /\
      await st' fut = None /\
      stdin_lines st' = stdin_lines st ++ [request_line rid method params] /\
      id_counter st' = S (id_counter st).
Proof.
  intros st p method params [Hb Hi] Hp Hpipe rid fut.
  unfold request. rewrite Hp, Hpipe. cbn [negb]. st_simpl.
  eexists. split; [reflexivity|]. st_simpl.
  assert (pending st !! rid = None) as Hfresh.
  { destruct (pending st !! rid) as [f|] eqn:Hf; [|done].
    destruct (Hb _ _ Hf) as (_ & k & Hk & Hle).
    apply (inj pretty) in Hk. lia. }
  split; [exact Hfresh|]. split; [reflexivity|]. split.
  { intros r f Hr. destruct (Hb _ _ Hr) as [Hlt _]. split; [|unfold fut; lia].
    rewrite lookup_insert_ne; [done|].
    intros Heq. subst r. unfold rid in Hfresh. rewrite Hfresh in Hr. discriminate. }
  split; [reflexivity|]. split; [|done].
  unfold await. st_simpl. rewrite lookup_app_r by done.
  by rewrite Nat.sub_diag.
Qed.

Lemma request_registers_fresh_identifier_witness :
  exists st',
    request two_in_flight "session/prompt" JNull Written
      = (inr (pretty (S (id_counter two_in_flight)), length (futures two_in_flight)), st') /\
    pending two_in_flight !! pretty (S (id_counter two_in_flight)) = None.
Proof.
  assert (proc two_in_flight = Some (Subprocess 0 None true None)) as Hp
    by (vm_compute; reflexivity).
  destruct (request_registers_fresh_identifier two_in_flight _ "session/prompt" JNull
              two_in_flight_table_sound Hp eq_refl) as (st' & Hreq & Hfresh & _).
  exists st'. split; [exact Hreq|exact Hfresh].
Defined.

Lemma pretty_Z_of_nat (k : nat) : pretty (Z.of_nat k) = pretty k.
Proof. destruct k; reflexivity. Qed.

Lemma request_written st p method params :
  table_sound st -> proc st = Some p -> stdin_piped p = true ->
  exists st',
    request st method params Written
      = (inr (pretty (S (id_counter st)), length (futures st)), st') /\
    pending st !! pretty (S (id_counter st)) = None /\
    pending st' = <[pretty (S (id_counter st)) := length (futures st)]> (pending st) /\
    futures st' = futures st ++ [FPending] /\
    stdout_task st' = stdout_task st /\
    proc st' = proc st.
Proof.
  intros [Hb Hi] Hp Hpipe.
  unfold request. rewrite Hp, Hpipe. cbn [negb]. st_simpl.
  eexists. split; [reflexivity|]. st_simpl.
  split; [|repeat split; done].
  destruct (pending st !! pretty (S (id_counter st))) as [f|] eqn:Hf; [|done].
  destruct (Hb _ _ Hf) as (_ & k & Hk & Hle).
  apply (inj pretty) in Hk. lia.
Qed.

(** X3.  Round trip of one request: once the line is written and the
    reader meets a response carrying the same identifier, as a string
    or as a number, the caller receives the [result] member, the
    pending table is what it was before the request, and no future
    that already existed has changed. *)
Theorem request_then_response_round_trip :
  forall (st : codex_process) (p : subprocess) (method : string)
         (params idv result : json),
    table_sound st ->
    stdout_task st = Some TaskRunning ->
    proc st = Some p -> stdin_piped p = true ->
    idv = JStr (pretty (S (id_counter st))) \/ idv = JInt (Z.of_nat (S (id_counter st))) ->
    exists rid fut st1,
      request st method params Written = (inr (rid, fut), st1) /\
      await (_read_stdout st1 (response_line idv result)) fut = Some (inr result) /\
      pending (_read_stdout st1 (response_line idv result)) = pending st /\
      forall f x, futures st !! f = Some x ->
                  futures (_read_stdout st1 (response_line idv result)) !! f = Some x.
Proof.
  intros st p method params idv result Hs Ha Hp Hpipe Hid.
  destruct (request_written st p method params Hs Hp Hpipe)
    as (st1 & Hreq & Hfresh & Hpend & Hfut & Htask & _).
  exists (pretty (S (id_counter st))), (length (futures st)), st1.
  split; [exact Hreq|].
  assert (Py.str idv = pretty (S (id_counter st))) as Hstr.
  { destruct Hid as [->| ->]; [reflexivity|].
    cbn [Py.str Py.repr]. apply pretty_Z_of_nat. }
  unfold response_line.
  destruct (read_response st1 "" [("jsonrpc", JStr "2.0"); ("id", idv); ("result", result)]
              idv) as [Hstep Hg]; [congruence|reflexivity|].
  rewrite Hstep.
  rewrite (on_response_known st1 _ (length (futures st)));
    [|reflexivity|rewrite Hg, Hstr, Hpend; apply lookup_insert_eq].
  rewrite Hg, Hstr. st_simpl. split; [|split].
  - unfold await. st_simpl. rewrite resolve_lookup_pending; [reflexivity|].
    rewrite Hfut, lookup_app_r by done. by rewrite Nat.sub_diag.
  - rewrite Hpend, delete_insert_eq. by apply delete_id.
  - intros f x Hf. rewrite resolve_lookup_ne.
    + rewrite Hfut. by apply lookup_app_l_Some.
    + apply lookup_lt_Some in Hf. lia.
Qed.

Lemma request_then_response_round_trip_witness :
  exists rid fut st1,
    request two_in_flight "authenticate" JNull Written = (inr (rid, fut), st1) /\
    await (_read_stdout st1 (response_line (JInt (Z.of_nat (S (id_counter two_in_flight))))
                                           (JStr "ok"))) fut
      = Some (inr (JStr "ok")).
Proof.
  assert (stdout_task two_in_flight = Some TaskRunning) as Ha by (vm_compute; reflexivity).
  assert (proc two_in_flight = Some (Subprocess 0 None true None)) as Hp
    by (vm_compute; reflexivity).
  destruct (request_then_response_round_trip two_in_flight _ "authenticate" JNull
              (JInt (Z.of_nat (S (id_counter two_in_flight)))) (JStr "ok")
              two_in_flight_table_sound Ha Hp eq_refl (or_intror eq_refl))
    as (rid & fut & st1 & Hreq & Haw & _).
  exists rid, fut, st1. split; [exact Hreq|exact Haw].
Defined.

Lemma on_message_final st message f x :
  futures st !! f = Some x -> done x = true ->
  futures (on_message st message) !! f = Some x.
Proof.
  intros Hf Hd. unfold on_message.
  destruct (Py.contains message "id") as [[]|]; try (st_simpl; done).
  - destruct message; try (st_simpl; done).
    unfold on_response.
    destruct (pending st !! _) as [fut|]; [|st_simpl; done].
    destruct (_ && _).
    + destruct (Py.get _ "error"); try destruct (is_done _ _); st_simpl; try done.
      by apply resolve_lookup_done.
    + st_simpl. by apply resolve_lookup_done.
  - destruct (Py.contains message "method") as [[]|]; try done.
    destruct message; unfold on_notification;
      destruct (notification_handler st); st_simpl; done.
Qed.

(** X4.  A future is set once: whatever the transport does next (a
    line read, a request, a shutdown, a start), a future that is done
    keeps its outcome. *)
Theorem done_futures_are_final :
  forall (st : codex_process) (f : nat) (x : future),
    futures st !! f = Some x -> done x = true ->
    (forall line, futures (_read_stdout st line) !! f = Some x) /\
    (forall method params w, futures (snd (request st method params w)) !! f = Some x) /\
    (forall obeys, futures (snd (stop obeys st)) !! f = Some x) /\
    (forall obeys token, futures (snd (ensure_started obeys st token)) !! f = Some x).
Proof.
  intros st f x Hf Hd.
  assert (forall obeys, futures (snd (_shutdown_locked obeys st)) !! f = Some x) as Hstop.
  { intros obeys. unfold _shutdown_locked. st_simpl.
    destruct (await_task _); [done|]. destruct (await_task _); [done|].
    cbn [snd]. by apply fail_pending_keeps_done. }
  split; [|split; [|split]].
  - intros line. unfold _read_stdout.
    destruct (stdout_task st) as [[]|]; try done.
    destruct line; st_simpl; try done.
    + by apply fail_pending_keeps_done.
    + by apply on_message_final.
  - intros method params w. unfold request.
    destruct (proc st) as [p|]; [|done].
    destruct (negb (stdin_piped p)); [done|].
    destruct w; cbn [snd]; st_simpl.
    + by apply lookup_app_l_Some.
    + apply resolve_lookup_done with (x := x); [|done]. by apply lookup_app_l_Some.
    + by apply lookup_app_l_Some.
  - exact Hstop.
  - intros obeys token. unfold ensure_started.
    destruct (running_with st token); [done|].
    specialize (Hstop obeys).
    destruct (_shutdown_locked obeys st) as [[e|] st']; cbn [snd] in *;
      unfold spawn; st_simpl; done.
Qed.
Lemma done_futures_are_final_witness :
  let st := _read_stdout two_in_flight (response_line (JStr "1") (JStr "a")) in
  futures (_read_stdout st Eof) !! 0 = Some (FResult (JStr "a")).
Proof.
  intros st.
  assert (futures st !! 0 = Some (FResult (JStr "a"))) as Hf by (vm_compute; reflexivity).
  destruct (done_futures_are_final st 0 (FResult (JStr "a")) Hf eq_refl) as [H _].
  exact (H Eof).
Defined.

(** X5.  Once [stop] has completed there is no child: every request
    raises [CodexProcessClosed] at once and changes nothing, no token
    counts as running, and the next [ensure_started] spawns a child
    and answers "restarted". *)
Theorem stopped_transport_refuses_requests :
  forall (obeys : bool) (st st' : codex_process),
    stop obeys st = (None, st') ->
    (forall method params w,
       request st' method params w
         = (inl (CodexProcessClosed "codex-acp process is not running"), st')) /\
    (forall token, running_with st' token = false) /\
    (forall obeys' token,
       exists st'', ensure_started obeys' st' token = (inr true, st'') /\
                    current_token st'' = token /\
                    exists child, proc st'' = Some child /\ returncode child = None /\
                                  generation child = spawned st).
Proof.
  intros obeys st st' Hstop. apply shutdown_result in Hstop. subst st'.
  split; [|split].
  - intros. reflexivity.
  - intros. reflexivity.
  - intros obeys' token. unfold ensure_started.
    change (running_with _ token) with false. cbv iota.
    rewrite shutdown_completes by (split; reflexivity).
    eexists. split; [reflexivity|]. split; [reflexivity|].
    eexists. repeat split.
Qed.

Lemma stopped_transport_refuses_requests_witness :
  exists st',
    stop true two_in_flight = (None, st') /\
    request st' "initialize" JNull Written
      = (inl (CodexProcessClosed "codex-acp process is not running"), st').
Proof.
  assert (readers_sound two_in_flight) as Hs by (split; vm_compute; reflexivity).
  pose proof (shutdown_completes true two_in_flight Hs) as Hstop.
  eexists. split; [exact Hstop|].
  destruct (stopped_transport_refuses_requests true two_in_flight _ Hstop) as [H _].
  apply H.
Defined.

(** X6.  A start that succeeded makes the next start with the same
    token a no-op: it answers "not restarted" and leaves the transport
    as it is. *)
Theorem ensure_started_twice_is_once :
  forall (obeys obeys' : bool) (st st1 : codex_process) (token : option string) (r : bool),
    ensure_started obeys st token = (inr r, st1) ->
    ensure_started obeys' st1 token = (inr false, st1).
Proof.
  intros obeys obeys' st st1 token r. unfold ensure_started at 1.
  destruct (running_with st token) eqn:Hrun.
  - intros [= _ <-]. unfold ensure_started. by rewrite Hrun.
  - destruct (_shutdown_locked obeys st) as [[e|] st0]; [discriminate|].
    intros [= _ <-]. unfold ensure_started.
    assert (running_with (spawn token st0) token = true) as ->; [|done].
    unfold running_with, spawn. st_simpl. cbn [returncode].
    by rewrite !bool_decide_eq_true_2.
Qed.

Lemma ensure_started_twice_is_once_witness :
  ensure_started false (snd (ensure_started true new_process (Some "sk-1"))) (Some "sk-1")
  = (inr false, snd (ensure_started true new_process (Some "sk-1"))).
Proof.
  apply (ensure_started_twice_is_once true false new_process _ (Some "sk-1") true).
  vm_compute. reflexivity.
Defined.

Lemma ensure_started_counter obeys st token :
  id_counter (snd (ensure_started obeys st token)) = id_counter st.
Proof.
  unfold ensure_started. destruct (running_with st token); [done|].
  pose proof (shutdown_shrinks obeys st) as (_ & _ & Hc).
  destruct (_shutdown_locked obeys st) as [[e|] st']; cbn [snd] in *;
    unfold spawn; st_simpl; done.
Qed.

Lemma request_counter st method params w :
  id_counter st <= id_counter (snd (request st method params w)).
Proof.
  unfold request. destruct (proc st) as [p|]; [|done].
  destruct (negb (stdin_piped p)); [done|].
  destruct w; cbn [snd]; st_simpl; lia.
Qed.

Lemma transport_run_counter (ops : list transport_op) : forall st,
  id_counter st <= id_counter (transport_run st ops).
Proof.
  unfold transport_run.
  induction ops as [|op ops IH]; intros st; cbn [fold_left]; [done|].
  etrans; [|apply IH].
  destruct op; cbn [transport_step].
  - apply request_counter.
  - by rewrite (proj2 (proj2 (read_stdout_shrinks st line))).
  - unfold stop. by rewrite (proj2 (proj2 (shutdown_shrinks obeys st))).
  - by rewrite ensure_started_counter.
Qed.

Lemma request_identifier st method params w rid fut st' :
  request st method params w = (inr (rid, fut), st') ->
  rid = pretty (S (id_counter st)) /\ id_counter st' = S (id_counter st).
Proof.
  unfold request. destruct (proc st) as [p|]; [|discriminate].
  destruct (negb (stdin_piped p)); [discriminate|].
  destruct w; [|discriminate..]. st_simpl. by intros [= <- _ <-].
Qed.

(** X23.  An identifier is never issued twice.  The counter is not
    reset by a restart, a stop or the end of the child's output, so
    whatever happens to the transport between two requests, the later
    one gets a different identifier. *)
Theorem identifiers_are_never_reused :
  forall (st st1 st2 : codex_process) (ops : list transport_op)
         (method1 method2 : string) (params1 params2 : json) (w1 w2 : write_outcome)
         (rid1 rid2 : string) (fut1 fut2 : nat),
    request st method1 params1 w1 = (inr (rid1, fut1), st1) ->
    request (transport_run st1 ops) method2 params2 w2 = (inr (rid2, fut2), st2) ->
    rid1 <> rid2 /\ id_counter st < id_counter st2.
Proof.
  intros st st1 st2 ops method1 method2 params1 params2 w1 w2 rid1 rid2 fut1 fut2 H1 H2.
  apply request_identifier in H1 as [-> Hc1].
  apply request_identifier in H2 as [-> Hc2].
  pose proof (transport_run_counter ops st1) as Hmono.
  split; [|lia]. intros Heq. apply (inj pretty) in Heq. lia.
Qed.

Lemma identifiers_are_never_reused_witness :
  pretty (S (id_counter (snd (ensure_started true new_process None))))
  <> pretty (S (id_counter
       (transport_run (snd (request (snd (ensure_started true new_process None))
                                    "session/new" JNull Written))
                      [OpStop true; OpStart true (Some "sk-1")])))
  /\ id_counter (snd (ensure_started true new_process None))
     < id_counter
         (snd (request
                 (transport_run (snd (request (snd (ensure_started true new_process None))
                                              "session/new" JNull Written))
                                [OpStop true; OpStart true (Some "sk-1")])
                 "session/prompt" JNull Written)).
Proof.
  assert (request (snd (ensure_started true new_process None)) "session/new" JNull Written
          = (inr (pretty (S (id_counter (snd (ensure_started true new_process None)))),
                  length (futures (snd (ensure_started true new_process None)))),
             snd (request (snd (ensure_started true new_process None))
                          "session/new" JNull Written))) as H1
    by (vm_compute; reflexivity).
  assert (request
            (transport_run (snd (request (snd (ensure_started true new_process None))
                                         "session/new" JNull Written))
                           [OpStop true; OpStart true (Some "sk-1")])
            "session/prompt" JNull Written
          = (inr (pretty (S (id_counter
                    (transport_run (snd (request (snd (ensure_started true new_process None))
                                                 "session/new" JNull Written))
                                   [OpStop true; OpStart true (Some "sk-1")]))),
                  length (futures
                    (transport_run (snd (request (snd (ensure_started true new_process None))
                                                 "session/new" JNull Written))
                                   [OpStop true; OpStart true (Some "sk-1")]))),
             snd (request
                    (transport_run (snd (request (snd (ensure_started true new_process None))
                                                 "session/new" JNull Written))
                                   [OpStop true; OpStart true (Some "sk-1")])
                    "session/prompt" JNull Written))) as H2
    by (vm_compute; reflexivity).
  exact (identifiers_are_never_reused _ _ _ _ _ _ _ _ _ _ _ _ _ _ H1 H2).
Defined.

Lemma dead_reader_step st e op :
  stdout_task st = Some (TaskFailed e) ->
  stdout_task (transport_step st op) = Some (TaskFailed e) /\
  forall fut, futures st !! fut = Some FPending ->
              futures (transport_step st op) !! fut = Some FPending.
Proof.
  intros Hdead.
  assert (forall obeys,
            stdout_task (snd (_shutdown_locked obeys st)) = Some (TaskFailed e) /\
            futures (snd (_shutdown_locked obeys st)) = futures st) as Hshut.
  { intros obeys. unfold _shutdown_locked. st_simpl. rewrite Hdead. cbn.
    st_simpl. rewrite ?Hdead. split; reflexivity. }
  destruct op; cbn [transport_step].
  - unfold request. destruct (proc st) as [p|]; [|done].
    destruct (negb (stdin_piped p)); [done|].
    destruct w; cbn [snd]; st_simpl; (split; [done|]); intros fut Hfut.
    + rewrite lookup_app_l; [done|]. by eapply lookup_lt_Some.
    + rewrite resolve_lookup_ne.
      * rewrite lookup_app_l; [done|]. by eapply lookup_lt_Some.
      * apply lookup_lt_Some in Hfut. lia.
    + rewrite lookup_app_l; [done|]. by eapply lookup_lt_Some.
  - unfold _read_stdout. by rewrite Hdead.
  - unfold stop. destruct (Hshut obeys) as [-> ->]. done.
  - unfold ensure_started. destruct (running_with st token); [done|].
    destruct (Hshut obeys) as [Ht Hf]. pose proof (shutdown_reraises obeys st e Hdead) as [He _].
    destruct (_shutdown_locked obeys st) as [[e'|] st']; cbn [fst snd] in *; [|done].
    rewrite Ht, Hf. done.
Qed.

(** X24.  A reader task that died from an exception is never replaced.
    Whatever is done to the transport afterwards, the dead task stays in
    place, the requests that were waiting stay unanswered, [stop] raises
    the reader's exception, and so does every [ensure_started] that has
    to restart the child. *)
Theorem dead_reader_is_never_replaced :
  forall (st : codex_process) (e : exn) (ops : list transport_op),
    stdout_task st = Some (TaskFailed e) ->
    stdout_task (transport_run st ops) = Some (TaskFailed e) /\
    (forall fut, futures st !! fut = Some FPending ->
                 futures (transport_run st ops) !! fut = Some FPending) /\
    (forall obeys, fst (stop obeys (transport_run st ops)) = Some e) /\
    (forall obeys token,
       running_with (transport_run st ops) token = false ->
       fst (ensure_started obeys (transport_run st ops) token) = inl e).
Proof.
  intros st e ops. revert st. unfold transport_run.
  induction ops as [|op ops IH]; intros st Hdead; cbn [fold_left].
  - split; [done|]. split; [done|].
    assert (forall obeys, fst (_shutdown_locked obeys st) = Some e) as Hshut
      by (intros; by apply shutdown_reraises).
    split; [exact Hshut|].
    intros obeys token Hrun. unfold ensure_started. rewrite Hrun.
    specialize (Hshut obeys).
    by destruct (_shutdown_locked obeys st) as [[e'|] st']; cbn [fst] in *; simplify_eq.
  - destruct (dead_reader_step st e op Hdead) as [Hdead' Hkeep].
    destruct (IH _ Hdead') as (H1 & H2 & H3 & H4).
    split; [done|]. split; [|done].
    intros fut Hfut. apply H2, Hkeep, Hfut.
Qed.

Lemma dead_reader_is_never_replaced_witness :
  stdout_task (transport_run (_read_stdout two_in_flight (Undecodable "invalid start byte"))
                             [OpStop true; OpStart true None; OpLine Eof])
  = Some (TaskFailed (UnicodeDecodeError "invalid start byte")) /\
  fst (stop false (transport_run (_read_stdout two_in_flight (Undecodable "invalid start byte"))
                                 [OpStop true; OpStart true None; OpLine Eof]))
  = Some (UnicodeDecodeError "invalid start byte").
Proof.
  assert (stdout_task (_read_stdout two_in_flight (Undecodable "invalid start byte"))
          = Some (TaskFailed (UnicodeDecodeError "invalid start byte"))) as Hdead
    by (vm_compute; reflexivity).
  destruct (dead_reader_is_never_replaced
              (_read_stdout two_in_flight (Undecodable "invalid start byte"))
              (UnicodeDecodeError "invalid start byte")
              [OpStop true; OpStart true None; OpLine Eof] Hdead)
    as (H1 & _ & H3 & _).
  split; [exact H1|exact (H3 false)].
Defined.

(** ** Routing of notifications *)

Lemma put_nowait_lookup w item (qs : list (list json)) q :
  put_nowait w item qs !! q =
  (if decide (q = w) then (fun items => items ++ [item]) <$> qs !! q else qs !! q).
Proof.
  unfold put_nowait. destruct (qs !! w) as [items|] eqn:Hw.
  - destruct (decide (q = w)) as [->|Hne].
    + rewrite list_lookup_insert_eq by (by eapply lookup_lt_Some). by rewrite Hw.
    + by rewrite list_lookup_insert_ne.
  - destruct (decide (q = w)) as [->|Hne]; [by rewrite Hw|done].
Qed.

Lemma fold_put_nowait_lookup item (ws : list nat) : forall (qs : list (list json)) q,
  fold_left (fun qs w => put_nowait w item qs) ws qs !! q =
  (fun items => items ++ replicate (count_occ Nat.eq_dec ws q) item) <$> qs !! q.
Proof.
  induction ws as [|w ws IH]; intros qs q; cbn [fold_left count_occ].
  - destruct (qs !! q); cbn; [by rewrite app_nil_r|done].
  - rewrite IH, put_nowait_lookup.
    destruct (Nat.eq_dec w q) as [->|Hne].
    + rewrite decide_True by done. destruct (qs !! q); cbn; [|done].
      by rewrite <- app_assoc.
    + rewrite decide_False by congruence. done.
Qed.

Lemma session_update_routes m fields :
  session_of fields <> "" ->
  (forall q, queues (_handle_notification m (JStr "session/update") (JObj fields)) !! q =
             (fun items => items ++ replicate (registrations m (session_of fields) q)
                                              (JObj fields)) <$> queues m !! q) /\
  session_watchers (_handle_notification m (JStr "session/update") (JObj fields))
    = session_watchers m.
Proof.
  intros Hsid. unfold _handle_notification.
  cbn [Py.eq_str]. rewrite String.eqb_refl. cbn [negb].
  fold (session_of fields).
  destruct (String.eqb (session_of fields) "") eqn:He.
  { apply String.eqb_eq in He. contradiction. }
  mg_simpl. split; [|done].
  intros q. apply fold_put_nowait_lookup.
Qed.

(** X7.  A [session/update] notification is broadcast: every queue
    gets the payload appended once for each time it is registered for
    the session the payload names, so queues of other sessions are
    untouched; the registry and the session mapping do not change. *)
Theorem session_update_is_broadcast :
  forall (m : manager) (fields : list (string * json)),
    session_of fields <> "" ->
    let m' := _handle_notification m (JStr "session/update") (JObj fields) in
    (forall q, queues m' !! q =
               (fun items => items ++ replicate (registrations m (session_of fields) q)
                                                (JObj fields)) <$> queues m !! q) /\
    session_watchers m' = session_watchers m /\
    client_to_codex m' = client_to_codex m /\
    initialized m' = initialized m.
Proof.
  intros m fields Hsid m'. subst m'. unfold _handle_notification.
  cbn [Py.eq_str]. rewrite String.eqb_refl. cbn [negb].
  fold (session_of fields).
  destruct (String.eqb (session_of fields) "") eqn:He.
  { apply String.eqb_eq in He. contradiction. }
  mg_simpl. split; [|done].
  intros q. apply fold_put_nowait_lookup.
Qed.

Lemma session_update_is_broadcast_witness :
  let m := snd (stream_session None "s1" end_turn_script after_first_run) in
  queues (_handle_notification m (JStr "session/update") (message_chunk "a1" "more")) !! 1
  = (fun items => items ++ replicate (registrations m "a1" 1) (message_chunk "a1" "more"))
      <$> queues m !! 1.
Proof.
  intros m.
  assert (session_of [("sessionId", JStr "a1");
                      ("update", JObj [("sessionUpdate", JStr "agent_message_chunk");
                                       ("content", JObj [("type", JStr "text");
                                                         ("text", JStr "more")])])]
          <> "") as Hsid by (vm_compute; discriminate).
  destruct (session_update_is_broadcast m _ Hsid) as [H _].
  exact (H 1).
Defined.

(** X8.  A notification with another method, with a payload that is
    not an object, or whose [sessionId] is missing or the empty string
    changes nothing at all.  Any other [sessionId] is turned into text
    and names a session: null names the session "None". *)
Theorem other_notifications_are_ignored :
  forall (m : manager) (method params : json),
    (Py.eq_str method "session/update" = false \/
     Py.is_dict params = false \/
     (exists fields, params = JObj fields /\
        (Py.lookup "sessionId" fields = None \/
         Py.lookup "sessionId" fields = Some (JStr ""))) ->
     _handle_notification m method params = m) /\
    (forall fields q,
       params = JObj fields ->
       Py.lookup "sessionId" fields = Some JNull ->
       queues (_handle_notification m (JStr "session/update") params) !! q =
         (fun items => items ++ replicate (registrations m "None" q) params)
           <$> queues m !! q).
Proof.
  intros m method params. split.
  - intros [H|[H|(fields & -> & H)]]; unfold _handle_notification.
    + by rewrite H.
    + destruct (negb _); [done|]. by destruct params.
    + destruct (negb _); [done|].
      unfold Py.get_default. by destruct H as [-> | ->].
  - intros fields q -> Hnull.
    assert (session_of fields = "None") as Hs
      by (unfold session_of, Py.get_default; by rewrite Hnull).
    pose proof (session_update_routes m fields) as Hroute.
    rewrite Hs in Hroute. apply Hroute. discriminate.
Qed.

Lemma other_notifications_are_ignored_witness :
  _handle_notification after_first_run (JStr "session/update") (JObj [("update", JNull)])
  = after_first_run /\
  queues (_handle_notification after_first_run (JStr "session/update")
            (JObj [("sessionId", JNull)])) !! 0 =
    (fun items => items ++ replicate (registrations after_first_run "None" 0)
                                     (JObj [("sessionId", JNull)]))
      <$> queues after_first_run !! 0.
Proof.
  split.
  - destruct (other_notifications_are_ignored after_first_run (JStr "session/update")
                (JObj [("update", JNull)])) as [H _].
    apply H. right. right.
    exists [("update", JNull)]. split; [reflexivity|]. left. reflexivity.
  - destruct (other_notifications_are_ignored after_first_run (JStr "session/update")
                (JObj [("sessionId", JNull)])) as [_ H].
    exact (H [("sessionId", JNull)] 0 eq_refl eq_refl).
Defined.

Lemma payload_or_empty sid params :
  sid <> "" -> payload_for sid params -> Py.or params (JObj []) = params.
Proof.
  intros Hsid (fields & -> & Hs). destruct fields as [|kv fields]; [|reflexivity].
  exfalso. apply Hsid. rewrite <- Hs. reflexivity.
Qed.

Lemma read_update_lines sid (ps : list json) : forall st,
  stdout_task st = Some TaskRunning ->
  notification_handler st = true ->
  sid <> "" ->
  Forall (payload_for sid) ps ->
  read_lines st (update_line <$> ps) =
  set_handler_calls (handler_calls st ++ ((fun p => (JStr "session/update", p)) <$> ps)) st.
Proof.
  unfold read_lines.
  induction ps as [|p ps IH]; intros st Ha Hh Hsid Hall; cbn [fmap list_fmap fold_left].
  - rewrite app_nil_r. by destruct st.
  - inversion Hall as [|? ? Hp Hrest]; subst.
    assert (_read_stdout st (update_line p) =
            set_handler_calls (handler_calls st ++ [(JStr "session/update", p)]) st) as Hstep.
    { unfold _read_stdout, update_line. rewrite Ha. unfold on_message.
      change (Py.contains _ "id") with (Some false).
      change (Py.contains _ "method") with (Some true). cbv iota.
      unfold on_notification. rewrite Hh.
      change (Py.get _ "method") with (JStr "session/update").
      change (Py.get _ "params") with p.
      by rewrite (payload_or_empty sid p). }
    rewrite Hstep, IH by (st_simpl; done). st_simpl.
    by rewrite <- app_assoc.
Qed.

Lemma fold_handlers_queue sid q (ps : list json) : forall m,
  sid <> "" ->
  Forall (payload_for sid) ps ->
  registrations m sid q = 1 ->
  let m' := fold_left (fun m call => _handle_notification m (fst call) (snd call))
                      ((fun p => (JStr "session/update", p)) <$> ps) m in
  queues m' !! q = (fun items => items ++ ps) <$> queues m !! q /\
  session_watchers m' = session_watchers m.
Proof.
  induction ps as [|p ps IH]; intros m Hsid Hall Hreg; cbn [fmap list_fmap fold_left].
  - split; [|done]. destruct (queues m !! q); cbn; [by rewrite app_nil_r|done].
  - inversion Hall as [|? ? (fields & -> & Hs) Hrest]; subst. cbn [fst snd].
    assert (session_of fields <> "") as Hne by done.
    destruct (session_update_routes m fields Hne) as (Hq & Hw).
    destruct (IH (_handle_notification m (JStr "session/update") (JObj fields)))
      as [IHq IHw]; [done|done|unfold registrations; by rewrite Hw|].
    split; [|congruence].
    rewrite IHq, Hq, Hreg. destruct (queues m !! q); cbn; [|done].
    by rewrite <- app_assoc.
Qed.
Lemma pump_update_lines m sid q (ps : list json) :
  stdout_task (process m) = Some TaskRunning ->
  notification_handler (process m) = true ->
  handler_calls (process m) = [] ->
  sid <> "" ->
  Forall (payload_for sid) ps ->
  registrations m sid q = 1 ->
  queues (pump m (update_line <$> ps)) !! q = (fun items => items ++ ps) <$> queues m !! q /\
  session_watchers (pump m (update_line <$> ps)) = session_watchers m.
Proof.
  intros Ha Hh Hc Hsid Hall Hreg. unfold pump, run_handlers. mg_simpl.
  rewrite (read_update_lines sid) by done. st_simpl. rewrite Hc. cbn [app].
  match goal with
  | |- context [fold_left _ _ ?m0] =>
      destruct (fold_handlers_queue sid q ps m0 Hsid Hall Hreg) as [Hq Hw]
  end.
  split; [exact Hq|exact Hw].
Qed.

(** X9.  From the child's output to the subscribers: when the reader
    handles a run of [session/update] lines for one session, a queue
    registered once for that session receives their payloads after
    what it already held, in the order the child wrote them, and the
    registry is unchanged. *)
Theorem updates_reach_subscriber_in_order :
  forall (m : manager) (sid : string) (q : nat) (ps : list json),
    stdout_task (process m) = Some TaskRunning ->
    notification_handler (process m) = true ->
    handler_calls (process m) = [] ->
    sid <> "" ->
    Forall (payload_for sid) ps ->
    registrations m sid q = 1 ->
    queues (pump m (update_line <$> ps)) !! q = (fun items => items ++ ps) <$> queues m !! q /\
    session_watchers (pump m (update_line <$> ps)) = session_watchers m.
Proof. intros. by apply (pump_update_lines m sid q ps). Qed.

Lemma detach_watchers_congr m m' s q :
  session_watchers m = session_watchers m' ->
  session_watchers (_detach_watcher m s q) = session_watchers (_detach_watcher m' s q).
Proof.
  intros H. unfold _detach_watcher. rewrite H.
  destruct (session_watchers m' !! s) as [[|w ws]|]; try exact H.
  destruct (remove_first q (w :: ws)); mg_simpl; reflexivity.
Qed.

Lemma stream_session_opened token cid sc m cs q m1 :
  stream_session token cid sc m = (Returns (cs, q), m1) ->
  exists m3, same_registry m m3 /\ attach_watcher m3 cs = (q, m1).
Proof.
  unfold stream_session.
  set (effective := match token with Some t => Some t | None => _ end).
  unfold bind.
  pose proof (keeps_start effective (obeys_terminate sc) m) as H1.
  destruct (start effective (obeys_terminate sc) m) as [[r|e|] m0]; cbn [snd] in *;
    try discriminate.
  pose proof (keeps_ensure_initialized effective (on_initialize sc)
                (on_authenticate sc) m0) as H2.
  destruct (_ensure_initialized effective _ _ m0) as [[[]|e|] m2]; cbn [snd] in *;
    try discriminate.
  pose proof (keeps_ensure_session cid (on_session_new sc) m2) as H3.
  destruct (_ensure_session cid _ m2) as [[cs'|e|] m3]; cbn [snd] in *;
    try discriminate.
  destruct (attach_watcher m3 cs') as [q' m1'] eqn:Hatt.
  intros [= -> -> ->]. exists m3. split; [|exact Hatt].
  eapply same_registry_trans; [exact H1|eapply same_registry_trans; eauto].
Qed.

Lemma stream_session_queue token cid sc m cs q m1 :
  registry_sound m ->
  stream_session token cid sc m = (Returns (cs, q), m1) ->
  queues m1 !! q = Some [] /\
  registrations m1 cs q = 1 /\
  forall m2, session_watchers m2 = session_watchers m1 ->
             session_watchers (_detach_watcher m2 cs q) = session_watchers m.
Proof.
  intros Hs Hopen.
  destruct (stream_session_opened _ _ _ _ _ _ _ Hopen) as (m3 & Hreg & Hatt).
  assert (registry_sound m3) as Hs3 by (eapply same_registry_sound; eauto).
  pose proof (attach_then_detach m3 cs Hs3) as Hdetach.
  rewrite Hatt in Hdetach. cbn [fst snd] in Hdetach.
  assert (forall m2, session_watchers m2 = session_watchers m1 ->
                     session_watchers (_detach_watcher m2 cs q) = session_watchers m)
    as Hclose.
  { intros m2 H2. rewrite (detach_watchers_congr m2 m1 cs q H2), Hdetach. apply Hreg. }
  clear Hdetach.
  unfold attach_watcher in Hatt. injection Hatt as <- <-. mg_simpl.
  split; [|split; [|exact Hclose]].
  - rewrite lookup_app_r by done. by rewrite Nat.sub_diag.
  - unfold registrations. mg_simpl. rewrite lookup_insert_eq. cbn [default]. unfold id.
    rewrite count_occ_app. cbn [count_occ].
    destruct (Nat.eq_dec _ _) as [_|Hne]; [|done].
    rewrite (proj1 (count_occ_not_In Nat.eq_dec _ _)); [done|].
    rewrite <- list_elem_of_In.
    destruct (session_watchers m3 !! cs) as [ws|] eqn:Hw; cbn [default].
    + intros Hin. apply (Hs3 _ _ Hw) in Hin. lia.
    + apply not_elem_of_nil.
Qed.

(** X10.  A stream that opens gets a new, empty queue registered once
    for its agent session; cancelling the stream, at once or after any
    further output of the child, leaves the registry exactly as it was
    before the stream was opened. *)
Theorem stream_session_registers_then_cleans_up :
  forall (token : option string) (client_session_id : string) (sc : script)
         (m m1 : manager) (codex_session : string) (q : nat),
    registry_sound m ->
    stream_session token client_session_id sc m = (Returns (codex_session, q), m1) ->
    queues m1 !! q = Some [] /\
    registrations m1 codex_session q = 1 /\
    forall lines,
      session_watchers (stream_session_close codex_session q (pump m1 lines))
        = session_watchers m.
Proof.
  intros token cid sc m m1 cs q Hs Hopen.
  destruct (stream_session_queue _ _ _ _ _ _ _ Hs Hopen) as (Hq & Hreg & Hclose).
  split; [exact Hq|]. split; [exact Hreg|].
  intros lines. apply Hclose. apply pump_registry.
Qed.

Lemma stream_opened_after_first_run :
  stream_session None "s1" end_turn_script after_first_run
  = (Returns ("a1", 1), snd (stream_session None "s1" end_turn_script after_first_run)).
Proof. vm_compute. reflexivity. Qed.

Lemma stream_session_registers_then_cleans_up_witness :
  session_watchers
    (stream_session_close "a1" 1
       (pump (snd (stream_session None "s1" end_turn_script after_first_run))
             [update_line (message_chunk "a1" "more")]))
  = session_watchers after_first_run.
Proof.
  destruct (stream_session_registers_then_cleans_up None "s1" end_turn_script
              after_first_run _ "a1" 1 after_first_run_sound
              stream_opened_after_first_run) as (_ & _ & H).
  apply H.
Defined.

(** X11.  What a stream yields: the payloads the child writes for the
    stream's agent session arrive in its queue in the order written,
    and each [yield] hands out the oldest one. *)
Theorem stream_session_yields_updates_in_order :
  forall (token : option string) (client_session_id : string) (sc : script)
         (m m1 : manager) (codex_session : string) (q : nat) (ps : list json),
    registry_sound m ->
    stream_session token client_session_id sc m = (Returns (codex_session, q), m1) ->
    stdout_task (process m1) = Some TaskRunning ->
    notification_handler (process m1) = true ->
    handler_calls (process m1) = [] ->
    codex_session <> "" ->
    Forall (payload_for codex_session) ps ->
    queues (pump m1 (update_line <$> ps)) !! q = Some ps /\
    forall p rest, ps = p :: rest ->
      exists m2, stream_session_next q (pump m1 (update_line <$> ps)) = Some (p, m2) /\
                 queues m2 !! q = Some rest.
Proof.
  intros token cid sc m m1 cs q ps Hs Hopen Ha Hh Hc Hcs Hall.
  destruct (stream_session_queue _ _ _ _ _ _ _ Hs Hopen) as (Hq & Hreg & _).
  destruct (pump_update_lines m1 cs q ps Ha Hh Hc Hcs Hall Hreg) as [Hqueue _].
  rewrite Hq in Hqueue. cbn in Hqueue.
  split; [exact Hqueue|].
  intros p rest ->. unfold stream_session_next, take. rewrite Hqueue.
  eexists. split; [reflexivity|]. mg_simpl.
  apply list_lookup_insert_eq. by eapply lookup_lt_Some.
Qed.

Lemma message_chunk_payload sid text : payload_for sid (message_chunk sid text).
Proof. eexists. split; [reflexivity|reflexivity]. Qed.

Lemma stream_session_yields_updates_in_order_witness :
  queues (pump (snd (stream_session None "s1" end_turn_script after_first_run))
               (update_line <$> [message_chunk "a1" "one"; message_chunk "a1" "two"])) !! 1
  = Some [message_chunk "a1" "one"; message_chunk "a1" "two"].
Proof.
  assert (stdout_task (process (snd (stream_session None "s1" end_turn_script
                                       after_first_run))) = Some TaskRunning) as Ha
    by (vm_compute; reflexivity).
  assert (notification_handler (process (snd (stream_session None "s1" end_turn_script
                                                after_first_run))) = true) as Hh
    by (vm_compute; reflexivity).
  assert (handler_calls (process (snd (stream_session None "s1" end_turn_script
                                         after_first_run))) = []) as Hc
    by (vm_compute; reflexivity).
  assert ("a1" <> "") as Hne by discriminate.
  assert (Forall (payload_for "a1") [message_chunk "a1" "one"; message_chunk "a1" "two"])
    as Hall by (repeat constructor; apply message_chunk_payload).
  destruct (stream_session_yields_updates_in_order None "s1" end_turn_script
              after_first_run _ "a1" 1 _ after_first_run_sound
              stream_opened_after_first_run Ha Hh Hc Hne Hall) as [H _].
  exact H.
Defined.

Lemma updates_reach_subscriber_in_order_witness :
  let m := snd (stream_session None "s1" end_turn_script after_first_run) in
  queues (pump m (update_line <$> [message_chunk "a1" "one"; tool_call_update "a1"])) !! 1
  = (fun items => items ++ [message_chunk "a1" "one"; tool_call_update "a1"])
      <$> queues m !! 1.
Proof.
  intros m.
  assert (stdout_task (process m) = Some TaskRunning) as Ha by (vm_compute; reflexivity).
  assert (notification_handler (process m) = true) as Hh by (vm_compute; reflexivity).
  assert (handler_calls (process m) = []) as Hc by (vm_compute; reflexivity).
  assert ("a1" <> "") as Hne by discriminate.
  assert (Forall (payload_for "a1") [message_chunk "a1" "one"; tool_call_update "a1"])
    as Hall.
  { repeat constructor; [apply message_chunk_payload|].
    eexists. split; reflexivity. }
  assert (registrations m "a1" 1 = 1) as Hreg by (vm_compute; reflexivity).
  destruct (updates_reach_subscriber_in_order m "a1" 1 _ Ha Hh Hc Hne Hall Hreg) as [H _].
  exact H.
Defined.

(** ** Sessions and the handshake *)

Lemma same_sessions_refl m : same_sessions m m.
Proof. by repeat split. Qed.

Lemma same_sessions_trans m1 m2 m3 :
  same_sessions m1 m2 -> same_sessions m2 m3 -> same_sessions m1 m3.
Proof. intros (?&?&?&?) (?&?&?&?). repeat split; congruence. Qed.

Lemma handle_notification_sessions m method params :
  same_sessions m (_handle_notification m method params).
Proof.
  unfold _handle_notification.
  destruct (negb _); [apply same_sessions_refl|].
  destruct params; try apply same_sessions_refl.
  destruct (String.eqb _ ""); [apply same_sessions_refl|]. by repeat split.
Qed.

Lemma fold_handlers_sessions (calls : list (json * json)) : forall m,
  same_sessions m
    (fold_left (fun m call => _handle_notification m (fst call) (snd call)) calls m).
Proof.
  induction calls as [|c calls IH]; intros m; cbn [fold_left].
  - apply same_sessions_refl.
  - eapply same_sessions_trans; [apply handle_notification_sessions|apply IH].
Qed.

Lemma pump_sessions m lines : same_sessions m (pump m lines).
Proof.
  unfold pump, run_handlers.
  eapply same_sessions_trans; [|apply fold_handlers_sessions]. by repeat split.
Qed.

Lemma call_sessions method params ex m :
  same_sessions m (snd (call method params ex m)).
Proof.
  unfold call.
  destruct (request (process m) method params (write ex)) as [[e|[rid fut]] p].
  - by repeat split.
  - assert (same_sessions m (pump (set_process p m) (lines ex))) as H.
    { eapply same_sessions_trans; [|apply pump_sessions]. by repeat split. }
    destruct (await _ fut) as [[e|v]|]; exact H.
Qed.

(** X12.  The session mapping is a cache.  When [_ensure_session]
    returns, the client identifier maps to the session returned, no
    other entry has changed, and asking again returns the same session
    without touching anything; when it raises or is left waiting, the
    mapping is as it was. *)
Theorem ensure_session_caches_the_agent_session :
  forall (client_session_id : string) (ex : exchange) (m m' : manager)
         (o : outcome string),
    _ensure_session client_session_id ex m = (o, m') ->
    match o with
    | Returns s =>
        client_to_codex m' !! client_session_id = Some s /\
        (forall c, c <> client_session_id ->
                   client_to_codex m' !! c = client_to_codex m !! c) /\
        (forall ex', _ensure_session client_session_id ex' m' = (Returns s, m'))
    | _ => client_to_codex m' = client_to_codex m
    end.
Proof.
  intros cid ex m m' o. unfold _ensure_session at 1.
  destruct (client_to_codex m !! cid) as [s|] eqn:Hm.
  - intros [= <- <-]. split; [exact Hm|]. split; [done|].
    intros ex'. unfold _ensure_session. by rewrite Hm.
  - unfold bind.
    pose proof (call_sessions "session/new"
                  (JObj [("cwd", JStr (workspace m)); ("mcpServers", JArr [])]) ex m)
      as (_ & Hc & _).
    destruct (call "session/new" _ ex m) as [[response|e|] m1]; cbn [snd] in Hc;
      try (intros [= <- <-]; exact Hc).
    destruct response as [| | | | | |fields]; try (intros [= <- <-]; exact Hc).
    destruct (negb (Py.truthy (Py.get fields "sessionId")));
      intros [= <- <-]; [exact Hc|]. mg_simpl.
    split; [apply lookup_insert_eq|]. split.
    + intros c Hne. rewrite lookup_insert_ne by done. by rewrite Hc.
    + intros ex'. unfold _ensure_session. mg_simpl. by rewrite lookup_insert_eq.
Qed.

Lemma ensure_session_caches_the_agent_session_witness :
  client_to_codex
    (snd (_ensure_session "s2"
            (Exchange Written [response_line (JStr "4") (JObj [("sessionId", JStr "a2")])])
            after_first_run)) !! "s2" = Some "a2".
Proof.
  assert (_ensure_session "s2"
            (Exchange Written [response_line (JStr "4") (JObj [("sessionId", JStr "a2")])])
            after_first_run
          = (Returns "a2",
             snd (_ensure_session "s2"
                    (Exchange Written
                       [response_line (JStr "4") (JObj [("sessionId", JStr "a2")])])
                    after_first_run))) as H by (vm_compute; reflexivity).
  apply (ensure_session_caches_the_agent_session _ _ _ _ _ H).
Defined.

(** X13.  The handshake flag is set exactly by a handshake that
    completed.  After [_ensure_initialized] the flag is set if and only
    if the call returned; a call that finds it set returns at once and
    changes nothing; and a handshake carried out with a token completes
    only if the agent advertised "openai-api-key". *)
Theorem handshake_flag_follows_completed_handshake :
  forall (token : option string) (ex1 ex2 : exchange) (m m' : manager) (o : outcome unit),
    _ensure_initialized token ex1 ex2 m = (o, m') ->
    (initialized m' = true <-> o = Returns tt) /\
    (initialized m = true -> m' = m) /\
    client_to_codex m' = client_to_codex m /\
    (initialized m = false -> o = Returns tt -> token_given token = true ->
     advertises_api_key m' = true) /\
    (o = Returns tt -> forall token' ex1' ex2',
       _ensure_initialized token' ex1' ex2' m' = (Returns tt, m')).
Proof.
  intros token ex1 ex2 m m' o. unfold _ensure_initialized at 1.
  destruct (initialized m) eqn:Hinit.
  - intros [= <- <-]. repeat split; try done.
    intros _ token' ex1' ex2'. unfold _ensure_initialized. by rewrite Hinit.
  - assert (forall o m', initialized m' = false -> o <> Returns tt ->
              client_to_codex m' = client_to_codex m ->
              (initialized m' = true <-> o = Returns tt) /\
              (false = true -> m' = m) /\
              client_to_codex m' = client_to_codex m /\
              (false = false -> o = Returns tt -> token_given token = true ->
               advertises_api_key m' = true) /\
              (o = Returns tt -> forall token' ex1' ex2',
                 _ensure_initialized token' ex1' ex2' m' = (Returns tt, m'))) as Hfail.
    { intros o0 m0 H0 Hne Hc. repeat split; try done; congruence. }
    assert (forall m', initialized m' = true ->
              client_to_codex m' = client_to_codex m ->
              (token_given token = true -> advertises_api_key m' = true) ->
              (initialized m' = true <-> Returns tt = Returns tt) /\
              (false = true -> m' = m) /\
              client_to_codex m' = client_to_codex m /\
              (false = false -> Returns tt = Returns tt -> token_given token = true ->
               advertises_api_key m' = true) /\
              (Returns tt = Returns tt -> forall token' ex1' ex2',
                 _ensure_initialized token' ex1' ex2' m' = (Returns tt, m'))) as Hok.
    { intros m0 H0 Hc Hadv. repeat split; try done; auto.
      intros _ token' ex1' ex2'. unfold _ensure_initialized. by rewrite H0. }
    unfold bind at 1.
    pose proof (call_sessions "initialize" initialize_params ex1 m) as (Hi1 & Hc1 & _).
    destruct (call "initialize" initialize_params ex1 m) as [[init_result|e|] m1];
      cbn [snd] in *;
      try (intros [= <- <-]; apply Hfail; [congruence|discriminate|done]).
    destruct (auth_method_ids init_result) as [e|ids];
      [intros [= <- <-]; apply Hfail; [congruence|discriminate|done]|].
    destruct (token_given token) eqn:Htok.
    + mg_simpl.
      destruct (existsb _ ids) eqn:Hadv; cbn [negb];
        [|intros [= <- <-]; apply Hfail; mg_simpl; [congruence|discriminate|done]].
      unfold bind.
      pose proof (call_sessions "authenticate" (JObj [("methodId", JStr "openai-api-key")])
                    ex2 (set_auth_methods ids m1)) as (Hi2 & Hc2 & Ha2 & _).
      destruct (call "authenticate" _ ex2 (set_auth_methods ids m1)) as [[v|e|] m2];
        cbn [snd] in *; mg_simpl;
        try (intros [= <- <-]; apply Hfail; [congruence|discriminate|congruence]).
      intros [= <- <-]. apply Hok; mg_simpl; [done|congruence|].
      intros _. unfold advertises_api_key. mg_simpl. by rewrite Ha2.
    + intros [= <- <-]. apply Hok; mg_simpl; [done|congruence|discriminate].
Qed.

Lemma handshake_flag_follows_completed_handshake_witness :
  initialized (snd (_ensure_initialized (Some "sk-1") (fst key_handshake) (snd key_handshake)
                      started_with_key)) = true /\
  advertises_api_key (snd (_ensure_initialized (Some "sk-1") (fst key_handshake)
                             (snd key_handshake) started_with_key)) = true.
Proof.
  assert (_ensure_initialized (Some "sk-1") (fst key_handshake) (snd key_handshake)
            started_with_key
          = (Returns tt,
             snd (_ensure_initialized (Some "sk-1") (fst key_handshake) (snd key_handshake)
                    started_with_key))) as H by (vm_compute; reflexivity).
  destruct (handshake_flag_follows_completed_handshake _ _ _ _ _ _ H)
    as (Hflag & _ & _ & Hadv & _).
  split; [by apply Hflag|].
  apply Hadv; [vm_compute; reflexivity|reflexivity|reflexivity].
Defined.


(** ** The prompt and its result *)

Lemma blocks_of_parts_shaped (parts : list json) : forall blocks,
  forallb part_typed parts = true ->
  blocks_of_parts parts blocks =
  inr (blocks ++ ((fun part => text_block (text_of_part part))
                    <$> filter (fun part => usable_text_part part = true) parts)).
Proof.
  induction parts as [|part parts IH]; intros blocks; cbn [forallb blocks_of_parts].
  - intros _. by rewrite app_nil_r.
  - intros H. apply andb_true_iff in H as [Htyped Hrest].
    rewrite filter_cons.
    destruct part as [| | | | | |p];
      try (rewrite decide_False by done; by apply IH).
    cbn [part_typed usable_text_part] in *. rewrite Htyped. cbn [negb].
    destruct (Py.eq_str _ "text/plain" || Py.eq_str _ "text"); cbn [negb andb].
    + destruct (Py.truthy _) eqn:Ht.
      * rewrite decide_True by done. rewrite IH by done.
        cbn [fmap list_fmap text_of_part]. by rewrite <- app_assoc.
      * rewrite decide_False by done. by apply IH.
    + rewrite decide_False by done. by apply IH.
Qed.

Lemma blocks_of_messages_shaped (messages : list json) : forall blocks,
  forallb message_shaped messages = true ->
  blocks_of_messages messages blocks =
  inr (blocks ++ ((fun part => text_block (text_of_part part))
                    <$> filter (fun part => usable_text_part part = true)
                               (all_parts messages))).
Proof.
  induction messages as [|message messages IH]; intros blocks;
    cbn [forallb blocks_of_messages all_parts flat_map].
  - intros _. by rewrite app_nil_r.
  - intros H. apply andb_true_iff in H as [Hmsg Hrest].
    unfold message_shaped in Hmsg.
    destruct message as [| | | | | |fields]; try discriminate.
    unfold parts_of in *. destruct (Py.iter _) as [parts|]; [|discriminate].
    cbn [default]. rewrite blocks_of_parts_shaped by done.
    rewrite IH by done. fold (all_parts messages).
    by rewrite filter_app, fmap_app, app_assoc.
Qed.

Lemma blocks_of_parts_blocks (parts : list json) : forall blocks result,
  blocks_of_parts parts blocks = inr result ->
  exists added, result = blocks ++ added /\ Forall is_text_block added.
Proof.
  induction parts as [|part parts IH]; intros blocks result; cbn [blocks_of_parts].
  - intros [= <-]. exists []. by rewrite app_nil_r.
  - destruct part as [| | | | | |p]; try apply IH.
    destruct (negb (Py.hashable _)); [discriminate|].
    destruct (negb _); [apply IH|].
    destruct (Py.truthy _) eqn:Ht; [|apply IH].
    intros H. apply IH in H as (added & -> & Hall).
    eexists (_ :: added). split; [by rewrite <- app_assoc|].
    constructor; [|done]. eexists. split; [reflexivity|exact Ht].
Qed.

Lemma blocks_of_messages_blocks (messages : list json) : forall blocks result,
  blocks_of_messages messages blocks = inr result ->
  exists added, result = blocks ++ added /\ Forall is_text_block added.
Proof.
  induction messages as [|message messages IH]; intros blocks result;
    cbn [blocks_of_messages].
  - intros [= <-]. exists []. by rewrite app_nil_r.
  - destruct message as [| | | | | |fields]; try discriminate.
    destruct (Py.iter _) as [parts|]; [|discriminate].
    destruct (blocks_of_parts parts blocks) as [e|blocks'] eqn:Hparts; [discriminate|].
    apply blocks_of_parts_blocks in Hparts as (added1 & -> & Hall1).
    intros H. apply IH in H as (added2 & -> & Hall2).
    exists (added1 ++ added2). split; [by rewrite app_assoc|].
    by apply Forall_app.
Qed.

(** X14.  The prompt is the usable text of the messages, in order.
    For messages of the documented shape, [_build_prompt_payload]
    returns one text block for each usable part, in the order of the
    messages and of their parts, and raises [ValueError] exactly when
    there is none.  Whatever the messages, a prompt it returns is not
    empty and holds only text blocks whose text is not empty. *)
Theorem prompt_payload_is_the_usable_text :
  forall messages : list json,
    (forallb message_shaped messages = true ->
     _build_prompt_payload messages =
       match (fun part => text_block (text_of_part part))
               <$> filter (fun part => usable_text_part part = true) (all_parts messages)
       with
       | [] => inl (ValueError "Prompt payload did not contain any plain text content")
       | blocks => inr blocks
       end) /\
    (forall blocks, _build_prompt_payload messages = inr blocks ->
                    blocks <> [] /\ Forall is_text_block blocks).
Proof.
  intros messages. split.
  - intros Hshape. unfold _build_prompt_payload.
    rewrite blocks_of_messages_shaped by done. cbn [app].
    by destruct (_ <$> _).
  - intros blocks. unfold _build_prompt_payload.
    destruct (blocks_of_messages messages []) as [e|result] eqn:Hb; [discriminate|].
    apply blocks_of_messages_blocks in Hb as (added & -> & Hall). cbn [app] in *.
    destruct added; [discriminate|]. by intros [= <-].
Qed.

Lemma prompt_payload_is_the_usable_text_witness :
  _build_prompt_payload (hi_messages ++ image_messages) = inr [text_block (JStr "hi")].
Proof.
  destruct (prompt_payload_is_the_usable_text (hi_messages ++ image_messages)) as [H _].
  rewrite H by (vm_compute; reflexivity).
  vm_compute. reflexivity.
Defined.
Lemma len_append (a b : string) : Py.len (a +:+ b) = Py.len a + Py.len b.
Proof.
  induction a as [|c a IH]; [reflexivity|].
  change (String c a +:+ b) with (String c (a +:+ b)).
  cbn [Py.len]. rewrite IH. lia.
Qed.

Lemma token_count_join (parts : list string) :
  foldr (fun part n => Py.len part + n) 0 parts = Py.len (join parts).
Proof.
  induction parts as [|p parts IH]; cbn [foldr join fold_right]; [done|].
  rewrite len_append. unfold join in IH. by rewrite IH.
Qed.

Lemma text_fragment_nonempty n text : text_fragment n = Some text -> text <> "".
Proof.
  unfold text_fragment. intros H.
  repeat match type of H with
         | match ?x with _ => _ end = _ => destruct x eqn:?; try discriminate
         | (if ?b then _ else _) = _ => destruct b eqn:?; try discriminate
         end.
  injection H as <-.
  repeat match goal with
         | Hb : (_ && _) = true |- _ => apply andb_true_iff in Hb as [? ?]
         end.
  intros ->. discriminate.
Qed.

(** X15.  The size metric is the size of the output.  The output of
    an accumulator is empty, and then the token count is zero, or it
    is one assistant message with a single plain-text part, and then
    the token count is the number of code points of the content of
    that part, which is not empty. *)
Theorem token_count_is_length_of_output :
  forall ns : list json,
    (build_output (ingest_all new_accumulator ns) = [] /\
     assistant_token_count (ingest_all new_accumulator ns) = 0) \/
    (exists content : string,
       content <> "" /\
       build_output (ingest_all new_accumulator ns) =
         [JObj [("role", JStr "assistant");
                ("parts", JArr [JObj [("content_type", JStr "text/plain");
                                      ("content_encoding", JStr "plain");
                                      ("content", JStr content)]])]] /\
       assistant_token_count (ingest_all new_accumulator ns) = Py.len content).
Proof.
  intros ns. unfold assistant_token_count, build_output.
  pose proof (ingest_all_parts ns new_accumulator) as H.
  cbn [new_accumulator assistant_text_parts app] in H. rewrite H.
  destruct (omap text_fragment ns) as [|text rest] eqn:Hf; [by left|].
  right. exists (join (text :: rest)). split; [|split].
  - assert (text ∈ omap text_fragment ns) as Hin by (rewrite Hf; apply list_elem_of_here).
    apply list_elem_of_omap in Hin as (n & _ & Hn).
    apply text_fragment_nonempty in Hn.
    cbn [join fold_right]. destruct text; [done|discriminate].
  - reflexivity.
  - apply token_count_join.
Qed.

(** [len] counts code points, not bytes: a fragment holding the one
    letter U+00E9, two bytes in UTF-8, counts for one. *)
Example token_count_counts_code_points :
  assistant_token_count
    (ingest new_accumulator
       (message_chunk "a1" (String (Ascii.ascii_of_N 195)
                              (String (Ascii.ascii_of_N 169) EmptyString))))
  = 1.
Proof. reflexivity. Qed.

Lemma text_fragment_recorded n text : text_fragment n = Some text -> recorded n = true.
Proof.
  unfold text_fragment, recorded. destruct n as [| | | | | |fields]; try discriminate.
  destruct (Py.get fields "update"); try discriminate. reflexivity.
Qed.

Lemma ingest_consistent acc n :
  fragments_match_events acc -> fragments_match_events (ingest acc n).
Proof.
  intros [Hp He]. split.
  - rewrite ingest_parts, ingest_events, omap_app, Hp. f_equal.
    destruct (recorded n) eqn:Hr.
    + cbn. by destruct (text_fragment n).
    + destruct (text_fragment n) as [text|] eqn:Ht; [|done].
      apply text_fragment_recorded in Ht. congruence.
  - rewrite ingest_events. apply Forall_app. split; [done|].
    destruct (recorded n) eqn:Hr; by repeat constructor.
Qed.

Lemma ingest_all_consistent (ns : list json) : forall acc,
  fragments_match_events acc -> fragments_match_events (ingest_all acc ns).
Proof.
  unfold ingest_all. induction ns as [|n ns IH]; intros acc H; cbn [fold_left]; [done|].
  by apply IH, ingest_consistent.
Qed.

Lemma take_registry q m item m' :
  take q m = Some (item, m') -> session_watchers m' = session_watchers m.
Proof.
  unfold take. destruct (queues m !! q) as [[|x rest]|]; try discriminate.
  by intros [= _ <-].
Qed.

Lemma race_keeps (turns : list (list stdout_line)) : forall response q acc m,
  fragments_match_events acc ->
  let '(_, _, acc', m') := race turns response q acc m in
  fragments_match_events acc' /\ session_watchers m' = session_watchers m.
Proof.
  induction turns as [|turn turns IH]; intros response q acc m Hacc; cbn [race].
  - by destruct (response_done response m) as [[e|v]|].
  - pose proof (pump_registry m turn) as [Hpump _].
    destruct (take q (pump m turn)) as [[notification m1]|] eqn:Htake.
    + apply take_registry in Htake.
      pose proof (ingest_consistent acc notification Hacc) as Hacc1.
      destruct (response_done response m1) as [[e|v]|]; try (split; [done|congruence]).
      specialize (IH response q (ingest acc notification) m1 Hacc1).
      destruct (race turns response q (ingest acc notification) m1) as [[[o g] acc'] m'].
      destruct IH as [IH1 IH2]. split; [done|congruence].
    + destruct (response_done response (pump m turn)) as [[e|v]|]; try (split; done).
      specialize (IH response q acc (pump m turn) Hacc).
      destruct (race turns response q acc (pump m turn)) as [[[o g] acc'] m'].
      destruct IH as [IH1 IH2]. split; [done|congruence].
Qed.

Lemma drain_keeps q acc m :
  fragments_match_events acc ->
  fragments_match_events (fst (drain q acc m)) /\
  session_watchers (snd (drain q acc m)) = session_watchers m.
Proof.
  intros Hacc. unfold drain. destruct (queues m !! q) as [items|]; cbn [fst snd].
  - split; [by apply ingest_all_consistent|done].
  - by split.
Qed.


Lemma detach_after_attach m1 cs q m2 mx :
  registry_sound m1 ->
  attach_watcher m1 cs = (q, m2) ->
  session_watchers mx = session_watchers m2 ->
  session_watchers (_detach_watcher mx cs q) = session_watchers m1.
Proof.
  intros Hs Hatt Hx. rewrite (detach_watchers_congr mx m2 cs q Hx).
  pose proof (attach_then_detach m1 cs Hs) as H. rewrite Hatt in H. cbn [fst snd] in H.
  by rewrite H.
Qed.

(** X17.  [run_prompt] never leaves its queue behind.  For messages of
    the documented shape, once the agent session is resolved, however
    the call ends (a result, [ValueError], an error of the agent, a
    closed process), the registry is exactly what it was before the
    queue was attached. *)
Theorem run_prompt_always_detaches_its_queue :
  forall (token client_session_id : option string) (messages : list json)
         (sc : script) (m m1 m' : manager) (codex_session : string)
         (o : outcome RunResult),
    registry_sound m ->
    forallb message_shaped messages = true ->
    run_prompt_session token client_session_id sc m = (Returns codex_session, m1) ->
    run_prompt token client_session_id messages sc m = (o, m') ->
    o <> Hangs ->
    session_watchers m' = session_watchers m1.
Proof.
  intros token cid messages sc m m1 m' cs o Hs Hshape Hsession.
  pose proof (run_prompt_session_sound token cid sc m Hs) as Hs1.
  rewrite Hsession in Hs1. cbn [snd] in Hs1.
  unfold run_prompt. rewrite Hsession.
  destruct (attach_watcher m1 cs) as [q m2] eqn:Hatt.
  pose proof (fun mx => detach_after_attach m1 cs q m2 mx Hs1 Hatt) as Hdetach.
  unfold _build_prompt_payload. rewrite blocks_of_messages_shaped by done. cbn [app].
  destruct (_ <$> _) as [|block blocks].
  { intros [= <- <-] _. by apply Hdetach. }
  assert (fragments_match_events new_accumulator) as Hnew by (split; [done|constructor]).
  destruct (request (process m2) "session/prompt" _ (prompt_write sc))
    as [[e|[rid fut]] p];
    (match goal with
     | |- context [race ?a ?b ?c ?d ?e] =>
         pose proof (race_keeps a b c d e Hnew) as Hrace;
         destruct (race a b c d e) as [[[[prompt_response|e'|] getter] acc] m3]
     end;
     destruct Hrace as [Hacc Hreg]; mg_simpl;
     try (intros [= <- _] Hne; contradiction);
     try (destruct (stop_reason_of prompt_response));
     destruct getter;
     try (match goal with
          | |- context [drain ?a ?b ?c] =>
              pose proof (drain_keeps a b c Hacc) as [_ Hdrain];
              destruct (drain a b c) as [acc' m4]
          end);
     cbn [snd] in *;
     intros [= <- <-] _;
     rewrite ?Hdrain; apply Hdetach;
     rewrite ?(proj1 (pump_registry _ _)); exact Hreg).
Qed.

Lemma run_prompt_always_detaches_its_queue_witness :
  session_watchers after_first_run = session_watchers (snd (run_prompt_session None (Some "s1")
       end_turn_script (new_manager "/workspace"))).
Proof.
  assert (run_prompt_session None (Some "s1") end_turn_script (new_manager "/workspace")
          = (Returns "a1", snd (run_prompt_session None (Some "s1") end_turn_script
                                  (new_manager "/workspace")))) as Hsession
    by (vm_compute; reflexivity).
  assert (forallb message_shaped hi_messages = true) as Hshape by (vm_compute; reflexivity).
  apply (run_prompt_always_detaches_its_queue None (Some "s1") hi_messages end_turn_script
           (new_manager "/workspace") _ after_first_run "a1" (Returns hello_result)
           (new_manager_sound "/workspace") Hshape Hsession end_to_end_run).
  discriminate.
Defined.

Lemma take_same_registry q m item m' :
  take q m = Some (item, m') -> same_registry m m'.
Proof.
  unfold take. destruct (queues m !! q) as [[|x rest]|]; try discriminate.
  intros [= _ <-]. split; mg_simpl; [done|apply length_insert].
Qed.

Lemma race_same_registry (turns : list (list stdout_line)) : forall response q acc m,
  same_registry m (snd (race turns response q acc m)).
Proof.
  induction turns as [|turn turns IH]; intros response q acc m; cbn [race].
  - destruct (response_done response m) as [[e|v]|]; apply same_registry_refl.
  - pose proof (pump_registry m turn) as Hpump.
    destruct (take q (pump m turn)) as [[notification m1]|] eqn:Htake.
    + apply take_same_registry in Htake.
      assert (same_registry m m1) as H1 by (eapply same_registry_trans; eauto).
      destruct (response_done response m1) as [[e|v]|]; cbn [snd]; try exact H1.
      eapply same_registry_trans; [exact H1|apply IH].
    + destruct (response_done response (pump m turn)) as [[e|v]|]; cbn [snd];
        try exact Hpump.
      eapply same_registry_trans; [exact Hpump|apply IH].
Qed.

Lemma drain_same_registry q acc m : same_registry m (snd (drain q acc m)).
Proof.
  unfold drain. destruct (queues m !! q); cbn [snd]; [|apply same_registry_refl].
  split; mg_simpl; [done|apply length_insert].
Qed.

Lemma run_prompt_sound token cid messages sc m :
  registry_sound m -> registry_sound (snd (run_prompt token cid messages sc m)).
Proof.
  intros Hs. pose proof (run_prompt_session_sound token cid sc m Hs) as Hs1.
  unfold run_prompt.
  destruct (run_prompt_session token cid sc m) as [[cs|e|] m1]; cbn [snd] in *;
    try exact Hs1.
  pose proof (attach_watcher_sound m1 cs Hs1) as Hs2.
  destruct (attach_watcher m1 cs) as [q m2]. cbn [snd] in Hs2.
  destruct (_build_prompt_payload messages) as [[]|payload]; cbn [snd as_value_error];
    try exact Hs2; try (by apply detach_watcher_sound).
  destruct (request (process m2) "session/prompt" _ (prompt_write sc))
    as [[e|[rid fut]] p];
    (match goal with
     | |- context [race ?a ?b ?c ?d ?e] =>
         pose proof (race_same_registry a b c d e) as Hrace;
         destruct (race a b c d e) as [[[[prompt_response|e'|] getter] acc] m3]
     end;
     cbn [snd] in Hrace;
     assert (registry_sound m3) as Hs3
       by (eapply same_registry_sound; [exact Hrace|exact Hs2]);
     try (destruct (stop_reason_of prompt_response));
     try exact Hs3;
     destruct getter;
     try (match goal with
          | |- context [drain ?a ?b ?c] =>
              pose proof (drain_same_registry a b c) as Hdrain;
              destruct (drain a b c) as [acc' m4]
          end);
     cbn [snd] in *;
     try (eapply same_registry_sound; [exact Hdrain|]);
     apply detach_watcher_sound;
     try (eapply same_registry_sound; [apply pump_registry|]);
     exact Hs3).
Qed.

(** X22.  The registry of a new orchestrator is sound, and every
    operation keeps it so: a prompt however it ends, a stream opened,
    a stream cancelled, the output of the child handled in between.
    So no entry is ever an empty list and every handle names a queue
    that exists. *)
Theorem orchestrator_keeps_registry_sound :
  (forall w, registry_sound (new_manager w)) /\
  forall m : manager,
    registry_sound m ->
    (forall token cid messages sc, registry_sound (snd (run_prompt token cid messages sc m))) /\
    (forall token cid sc, registry_sound (snd (stream_session token cid sc m))) /\
    (forall cs q, registry_sound (stream_session_close cs q m)) /\
    (forall lines, registry_sound (pump m lines)).
Proof.
  split; [apply new_manager_sound|].
  intros m Hs. split; [|split; [|split]].
  - intros. by apply run_prompt_sound.
  - intros. by apply stream_session_sound.
  - intros. by apply detach_watcher_sound.
  - intros lines. eapply same_registry_sound; [apply pump_registry|exact Hs].
Qed.

Lemma orchestrator_keeps_registry_sound_witness :
  registry_sound (snd (stream_session None "s1" end_turn_script after_first_run)).
Proof.
  destruct orchestrator_keeps_registry_sound as [_ H].
  destruct (H after_first_run after_first_run_sound) as (_ & Hstream & _).
  exact (Hstream None "s1" end_turn_script).
Defined.

(** ** The HTTP adapter *)

Lemma rstrip_cons a s :
  Text.rstrip (String a s) =
  match Text.rstrip s with
  | EmptyString => if Text.is_space a then EmptyString else String a EmptyString
  | r => String a r
  end.
Proof. reflexivity. Qed.

Lemma rstrip_idempotent s : Text.rstrip (Text.rstrip s) = Text.rstrip s.
Proof.
  induction s as [|a s IH]; [reflexivity|]. rewrite rstrip_cons.
  destruct (Text.rstrip s) as [|b r] eqn:Hr.
  - destruct (Text.is_space a) eqn:Ha; [reflexivity|].
    rewrite rstrip_cons. cbn [Text.rstrip]. by rewrite Ha.
  - rewrite rstrip_cons, IH. reflexivity.
Qed.

Lemma lstrip_head s :
  match Text.lstrip s with
  | EmptyString => True
  | String a _ => Text.is_space a = false
  end.
Proof.
  induction s as [|a s IH]; [done|]. cbn [Text.lstrip].
  destruct (Text.is_space a) eqn:Ha; [exact IH|exact Ha].
Qed.

Lemma rstrip_keeps_head a s :
  Text.is_space a = false -> exists r, Text.rstrip (String a s) = String a r.
Proof.
  intros Ha. rewrite rstrip_cons. destruct (Text.rstrip s); rewrite ?Ha; eauto.
Qed.

Lemma strip_idempotent s : Text.strip (Text.strip s) = Text.strip s.
Proof.
  unfold Text.strip. pose proof (lstrip_head s) as Hh.
  destruct (Text.lstrip s) as [|a u]; [reflexivity|].
  destruct (rstrip_keeps_head a u Hh) as [r Hr]. rewrite Hr.
  cbn [Text.lstrip]. rewrite Hh, <- Hr. apply rstrip_idempotent.
Qed.

Lemma or_none_some s t : Text.or_none s = Some t -> s = t /\ t <> "".
Proof.
  unfold Text.or_none. destruct (String.eqb s "") eqn:He; [discriminate|].
  intros [= <-]. split; [done|]. by apply String.eqb_neq.
Qed.

Lemma bearer_token_clean header token :
  _bearer_token header = Some token -> token <> "" /\ Text.strip token = token.
Proof.
  unfold _bearer_token. destruct header as [h|]; [|discriminate].
  destruct (String.eqb h ""); [discriminate|].
  destruct (Py.is_prefix "bearer " (Text.lower h));
    intros H; apply or_none_some in H as [<- Hne]; (split; [done|apply strip_idempotent]).
Qed.

Lemma lower_app a b : Text.lower (a +:+ b) = Text.lower a +:+ Text.lower b.
Proof.
  induction a as [|c a IH]; [reflexivity|].
  change (Text.lower (String c (a +:+ b))
          = String (Text.lower_char c) (Text.lower a +:+ Text.lower b)).
  cbn [Text.lower]. by rewrite IH.
Qed.

Lemma lower_length a : String.length (Text.lower a) = String.length a.
Proof. induction a as [|c a IH]; simpl; [done|]. by f_equal. Qed.

Lemma is_prefix_app p s : Py.is_prefix p (p +:+ s) = true.
Proof.
  induction p as [|c p IH]; [reflexivity|].
  change (Py.is_prefix (String c p) (String c (p +:+ s)) = true).
  cbn [Py.is_prefix]. by rewrite Ascii.eqb_refl.
Qed.

Lemma drop_app a b : Text.drop (String.length a) (a +:+ b) = b.
Proof.
  induction a as [|c a IH]; [by destruct b|].
  change (Text.drop (S (String.length a)) (String c (a +:+ b)) = b).
  cbn [Text.drop]. exact IH.
Qed.

(** X18.  What the adapter takes from the Authorization header: a
    token it returns is never empty and has no white space around it,
    and the scheme word is matched whatever its case, the token being
    what follows it, stripped. *)
Theorem bearer_token_is_stripped_and_scheme_insensitive :
  (forall header token,
     _bearer_token header = Some token -> token <> "" /\ Text.strip token = token) /\
  (forall scheme rest,
     Text.lower scheme = "bearer " ->
     _bearer_token (Some (scheme +:+ rest)) = Text.or_none (Text.strip rest)) /\
  _bearer_token None = None /\ _bearer_token (Some "") = None.
Proof.
  split; [apply bearer_token_clean|]. split; [|done].
  intros scheme rest Hscheme. unfold _bearer_token.
  assert (String.length scheme = 7) as Hlen
    by (rewrite <- lower_length, Hscheme; reflexivity).
  destruct (String.eqb (scheme +:+ rest) "") eqn:He.
  { apply String.eqb_eq in He. destruct scheme; [discriminate Hlen|discriminate He]. }
  rewrite lower_app, Hscheme, is_prefix_app.
  change 7 with (String.length "bearer "). rewrite <- Hscheme, lower_length.
  by rewrite drop_app.
Qed.

Lemma bearer_token_is_stripped_and_scheme_insensitive_witness :
  _bearer_token (Some ("BeArEr " +:+ "  sk-1 ")) = Text.or_none (Text.strip "  sk-1 ").
Proof.
  destruct bearer_token_is_stripped_and_scheme_insensitive as (_ & H & _).
  apply H. vm_compute. reflexivity.
Defined.


(** X20.  A body without usable text is answered 422 and leaves no
    queue behind: for an accepted body whose messages have the
    documented shape and no usable text part, once the agent session
    is resolved the answer is 422 with the message of the
    [ValueError], and the registry is what it was before the queue was
    attached. *)
Theorem create_run_without_text_answers_422 :
  forall (payload : RunRequest) (authorization : option string) (run_id : string)
         (sc : script) (m m1 : manager) (codex_session : string),
    accepted payload = true ->
    registry_sound m ->
    forallb message_without_text (input payload) = true ->
    run_prompt_session (_bearer_token authorization) (request_session_id payload) sc m
      = (Returns codex_session, m1) ->
    exists m',
      create_run payload authorization run_id sc m
        = (HTTPException 422
             (JObj [("message", JStr "Prompt payload did not contain any plain text content")]),
           m') /\
      session_watchers m' = session_watchers m1.
Proof.
  intros payload authorization run_id sc m m1 cs Hacc Hs Hno Hsession.
  unfold accepted in Hacc. apply andb_true_iff in Hacc as [Ha Hm].
  unfold create_run. rewrite Ha, Hm. cbn [negb].
  pose proof (run_prompt_session_sound (_bearer_token authorization)
                (request_session_id payload) sc m Hs) as Hs1.
  rewrite Hsession in Hs1. cbn [snd] in Hs1.
  unfold run_prompt. rewrite Hsession.
  pose proof (attach_then_detach m1 cs Hs1) as Hdetach.
  destruct (attach_watcher m1 cs) as [q m2]. cbn [fst snd] in Hdetach.
  rewrite (build_prompt_payload_without_text _ Hno), Hdetach.
  eexists. split; [reflexivity|reflexivity].
Qed.

Lemma create_run_without_text_answers_422_witness :
  exists m',
    create_run (MkRunRequest "codex" "sync" (Some "s1") image_messages) None "r-2"
               end_turn_script after_first_run
      = (HTTPException 422
           (JObj [("message", JStr "Prompt payload did not contain any plain text content")]),
         m') /\
    session_watchers m' = session_watchers after_first_run.
Proof.
  assert (run_prompt_session (_bearer_token None)
            (request_session_id (MkRunRequest "codex" "sync" (Some "s1") image_messages))
            end_turn_script after_first_run
          = (Returns "a1", after_first_run)) as Hsession by (vm_compute; reflexivity).
  assert (forallb message_without_text
            (input (MkRunRequest "codex" "sync" (Some "s1") image_messages)) = true) as Hno
    by (vm_compute; reflexivity).
  assert (accepted (MkRunRequest "codex" "sync" (Some "s1") image_messages) = true) as Hacc
    by (vm_compute; reflexivity).
  apply (create_run_without_text_answers_422 _ None "r-2" end_turn_script after_first_run
           after_first_run "a1" Hacc after_first_run_sound Hno Hsession).
Defined.

(** X21.  A credential the agent cannot use is answered 401.  When the
    header carries a token, the handshake has to be made, and the agent
    answers [initialize] without advertising "openai-api-key", an
    accepted body is answered 401 with code -32000.  The orchestrator
    stops right after the [initialize] exchange, with the handshake
    flag still clear, so the next call makes the handshake again. *)
Theorem create_run_with_unusable_credential_answers_401 :
  forall (payload : RunRequest) (authorization : option string) (run_id : string)
         (sc : script) (m m0 m1 : manager) (token : string) (restarted : bool)
         (init_result : json) (ids : list json),
    accepted payload = true ->
    _bearer_token authorization = Some token ->
    start (Some token) (obeys_terminate sc) m = (Returns restarted, m0) ->
    initialized (reset_after_restart restarted m0) = false ->
    call "initialize" initialize_params (on_initialize sc) (reset_after_restart restarted m0)
      = (Returns init_result, m1) ->
    auth_method_ids init_result = inr ids ->
    existsb (fun x => Py.eq_str x "openai-api-key") ids = false ->
    create_run payload authorization run_id sc m
      = (HTTPException 401 auth_unsupported_detail, set_auth_methods ids m1) /\
    initialized (set_auth_methods ids m1) = false.
Proof.
  intros payload authorization run_id sc m m0 m1 token restarted init_result ids
         Hacc Htok Hstart Hinit Hcall Hids Hadv.
  unfold accepted in Hacc. apply andb_true_iff in Hacc as [Ha Hm].
  assert (token_given (Some token) = true) as Hgiven.
  { apply bearer_token_clean in Htok as [Hne _]. cbn.
    apply negb_true_iff. by apply String.eqb_neq. }
  pose proof (call_sessions "initialize" initialize_params (on_initialize sc)
                (reset_after_restart restarted m0)) as (Hi & _).
  rewrite Hcall in Hi. cbn [snd] in Hi.
  split; [|mg_simpl; congruence].
  unfold create_run. rewrite Ha, Hm, Htok. cbn [negb].
  unfold run_prompt, run_prompt_session, bind at 1. rewrite Hstart.
  unfold bind at 1, _ensure_initialized. rewrite Hinit.
  unfold bind at 1. rewrite Hcall, Hids, Hgiven. mg_simpl. rewrite Hadv. cbn [negb].
  reflexivity.
Qed.

Lemma create_run_with_unusable_credential_answers_401_witness :
  exists m',
    create_run (MkRunRequest "codex" "sync" None hi_messages) (Some "Bearer sk-1") "r-3"
               no_auth_script (new_manager "/workspace")
      = (HTTPException 401 auth_unsupported_detail, m') /\
    initialized m' = false.
Proof.
  assert (_bearer_token (Some "Bearer sk-1") = Some "sk-1") as Htok
    by (vm_compute; reflexivity).
  assert (start (Some "sk-1") (obeys_terminate no_auth_script) (new_manager "/workspace")
          = (Returns true, snd (start (Some "sk-1") true (new_manager "/workspace"))))
    as Hstart by (vm_compute; reflexivity).
  assert (initialized (reset_after_restart true
                         (snd (start (Some "sk-1") true (new_manager "/workspace")))) = false)
    as Hinit by (vm_compute; reflexivity).
  assert (call "initialize" initialize_params (on_initialize no_auth_script)
            (reset_after_restart true
               (snd (start (Some "sk-1") true (new_manager "/workspace"))))
          = (Returns (JObj [("authMethods", JArr [])]),
             snd (call "initialize" initialize_params (on_initialize no_auth_script)
                    (reset_after_restart true
                       (snd (start (Some "sk-1") true (new_manager "/workspace")))))))
    as Hcall by (vm_compute; reflexivity).
  assert (accepted (MkRunRequest "codex" "sync" None hi_messages) = true) as Hacc
    by (vm_compute; reflexivity).
  assert (auth_method_ids (JObj [("authMethods", JArr [])]) = inr []) as Hids
    by (vm_compute; reflexivity).
  destruct (create_run_with_unusable_credential_answers_401
              (MkRunRequest "codex" "sync" None hi_messages) (Some "Bearer sk-1") "r-3"
              no_auth_script (new_manager "/workspace") _ _ "sk-1" true _ []
              Hacc Htok Hstart Hinit Hcall Hids eq_refl) as (Hrun & Hflag).
  eexists. split; [exact Hrun|exact Hflag].
Defined.
